(** * OND Money mock: the ledger core of [server.js]

    A shallow embedding of the handlers of [src/server.js] that read or write
    wallet balances, transactions and the idempotency cache: the API-key
    gate, POST / PUT / DELETE on [/wallet], credit, debit, and transfer with
    its idempotency cache; and the properties of the ledger that the
    specification states, each proved or refuted on these definitions.

    The other routes that [server.js] defines (bank CRUD, the read routes,
    PATCH on a wallet and the public routes) are embedded after these, on
    the same store, with properties read off the code.  The raw router of
    json-server, mounted last, is library code and is not embedded.

    - JavaScript numbers are IEEE 754 binary64 values ([spec_float] of the
      Standard Library); an arithmetic operation is the exact rational
      result rounded to nearest, ties to even, and a comparison compares the
      exact values.
    - The lowdb collections are lists, in insertion order; [find] returns the
      first match and [assign] updates it in place.
    - [Date.now()] and [new Date().toISOString()] read a clock: the k-th
      reading of a run is [clock k], an instant in whole milliseconds.
    - Request fields and stored fields are JSON values ([value]); a stored
      balance is a number until a PATCH writes another value over it.
    - A handler that throws is answered 500 by Express; none throws after a
      write. *)

From Stdlib Require Import ZArith QArith Qround Qabs Qpower Lia Lqa.
From Stdlib Require Import List String Ascii Bool SpecFloat DecimalString.
Import ListNotations.
Local Open Scope string_scope.
Local Open Scope Z_scope.

(** * JavaScript numbers *)

Module JsNumber.

Definition number : Type := spec_float.

Definition NaN : number := S754_nan.
Definition zero : number := S754_zero false.

(** [2 ^ e] as a rational, for any integer exponent. *)
Definition pow2 (e : Z) : Q := Qpower 2 e.

(** The real value of a finite number; 0 for the others. *)
Definition F2Q (x : number) : Q :=
  match x with
  | S754_finite s m e => inject_Z (if s then Z.neg m else Z.pos m) * pow2 e
  | _ => 0
  end.

(** For [q > 0], the exponent [E] with [2^E <= q < 2^(E+1)]. *)
Definition Qlog2 (q : Q) : Z :=
  let d := Z.log2 (Qnum q) - Z.log2 (Zpos (Qden q)) in
  if Qle_bool (pow2 d) q then d else d - 1.

(** Nearest integer, ties to even. *)
Definition rne (q : Q) : Z :=
  let f := Qfloor q in
  match (q - inject_Z f ?= 1 # 2)%Q with
  | Lt => f
  | Gt => f + 1
  | Eq => if Z.even f then f else f + 1
  end.

(** The binary64 value nearest to [q > 0], with sign [s]: 53 significant
    bits, least exponent -1074, overflow to infinity from [2^1024]. *)
Definition round_pos (s : bool) (q : Q) : number :=
  let ex := Z.max (Qlog2 q - 52) (-1074) in
  let m := rne (q / pow2 ex) in
  let '(m, ex) := if m =? 2 ^ 53 then (2 ^ 52, ex + 1) else (m, ex) in
  match m with
  | Zpos p => if ex >? 971 then S754_infinity s else S754_finite s p ex
  | _ => S754_zero s
  end.

(** Round to nearest even of any rational; an exact zero is [+0]. *)
Definition round_Q (q : Q) : number :=
  match Qnum q with
  | Z0 => S754_zero false
  | Zpos _ => round_pos false q
  | Zneg _ => round_pos true (- q)
  end.

(** A decimal literal [n / 100], as [JSON.parse] reads it. *)
Definition cents (n : Z) : number := round_Q (n # 100).
Definition of_Z (n : Z) : number := round_Q (inject_Z n).

(** [x + y] *)
Definition add (x y : number) : number :=
  match x, y with
  | S754_nan, _ | _, S754_nan => S754_nan
  | S754_infinity sx, S754_infinity sy =>
      if Bool.eqb sx sy then x else S754_nan
  | S754_infinity _, _ => x
  | _, S754_infinity _ => y
  | S754_zero sx, S754_zero sy => S754_zero (sx && sy)
  | _, _ => round_Q (F2Q x + F2Q y)
  end.

(** [- x] *)
Definition opp (x : number) : number :=
  match x with
  | S754_zero s => S754_zero (negb s)
  | S754_infinity s => S754_infinity (negb s)
  | S754_nan => S754_nan
  | S754_finite s m e => S754_finite (negb s) m e
  end.

(** [x - y] *)
Definition sub (x y : number) : number := add x (opp y).

(** [x < y]: false as soon as one side is NaN. *)
Definition lt (x y : number) : bool :=
  match x, y with
  | S754_nan, _ | _, S754_nan => false
  | S754_infinity sx, S754_infinity sy => sx && negb sy
  | S754_infinity sx, _ => sx
  | _, S754_infinity sy => negb sy
  | _, _ => match (F2Q x ?= F2Q y)%Q with Lt => true | _ => false end
  end.

(** [x >= y] *)
Definition ge (x y : number) : bool :=
  match x, y with
  | S754_nan, _ | _, S754_nan => false
  | _, _ => negb (lt x y)
  end.

(** [x === y] on numbers *)
Definition eq (x y : number) : bool :=
  match x, y with
  | S754_nan, _ | _, S754_nan => false
  | S754_infinity sx, S754_infinity sy => Bool.eqb sx sy
  | S754_infinity _, _ | _, S754_infinity _ => false
  | _, _ => Qeq_bool (F2Q x) (F2Q y)
  end.

(** [Number.isFinite(x)] *)
Definition isFinite (x : number) : bool :=
  match x with
  | S754_zero _ | S754_finite _ _ _ => true
  | _ => false
  end.

(** Structural equality of representations. *)
Definition same (x y : number) : bool :=
  match x, y with
  | S754_zero a, S754_zero b => Bool.eqb a b
  | S754_infinity a, S754_infinity b => Bool.eqb a b
  | S754_nan, S754_nan => true
  | S754_finite a m e, S754_finite b n f =>
      Bool.eqb a b && (m =? n)%positive && (e =? f)
  | _, _ => false
  end.

(** ** Decimal output *)

Definition string_of_Z (z : Z) : string := NilZero.string_of_int (Z.to_int z).

Definition ten21 : Q := inject_Z (10 ^ 21).

(** [toFixed], step 11 with two fraction digits: the integer [n] with [n / 100]
    nearest to [a >= 0], the larger one on a tie. *)
Definition fixed_digits (a : Q) : Z := Qfloor (a * 100 + (1 # 2)).

Definition two_digits (r : Z) : string :=
  if r <? 10 then "0" ++ string_of_Z r else string_of_Z r.

Definition fixed_string (n : Z) : string :=
  string_of_Z (n / 100) ++ "." ++ two_digits (n mod 100).

(** For [a > 0], the decimal exponent [n] with [10^(n-1) <= a < 10^n]. *)
Definition ndigits (z : Z) : Z := Z.of_nat (String.length (string_of_Z z)).
Definition exp10 (a : Q) : Z :=
  if Qle_bool 1 a then ndigits (Qfloor a)
  else 1 - ndigits (Qceiling (/ a) - 1).

Definition pow10 (e : Z) : Q := Qpower 10 e.

(** [Number::toString], step 5: the least number [k] of digits [s] such that
    [s * 10^(n-k)] reads back as [x], and the [s] nearest to [x] among
    those; [a] is the real value of [x > 0].  Seventeen digits always
    suffice for a binary64 value. *)
Fixpoint shortest (fuel : nat) (k : Z) (x : number) (a : Q) (n : Z) : Z * Z :=
  match fuel with
  | O => (Qfloor (a / pow10 (n - k)), n)
  | S fuel' =>
      let scale := pow10 (n - k) in
      let lo := Qfloor (a / scale) in
      let hi := lo + 1 in
      let ok_lo := same (round_Q (inject_Z lo * scale)) x in
      let ok_hi := same (round_Q (inject_Z hi * scale)) x in
      let norm s := if s =? 10 ^ k then (s / 10, n + 1) else (s, n) in
      match ok_lo, ok_hi with
      | true, false => norm lo
      | false, true => norm hi
      | true, true =>
          match (a - inject_Z lo * scale ?= inject_Z hi * scale - a)%Q with
          | Lt => norm lo
          | Gt => norm hi
          | Eq => if Z.even lo then norm lo else norm hi
          end
      | false, false => shortest fuel' (k + 1) x a n
      end
  end.

Fixpoint zeros (n : nat) : string :=
  match n with
  | O => EmptyString
  | S n' => String "0" (zeros n')
  end.

(** [Number::toString(x)], radix 10 *)
Definition toString (x : number) : string :=
  match x with
  | S754_nan => "NaN"
  | S754_zero _ => "0"
  | S754_infinity s => if s then "-Infinity" else "Infinity"
  | S754_finite sg m e =>
      let a := Qabs (F2Q x) in
      let '(s, n) := shortest 17 1 (S754_finite false m e) a (exp10 a) in
      let ds := string_of_Z s in
      let k := Z.of_nat (String.length ds) in
      (if sg then "-" else "") ++
      (if (-5 <=? n) && (n <=? 21) then
         if k <=? n then ds ++ zeros (Z.to_nat (n - k))
         else if 0 <? n then
           substring 0 (Z.to_nat n) ds ++ "." ++
           substring (Z.to_nat n) (Z.to_nat (k - n)) ds
         else "0." ++ zeros (Z.to_nat (- n)) ++ ds
       else
         let ex := (if 0 <=? n - 1 then "+" else "-") ++
                   string_of_Z (Z.abs (n - 1)) in
         match ds with
         | String d EmptyString => String d EmptyString ++ "e" ++ ex
         | String d r => String d ("." ++ r) ++ "e" ++ ex
         | EmptyString => EmptyString
         end)
  end.

(** [x.toFixed(2)] *)
Definition toFixed2 (x : number) : string :=
  match x with
  | S754_nan => "NaN"
  | S754_infinity s => if s then "-Infinity" else "Infinity"
  | S754_zero _ => "0.00"
  | S754_finite s m e =>
      let a := Qabs (F2Q x) in
      (if s then "-" else "") ++
      (if Qle_bool ten21 a then toString (S754_finite false m e)
       else fixed_string (fixed_digits a))
  end.

(** ** Decimal input *)

Definition digit_of (c : ascii) : option Z :=
  let n := Z.of_N (N_of_ascii c) - 48 in
  if (0 <=? n) && (n <=? 9) then Some n else None.

(** The digits at the head of [s]: their value, their number, the rest. *)
Fixpoint read_digits (s : string) (acc count : Z) : Z * Z * string :=
  match s with
  | String c r =>
      match digit_of c with
      | Some d => read_digits r (acc * 10 + d) (count + 1)
      | None => (acc, count, s)
      end
  | EmptyString => (acc, count, s)
  end.

(** [Number(s)] for a decimal literal without surrounding white space: sign,
    digits, fraction, exponent, or [Infinity]; NaN for any other text.  The
    value is rounded to the nearest number. *)
Definition Number_of_string (s : string) : number :=
  let '(neg, s1) :=
    match s with
    | String "-" r => (true, r)
    | String "+" r => (false, r)
    | _ => (false, s)
    end in
  if String.eqb s "" then S754_zero false
  else if String.eqb s1 "Infinity" then S754_infinity neg
  else
    let '(ip, ni, s2) := read_digits s1 0 0 in
    let '(fp, nf, s3) :=
      match s2 with
      | String "." r => read_digits r 0 0
      | _ => (0, 0, s2)
      end in
    let '(ex, ne, s4) :=
      match s3 with
      | String "e" (String "-" r) | String "E" (String "-" r) =>
          let '(v, n, t) := read_digits r 0 0 in (- v, n, t)
      | String "e" (String "+" r) | String "E" (String "+" r)
      | String "e" r | String "E" r => read_digits r 0 0
      | _ => (0, 1, s3)
      end in
    if (ni + nf =? 0) || (ne =? 0) || negb (String.eqb s4 "") then S754_nan
    else
      let q := (inject_Z (ip * 10 ^ nf + fp) * pow10 (ex - nf))%Q in
      if Qeq_bool q 0 then S754_zero neg else round_pos neg q.

(** ** Strings to numbers *)

(** The length in bytes of the white space or line terminator at the head
    of [s], in UTF-8; 0 when there is none. *)
Definition space_at (s : string) : nat :=
  match s with
  | String c r =>
      let n := N_of_ascii c in
      if ((9 <=? n) && (n <=? 13) || (n =? 32))%N then 1%nat
      else
        match r with
        | String c1 r1 =>
            let n1 := N_of_ascii c1 in
            if ((n =? 194) && (n1 =? 160))%N then 2%nat
            else
              match r1 with
              | String c2 _ =>
                  let n2 := N_of_ascii c2 in
                  if ((n =? 225) && (n1 =? 154) && (n2 =? 128)
                      || (n =? 226) && (n1 =? 128)
                         && ((128 <=? n2) && (n2 <=? 138)
                             || (n2 =? 168) || (n2 =? 169) || (n2 =? 175))
                      || (n =? 226) && (n1 =? 129) && (n2 =? 159)
                      || (n =? 227) && (n1 =? 128) && (n2 =? 128)
                      || (n =? 239) && (n1 =? 187) && (n2 =? 191))%N
                  then 3%nat else 0%nat
              | EmptyString => 0%nat
              end
        | EmptyString => 0%nat
        end
  | EmptyString => 0%nat
  end.

Definition drop (n : nat) (s : string) : string :=
  substring n (String.length s - n) s.

(** [s] without the white space at its head. *)
Fixpoint trim_start (fuel : nat) (s : string) : string :=
  match fuel with
  | O => s
  | S fuel' =>
      match space_at s with
      | O => s
      | n => trim_start fuel' (drop n s)
      end
  end.

(** [s] without the white space at its end. *)
Fixpoint trim_end (s : string) : string :=
  match s with
  | EmptyString => EmptyString
  | String c r =>
      if String.eqb (trim_start (String.length s) s) "" then EmptyString
      else String c (trim_end r)
  end.

Definition trim (s : string) : string :=
  trim_end (trim_start (String.length s) s).

Definition digit_in (radix : Z) (c : ascii) : option Z :=
  let n := Z.of_N (N_of_ascii c) in
  let d :=
    if (48 <=? n) && (n <=? 57) then n - 48
    else if (97 <=? n) && (n <=? 102) then n - 87
    else if (65 <=? n) && (n <=? 70) then n - 55
    else 16 in
  if d <? radix then Some d else None.

(** The value of [s] read in [radix], when [s] is digits of that radix. *)
Fixpoint read_radix (radix : Z) (s : string) (acc : Z) : option Z :=
  match s with
  | EmptyString => Some acc
  | String c r =>
      match digit_in radix c with
      | Some d => read_radix radix r (acc * radix + d)
      | None => None
      end
  end.

(** A hexadecimal, octal or binary literal: [0x], [0o] or [0b], in either
    case, and at least one digit. *)
Definition non_decimal (s : string) : option Z :=
  match s with
  | String "0" (String c (String d r)) =>
      let digits := String d r in
      if (Ascii.eqb c "x" || Ascii.eqb c "X")%bool then read_radix 16 digits 0
      else if (Ascii.eqb c "o" || Ascii.eqb c "O")%bool
      then read_radix 8 digits 0
      else if (Ascii.eqb c "b" || Ascii.eqb c "B")%bool
      then read_radix 2 digits 0
      else None
  | _ => None
  end.

(** StringToNumber: white space is trimmed, the empty string is [+0], and
    what is left is a literal in radix 16, 8 or 2, or a decimal literal, or
    the string reads as NaN. *)
Definition StringToNumber (s : string) : number :=
  let t := trim s in
  match non_decimal t with
  | Some n => of_Z n
  | None => Number_of_string t
  end.

(** [Number(x.toFixed(2))], by its value: the nearest number to the nearest
    hundredth.  From [10^21] on, [toFixed] prints [x] itself, which reads
    back as [x]; ["-0.00"] reads back as [-0].  [round2_reads_toFixed2]
    compares it with [Number_of_string (toFixed2 x)]. *)
Definition round2 (x : number) : number :=
  match x with
  | S754_finite s m e =>
      let a := Qabs (F2Q x) in
      if Qle_bool ten21 a then x
      else match fixed_digits a with
           | Z0 => S754_zero s
           | n => round_pos s (n # 100)
           end
  | S754_zero _ => S754_zero false
  | _ => x
  end.

End JsNumber.
Import JsNumber.

(** * JavaScript values carried by requests and records *)

(** What [JSON.parse] gives, and [undefined] for a field that is absent.  An
    object is the list of its own properties, each key once. *)
#[warnings="-register-all"]
Inductive value : Type :=
| VUndefined
| VNull
| VBool (b : bool)
| VNum (x : number)
| VStr (s : string)
| VArr (l : list value)
| VObj (l : list (string * value)).

(** ToBoolean: what [!v] and [v || w] test. *)
Definition truthy (v : value) : bool :=
  match v with
  | VUndefined | VNull => false
  | VBool b => b
  | VNum (S754_zero _) | VNum S754_nan => false
  | VNum _ => true
  | VStr s => negb (String.eqb s "")
  | VArr _ | VObj _ => true
  end.

(** [a === b].  Two arrays or two objects are [===] only when they are one
    object; those that a handler compares come from two requests, or from
    two fields of one parsed body, and never are. *)
Definition strict_eq (a b : value) : bool :=
  match a, b with
  | VUndefined, VUndefined => true
  | VNull, VNull => true
  | VBool x, VBool y => Bool.eqb x y
  | VNum x, VNum y => JsNumber.eq x y
  | VStr x, VStr y => String.eqb x y
  | _, _ => false
  end.

(** [a || b] *)
Definition or_else (a b : value) : value := if truthy a then a else b.

(** [function isPositiveNumber(x)] *)
Definition isPositiveNumber (x : value) : bool :=
  match x with
  | VNum n => isFinite n && lt zero n
  | _ => false
  end.

(** The number held by a value that passed [typeof x === "number"]. *)
Definition numeric (x : value) : number :=
  match x with
  | VNum n => n
  | _ => NaN
  end.

(** [typeof v === "number"] *)
Definition as_number (v : value) : option number :=
  match v with
  | VNum n => Some n
  | _ => None
  end.

(** ** Conversions *)

(** The own property [key] of an object. *)
Fixpoint own (key : string) (l : list (string * value)) : option value :=
  match l with
  | [] => None
  | (k, v) :: l' => if String.eqb k key then Some v else own key l'
  end.

(** What [JSON.parse] builds: an object has each of its keys once. *)
Fixpoint well_formed (v : value) : bool :=
  match v with
  | VArr l => forallb well_formed l
  | VObj l =>
      (fix each (l : list (string * value)) : bool :=
         match l with
         | [] => true
         | (k, x) :: l' =>
             match own k l' with
             | Some _ => false
             | None => true
             end
             && well_formed x && each l'
         end) l
  | _ => true
  end.

(** ToString, as a template literal applies it; [None] when it throws a
    TypeError.  An object prints as ["[object Object]"] through the
    [toString] it inherits; an own property [toString], which JSON cannot
    make callable, hides that one, and neither it nor [valueOf] then gives a
    primitive.  An array joins its elements with commas, [null] printing as
    the empty string. *)
Fixpoint to_string (v : value) : option string :=
  match v with
  | VUndefined => Some "undefined"
  | VNull => Some "null"
  | VBool b => Some (if b then "true" else "false")
  | VNum x => Some (toString x)
  | VStr s => Some s
  | VArr l =>
      (fix join (l : list value) : option string :=
         match l with
         | [] => Some ""
         | x :: rest =>
             match match x with
                   | VUndefined | VNull => Some ""
                   | _ => to_string x
                   end with
             | None => None
             | Some s =>
                 match rest with
                 | [] => Some s
                 | _ => option_map (fun r => s ++ "," ++ r) (join rest)
                 end
             end
         end) l
  | VObj l =>
      match own "toString" l with
      | Some _ => None
      | None => Some "[object Object]"
      end
  end.

(** ToNumber; [None] when ToPrimitive throws.  An array or an object converts
    through the string that ToString gives it. *)
Definition to_number (v : value) : option number :=
  match v with
  | VUndefined => Some NaN
  | VNull => Some zero
  | VBool b => Some (if b then of_Z 1 else zero)
  | VNum x => Some x
  | VStr s => Some (StringToNumber s)
  | VArr _ | VObj _ => option_map StringToNumber (to_string v)
  end.

(** [x + y] for a number [y], when the sum is a number.  [None] when [x] is
    a string or converts to one, so that [+] concatenates and the result has
    no [toFixed], or when the conversion throws: a TypeError either way. *)
Definition plus (x : value) (y : number) : option number :=
  match x with
  | VStr _ | VArr _ | VObj _ => None
  | _ => option_map (fun n => add n y) (to_number x)
  end.

(** [x - y] for a number [y]; [None] when the conversion of [x] throws. *)
Definition minus (x : value) (y : number) : option number :=
  option_map (fun n => sub n y) (to_number x).

(** [x < y] for a number [y]; [None] when the conversion of [x] throws. *)
Definition less (x : value) (y : number) : option bool :=
  option_map (fun n => lt n y) (to_number x).

(** ** The predicates of lodash *)

(** The first element of [l] that [p] accepts, taken out of [l]. *)
Fixpoint take_first {A : Type} (p : A -> bool) (l : list A)
  : option (list A) :=
  match l with
  | [] => None
  | a :: l' =>
      if p a then Some l' else option_map (cons a) (take_first p l')
  end.

(** [src] against the value that an object without own property [key]
    gives for [key]: nothing, a method of [Object.prototype], or, under
    ["__proto__"], [Object.prototype] itself, whose only property with a
    JSON value is ["__proto__"], [null]. *)
Definition inherited (key : string) (src : value) : bool :=
  String.eqb key "__proto__"
  && match src with
     | VObj l =>
         forallb (fun kv => String.eqb (fst kv) "__proto__"
                            && match snd kv with
                               | VNull => true
                               | _ => false
                               end) l
     | _ => false
     end.

(** [baseIsEqual(src, other, COMPARE_PARTIAL_FLAG | COMPARE_UNORDERED_FLAG)]:
    primitives by [===], NaN with NaN; an array against an array that is at
    least as long, each element of [src] in turn taking the first element of
    [other] not yet taken that it equals; an object against an object, each
    own property of [src] against the value that [other] gives for its
    key. *)
Fixpoint partial_eq (src other : value) {struct src} : bool :=
  match src with
  | VArr a =>
      match other with
      | VArr b =>
          (List.length a <=? List.length b)%nat
          && (fix each (a b : list value) {struct a} : bool :=
                match a with
                | [] => true
                | x :: a' =>
                    match take_first (partial_eq x) b with
                    | Some b' => each a' b'
                    | None => false
                    end
                end) a b
      | _ => false
      end
  | VObj a =>
      match other with
      | VObj b =>
          (fix fields (a : list (string * value)) : bool :=
             match a with
             | [] => true
             | (k, x) :: a' =>
                 match own k b with
                 | Some y => partial_eq x y
                 | None => inherited k x
                 end
                 && fields a'
             end) a
      | _ => false
      end
  | _ =>
      match other with
      | VArr _ | VObj _ => false
      | _ =>
          strict_eq src other
          || match src, other with
             | VNum S754_nan, VNum S754_nan => true
             | _, _ => false
             end
      end
  end.

(** [isStrictComparable(v)] *)
Definition strict_comparable (v : value) : bool :=
  match v with
  | VArr _ | VObj _ | VNum S754_nan => false
  | _ => true
  end.

(** The predicate that lodash makes of [{ key: src }], on the value [field]
    that a record holds under [key]: [===] when [src] is a primitive other
    than NaN, a partial deep comparison otherwise.  The handlers look a
    record up only under a value that passed a truthiness test, or under a
    path parameter, so [src] is not [undefined] in a lookup whose result is
    used. *)
Definition matches (src field : value) : bool :=
  if strict_comparable src then strict_eq field src else partial_eq src field.

(** A field that the server sets from the clock, [Date.now()] or [nowISO()],
    and that a PATCH body can overwrite with any value. *)
Inductive stamp : Type :=
| At (t : Z)
| Raw (v : value).

(** * The lowdb collections *)

Module Bank.
Record t : Type := mk {
  id : stamp; bankId : value; name : value; currency : value; status : value;
  createdAt : stamp; updatedAt : Z }.
End Bank.

Module Wallet.
Record t : Type := mk {
  id : stamp; walletId : value; bankId : value; ownerId : value;
  ownerName : value; phoneNumber : value; balance : value; status : value;
  createdAt : stamp; updatedAt : Z }.
End Wallet.

Inductive txn_type : Type := CREDIT | DEBIT.
Inductive txn_status : Type := SUCCESS.

Module Txn.
Record t : Type := mk {
  id : Z; createdAt : Z; processedAt : Z; transactionId : string;
  walletId : value; type : txn_type; status : txn_status; amount : number;
  balanceBefore : value; balanceAfter : number; reference : value;
  description : option value; timestamp : Z }.
End Txn.

(** The response of a transfer, also the payload cached under an
    idempotency key. *)
Module Transfer.
Record t : Type := mk {
  transactionId : string; sourceWalletId : value; destinationWalletId : value;
  amount : number; status : txn_status;
  sourceBalanceBefore : value; sourceBalanceAfter : number;
  destinationBalanceBefore : value; destinationBalanceAfter : number;
  reference : value; description : value; timestamp : Z }.
End Transfer.

Module Idem.
Record t : Type := mk {
  id : Z; key : string; response : Transfer.t; createdAt : Z }.
End Idem.

Inductive payload : Type :=
| PWalletCreated (walletId phoneNumber ownerId ownerName : value)
    (initialBalance : number) (status : value) (createdAt : Z)
| PTxn (transactionId : string) (walletId : value)
    (amount : number) (balanceBefore : value) (balanceAfter : number)
    (reference : value) (status : txn_status) (timestamp : Z)
| PTransfer (response : Transfer.t).

Module Event.
Record t : Type := mk {
  id : Z; topic : string; payload : payload; createdAt : Z }.
End Event.

Module Db.
Record t : Type := mk {
  apiKeys : list string;
  banks : list Bank.t;
  wallets : list Wallet.t;
  transactions : list Txn.t;
  events : list Event.t;
  idempotency : list Idem.t }.
End Db.

(** ** lodash chains used by the handlers *)

(** [.find(p).assign(f).write()]: the first element that matches is updated
    in place. *)
Fixpoint assign_first {A : Type} (p : A -> bool) (f : A -> A) (l : list A)
  : list A :=
  match l with
  | [] => []
  | a :: l' => if p a then f a :: l' else a :: assign_first p f l'
  end.

(** [.push(x).write()] *)
Definition push {A : Type} (x : A) (l : list A) : list A := (l ++ [x])%list.

(** [.remove(p).write()] *)
Definition remove {A : Type} (p : A -> bool) (l : list A) : list A :=
  filter (fun a => negb (p a)) l.

(** [{ walletId: v }], [{ phoneNumber: v }], [{ bankId: v }] and
    [{ key: k }] as predicates *)
Definition has_walletId (v : value) (w : Wallet.t) : bool :=
  matches v (Wallet.walletId w).
Definition has_phone (v : value) (w : Wallet.t) : bool :=
  matches v (Wallet.phoneNumber w).
Definition has_bankId (v : value) (b : Bank.t) : bool :=
  matches v (Bank.bankId b).
Definition has_key (k : string) (r : Idem.t) : bool :=
  String.eqb (Idem.key r) k.
Definition txn_of_wallet (v : value) (t : Txn.t) : bool :=
  matches v (Txn.walletId t).

(** [.assign({ balance: after, updatedAt: now })] *)
Definition set_balance (after : number) (now : Z) (w : Wallet.t) : Wallet.t :=
  Wallet.mk (Wallet.id w) (Wallet.walletId w) (Wallet.bankId w)
    (Wallet.ownerId w) (Wallet.ownerName w) (Wallet.phoneNumber w)
    (VNum after) (Wallet.status w) (Wallet.createdAt w) now.

Definition with_wallets (f : list Wallet.t -> list Wallet.t) (d : Db.t) : Db.t :=
  Db.mk (Db.apiKeys d) (Db.banks d) (f (Db.wallets d)) (Db.transactions d)
    (Db.events d) (Db.idempotency d).
Definition with_transactions (f : list Txn.t -> list Txn.t) (d : Db.t) : Db.t :=
  Db.mk (Db.apiKeys d) (Db.banks d) (Db.wallets d) (f (Db.transactions d))
    (Db.events d) (Db.idempotency d).
Definition with_events (f : list Event.t -> list Event.t) (d : Db.t) : Db.t :=
  Db.mk (Db.apiKeys d) (Db.banks d) (Db.wallets d) (Db.transactions d)
    (f (Db.events d)) (Db.idempotency d).
Definition with_idempotency (f : list Idem.t -> list Idem.t) (d : Db.t) : Db.t :=
  Db.mk (Db.apiKeys d) (Db.banks d) (Db.wallets d) (Db.transactions d)
    (Db.events d) (f (Db.idempotency d)).

(** * The server as a state transformer *)

(** The store, the clock and the number of clock readings made so far. *)
Record world : Type := World {
  store : Db.t; clock : nat -> Z; ticks : nat }.

Definition M (A : Type) : Type := world -> A * world.

Definition ret {A : Type} (a : A) : M A := fun w => (a, w).
Definition bind {A B : Type} (m : M A) (k : A -> M B) : M B :=
  fun w => let (a, w') := m w in k a w'.

Notation "x <- m ;; k" := (bind m (fun x => k))
  (at level 61, m at next level, right associativity).
Notation "m ;;; k" := (bind m (fun _ => k))
  (at level 61, right associativity).

(** [Date.now()] *)
Definition Date_now : M Z :=
  fun w => (clock w (ticks w), World (store w) (clock w) (S (ticks w))).

(** [function nowISO()] *)
Definition nowISO : M Z := Date_now.

Definition db_get : M Db.t := fun w => (store w, w).
Definition db_write (f : Db.t -> Db.t) : M unit :=
  fun w => (tt, World (f (store w)) (clock w) (ticks w)).

(** ** Responses *)

Inductive body : Type :=
| BError (timestamp : Z) (status : Z) (error : string) (message : string)
| BWallet (w : Wallet.t)
| BTxn (transactionId : string) (walletId : value) (type : txn_type)
    (status : txn_status) (amount : number) (balanceBefore : value)
    (balanceAfter : number) (reference : value) (timestamp : Z)
| BTransfer (r : Transfer.t)
| BEmpty
| BThrown.

Record reply : Type := Reply { code : Z; content : body }.

Definition json (b : body) : reply := Reply 200 b.

(** [function badRequest(res, error, message)] and its siblings *)
Definition fail (status : Z) (error message : string) : M reply :=
  t <- nowISO ;; ret (Reply status (BError t status error message)).
Definition badRequest : string -> string -> M reply := fail 400.
Definition notFound : string -> string -> M reply := fail 404.
Definition conflict : string -> string -> M reply := fail 409.
Definition unauthorized : M reply :=
  fail 401 "UNAUTHORIZED" "X-Service-Api-Key manquant ou invalide".

(** A handler that throws a TypeError: Express answers 500 with the text of
    the error, and no helper of the handler has run. *)
Definition thrown : M reply := ret (Reply 500 BThrown).

(** ** Helpers *)

Definition findBankByBankId (bankId : value) : M (option Bank.t) :=
  d <- db_get ;; ret (find (has_bankId bankId) (Db.banks d)).

Definition findWalletByWalletId (walletId : value) : M (option Wallet.t) :=
  d <- db_get ;; ret (find (has_walletId walletId) (Db.wallets d)).

Definition walletExistsByPhone (phoneNumber : value) : M bool :=
  d <- db_get ;;
  ret (match find (has_phone phoneNumber) (Db.wallets d) with
       | Some _ => true
       | None => false
       end).

(** [function makeTxnBase()]: [createdAt] and [processedAt] *)
Definition makeTxnBase : M (Z * Z) :=
  c <- nowISO ;;
  p <- nowISO ;;
  ret (c, p).

(** [function pushEvent(topic, payload)] *)
Definition pushEvent (topic : string) (p : payload) : M unit :=
  i <- Date_now ;;
  c <- nowISO ;;
  db_write (with_events (push (Event.mk i topic p c))).

(** In [`TXN-${Date.now()}`], clock readings are whole milliseconds, printed
    in plain decimal by [string_of_Z]. *)

(** ** Requests *)

Module WalletCreate.
Record t : Type := mk {
  walletId : value; bankId : value; ownerId : value; ownerName : value;
  phoneNumber : value }.
End WalletCreate.

Module WalletUpdate.
Record t : Type := mk {
  bankId : value; ownerId : value; ownerName : value; phoneNumber : value;
  status : value; balance : value }.
End WalletUpdate.

Module Operation.
Record t : Type := mk { amount : value; reference : value }.
End Operation.

Module TransferBody.
Record t : Type := mk {
  sourceWalletId : value; destinationWalletId : value; amount : value;
  reference : value; description : value }.
End TransferBody.

Record headers : Type := Headers {
  x_service_api_key : option string;
  x_idempotency_key : option string }.

Inductive route : Type :=
| PostWallet (b : WalletCreate.t)
| PutWallet (walletId : string) (b : WalletUpdate.t)
| DeleteWallet (walletId : string)
| PostCredit (walletId : string) (b : Operation.t)
| PostDebit (walletId : string) (b : Operation.t)
| PostTransfer (b : TransferBody.t).

Record request : Type := Request { head : headers; target : route }.

(** A header that is present and not empty. *)
Definition header_set (h : option string) : option string :=
  match h with
  | Some k => if String.eqb k "" then None else Some k
  | None => None
  end.

(** ** Wallet CRUD *)

(** [server.post("/wallet", ...)] *)
Definition post_wallet (b : WalletCreate.t) : M reply :=
  let walletId := WalletCreate.walletId b in
  let bankId := WalletCreate.bankId b in
  let ownerId := WalletCreate.ownerId b in
  let ownerName := WalletCreate.ownerName b in
  let phoneNumber := WalletCreate.phoneNumber b in
  if negb (truthy walletId) || negb (truthy bankId) || negb (truthy ownerId)
     || negb (truthy ownerName) || negb (truthy phoneNumber)
  then badRequest "INVALID_REQUEST"
         "walletId, bankId, ownerId, ownerName, phoneNumber sont requis"
  else
    bank <- findBankByBankId bankId ;;
    match bank with
    | None =>
        match to_string bankId with
        | None => thrown
        | Some s => notFound "BANK_NOT_FOUND" ("Banque " ++ s ++ " introuvable")
        end
    | Some _ =>
        existing <- findWalletByWalletId walletId ;;
        match existing with
        | Some _ =>
            match to_string walletId with
            | None => thrown
            | Some s =>
                conflict "WALLET_ALREADY_EXISTS"
                  ("Le wallet " ++ s ++ " existe déjà")
            end
        | None =>
            phone <- walletExistsByPhone phoneNumber ;;
            if phone
            then match to_string phoneNumber with
                 | None => thrown
                 | Some s =>
                     conflict "WALLET_PHONE_ALREADY_EXISTS"
                       ("Un wallet existe déjà pour " ++ s)
                 end
            else
              i <- Date_now ;;
              c <- nowISO ;;
              u <- nowISO ;;
              let wallet :=
                Wallet.mk (At i) walletId bankId ownerId ownerName phoneNumber
                  (VNum zero) (VStr "ACTIVE") (At c) u in
              db_write (with_wallets (push wallet)) ;;;
              pushEvent "wallet.created"
                (PWalletCreated walletId phoneNumber ownerId ownerName zero
                   (VStr "ACTIVE") c) ;;;
              ret (Reply 201 (BWallet wallet))
        end
    end.

(** [server.put("/wallet/:walletId", ...)] *)
Definition put_wallet (walletId : string) (b : WalletUpdate.t) : M reply :=
  found <- findWalletByWalletId (VStr walletId) ;;
  match found with
  | None => notFound "WALLET_NOT_FOUND" "Wallet introuvable"
  | Some wallet =>
      let bankId := WalletUpdate.bankId b in
      let ownerId := WalletUpdate.ownerId b in
      let ownerName := WalletUpdate.ownerName b in
      let phoneNumber := WalletUpdate.phoneNumber b in
      let status := WalletUpdate.status b in
      let balance := WalletUpdate.balance b in
      if negb (truthy bankId) || negb (truthy ownerId)
         || negb (truthy ownerName) || negb (truthy phoneNumber)
         || negb (truthy status)
      then badRequest "INVALID_REQUEST"
             "bankId, ownerId, ownerName, phoneNumber, status requis (PUT)"
      else
        bank <- findBankByBankId bankId ;;
        match bank with
        | None =>
            match to_string bankId with
            | None => thrown
            | Some s =>
                notFound "BANK_NOT_FOUND" ("Banque " ++ s ++ " introuvable")
            end
        | Some _ =>
            phone <- walletExistsByPhone phoneNumber ;;
            if negb (strict_eq phoneNumber (Wallet.phoneNumber wallet)) && phone
            then match to_string phoneNumber with
                 | None => thrown
                 | Some s =>
                     conflict "WALLET_PHONE_ALREADY_EXISTS"
                       ("Un wallet existe déjà pour " ++ s)
                 end
            else
              u <- nowISO ;;
              let updated :=
                Wallet.mk (Wallet.id wallet) (Wallet.walletId wallet) bankId
                  ownerId ownerName phoneNumber
                  (match as_number balance with
                   | Some _ => balance
                   | None => Wallet.balance wallet
                   end)
                  status (Wallet.createdAt wallet) u in
              db_write (with_wallets
                (assign_first (has_walletId (VStr walletId))
                   (fun _ => updated))) ;;;
              ret (json (BWallet updated))
        end
  end.

(** [server.delete("/wallet/:walletId", ...)] *)
Definition delete_wallet (walletId : string) : M reply :=
  found <- findWalletByWalletId (VStr walletId) ;;
  match found with
  | None => notFound "WALLET_NOT_FOUND" "Wallet introuvable"
  | Some wallet =>
      if negb (strict_eq (Wallet.balance wallet) (VNum zero))
      then conflict "WALLET_BALANCE_NOT_ZERO"
             "Impossible de supprimer: le solde du wallet n'est pas zéro"
      else
        db_write (with_transactions (remove (txn_of_wallet (VStr walletId)))) ;;;
        db_write (with_wallets (remove (has_walletId (VStr walletId)))) ;;;
        ret (Reply 204 BEmpty)
  end.

(** ** Operations *)

Definition insufficient_message (balance amount : number) : string :=
  "Solde insuffisant. Solde actuel: " ++ toFixed2 balance ++
  ", Montant demandé: " ++ toFixed2 amount.

(** The refusal of a debit: [balance.toFixed(2)] is a TypeError unless the
    balance is a number. *)
Definition insufficient (balance : value) (amount : number) : M reply :=
  match as_number balance with
  | None => thrown
  | Some n => badRequest "INSUFFICIENT_FUNDS" (insufficient_message n amount)
  end.

(** [server.post("/wallet/:walletId/credit", ...)] *)
Definition credit (walletId : string) (b : Operation.t) : M reply :=
  let amount := Operation.amount b in
  let reference := Operation.reference b in
  found <- findWalletByWalletId (VStr walletId) ;;
  match found with
  | None => notFound "WALLET_NOT_FOUND" "Wallet inexistant"
  | Some wallet =>
      if negb (isPositiveNumber amount)
      then badRequest "INVALID_AMOUNT" "amount doit être > 0"
      else if negb (truthy reference)
      then badRequest "INVALID_REQUEST" "reference est requis"
      else
        let before := Wallet.balance wallet in
        match plus before (numeric amount) with
        | None => thrown
        | Some sum =>
            let after := round2 sum in
            u <- nowISO ;;
            db_write (with_wallets
              (assign_first (has_walletId (VStr walletId))
                 (set_balance after u))) ;;;
            i <- Date_now ;;
            base <- makeTxnBase ;;
            n <- Date_now ;;
            ts <- nowISO ;;
            let txn :=
              Txn.mk i (fst base) (snd base) ("TXN-" ++ string_of_Z n)
                (VStr walletId) CREDIT SUCCESS (numeric amount) before after
                reference None ts in
            db_write (with_transactions (push txn)) ;;;
            pushEvent "wallet.credited"
              (PTxn (Txn.transactionId txn) (Txn.walletId txn)
                 (Txn.amount txn) (Txn.balanceBefore txn)
                 (Txn.balanceAfter txn) (Txn.reference txn) (Txn.status txn)
                 (Txn.timestamp txn)) ;;;
            ret (json
              (BTxn (Txn.transactionId txn) (Txn.walletId txn) (Txn.type txn)
                 (Txn.status txn) (Txn.amount txn) (Txn.balanceBefore txn)
                 (Txn.balanceAfter txn) (Txn.reference txn)
                 (Txn.timestamp txn)))
        end
  end.

(** [server.post("/wallet/:walletId/debit", ...)] *)
Definition debit (walletId : string) (b : Operation.t) : M reply :=
  let amount := Operation.amount b in
  let reference := Operation.reference b in
  found <- findWalletByWalletId (VStr walletId) ;;
  match found with
  | None => notFound "WALLET_NOT_FOUND" "Wallet inexistant"
  | Some wallet =>
      if negb (isPositiveNumber amount)
      then badRequest "INVALID_AMOUNT" "amount doit être > 0"
      else if negb (truthy reference)
      then badRequest "INVALID_REQUEST" "reference est requis"
      else
        match less (Wallet.balance wallet) (numeric amount) with
        | None => thrown
        | Some true => insufficient (Wallet.balance wallet) (numeric amount)
        | Some false =>
            let before := Wallet.balance wallet in
            match minus before (numeric amount) with
            | None => thrown
            | Some difference =>
                let after := round2 difference in
                u <- nowISO ;;
                db_write (with_wallets
                  (assign_first (has_walletId (VStr walletId))
                     (set_balance after u))) ;;;
                i <- Date_now ;;
                base <- makeTxnBase ;;
                n <- Date_now ;;
                ts <- nowISO ;;
                let txn :=
                  Txn.mk i (fst base) (snd base) ("TXN-" ++ string_of_Z n)
                    (VStr walletId) DEBIT SUCCESS (numeric amount) before
                    after reference None ts in
                db_write (with_transactions (push txn)) ;;;
                pushEvent "wallet.debited"
                  (PTxn (Txn.transactionId txn) (Txn.walletId txn)
                     (Txn.amount txn) (Txn.balanceBefore txn)
                     (Txn.balanceAfter txn) (Txn.reference txn)
                     (Txn.status txn) (Txn.timestamp txn)) ;;;
                ret (json
                  (BTxn (Txn.transactionId txn) (Txn.walletId txn)
                     (Txn.type txn) (Txn.status txn) (Txn.amount txn)
                     (Txn.balanceBefore txn) (Txn.balanceAfter txn)
                     (Txn.reference txn) (Txn.timestamp txn)))
            end
        end
  end.

(** [db.get("idempotency").find({ key: idemKey }).value()], behind
    [if (idemKey)] *)
Definition cached (idemKey : option string) (d : Db.t) : option Idem.t :=
  match header_set idemKey with
  | Some k => find (has_key k) (Db.idempotency d)
  | None => None
  end.

(** [server.post("/wallet/transfer", ...)] *)
Definition transfer (h : headers) (b : TransferBody.t) : M reply :=
  let sourceWalletId := TransferBody.sourceWalletId b in
  let destinationWalletId := TransferBody.destinationWalletId b in
  let amount := TransferBody.amount b in
  let reference := TransferBody.reference b in
  let description := TransferBody.description b in
  if negb (truthy sourceWalletId) || negb (truthy destinationWalletId)
     || negb (isPositiveNumber amount) || negb (truthy reference)
  then badRequest "INVALID_REQUEST"
         "sourceWalletId, destinationWalletId, amount>0, reference requis"
  else if strict_eq sourceWalletId destinationWalletId
  then badRequest "INVALID_TRANSFER" "Source et destination identiques"
  else
    src <- findWalletByWalletId sourceWalletId ;;
    dst <- findWalletByWalletId destinationWalletId ;;
    match src, dst with
    | None, _ =>
        match to_string sourceWalletId with
        | None => thrown
        | Some s =>
            notFound "WALLET_NOT_FOUND" ("Wallet source inexistant: " ++ s)
        end
    | Some _, None =>
        match to_string destinationWalletId with
        | None => thrown
        | Some s =>
            notFound "WALLET_NOT_FOUND"
              ("Wallet destination inexistant: " ++ s)
        end
    | Some src, Some dst =>
        let idemKey := x_idempotency_key h in
        d <- db_get ;;
        match cached idemKey d with
        | Some hit => ret (json (BTransfer (Idem.response hit)))
        | None =>
            match less (Wallet.balance src) (numeric amount) with
            | None => thrown
            | Some true => insufficient (Wallet.balance src) (numeric amount)
            | Some false =>
            let srcBefore := Wallet.balance src in
            let dstBefore := Wallet.balance dst in
            match minus srcBefore (numeric amount) with
            | None => thrown
            | Some difference =>
            match plus dstBefore (numeric amount) with
            | None => thrown
            | Some sum =>
              let srcAfter := round2 difference in
              let dstAfter := round2 sum in
              us <- nowISO ;;
              db_write (with_wallets
                (assign_first (has_walletId sourceWalletId)
                   (set_balance srcAfter us))) ;;;
              ud <- nowISO ;;
              db_write (with_wallets
                (assign_first (has_walletId destinationWalletId)
                   (set_balance dstAfter ud))) ;;;
              di <- Date_now ;;
              dbase <- makeTxnBase ;;
              dn <- Date_now ;;
              dt <- nowISO ;;
              let debitTxn :=
                Txn.mk di (fst dbase) (snd dbase)
                  ("TXN-" ++ string_of_Z dn ++ "-D")
                  sourceWalletId DEBIT SUCCESS (numeric amount) srcBefore
                  srcAfter reference (Some (or_else description VNull)) dt in
              ci <- Date_now ;;
              cbase <- makeTxnBase ;;
              cn <- Date_now ;;
              ct <- nowISO ;;
              let creditTxn :=
                Txn.mk (ci + 1) (fst cbase) (snd cbase)
                  ("TXN-" ++ string_of_Z cn ++ "-C")
                  destinationWalletId CREDIT SUCCESS (numeric amount) dstBefore
                  dstAfter reference (Some (or_else description VNull)) ct in
              db_write (with_transactions (push debitTxn)) ;;;
              db_write (with_transactions (push creditTxn)) ;;;
              rn <- Date_now ;;
              rt <- nowISO ;;
              let response :=
                Transfer.mk ("TRF-" ++ string_of_Z rn) sourceWalletId
                  destinationWalletId (numeric amount) SUCCESS srcBefore
                  srcAfter dstBefore dstAfter reference
                  (or_else description VNull) rt in
              pushEvent "wallet.transfer.completed" (PTransfer response) ;;;
              match header_set idemKey with
              | Some k =>
                  i <- Date_now ;;
                  c <- nowISO ;;
                  db_write (with_idempotency (push (Idem.mk i k response c)))
              | None => ret tt
              end ;;;
              ret (json (BTransfer response))
            end
            end
            end
        end
    end.

(** ** The API-key gate and the routes *)

(** [key && db.get("apiKeys").find({ plain: key }).value()] *)
Definition valid_key (key : option string) (d : Db.t) : bool :=
  match header_set key with
  | Some k => existsb (String.eqb k) (Db.apiKeys d)
  | None => false
  end.

Definition handle (h : headers) (r : route) : M reply :=
  match r with
  | PostWallet b => post_wallet b
  | PutWallet walletId b => put_wallet walletId b
  | DeleteWallet walletId => delete_wallet walletId
  | PostCredit walletId b => credit walletId b
  | PostDebit walletId b => debit walletId b
  | PostTransfer b => transfer h b
  end.

Definition server (req : request) : M reply :=
  d <- db_get ;;
  if valid_key (x_service_api_key (head req)) d
  then handle (head req) (target req)
  else unauthorized.

(** Running a sequence of requests, oldest first. *)
Fixpoint run (reqs : list request) (w : world) : list reply * world :=
  match reqs with
  | [] => ([], w)
  | r :: rest =>
      let (a, w') := server r w in
      let (l, w'') := run rest w' in
      (a :: l, w'')
  end.

(** * Observations *)

Definition is_error (r : reply) : bool :=
  match content r with
  | BError _ _ _ _ => true
  | _ => false
  end.

(** The status and the error kind of an error response. *)
Definition error_of (r : reply) : option (Z * string) :=
  match content r with
  | BError _ status error _ => Some (status, error)
  | _ => None
  end.

Definition message_of (r : reply) : option string :=
  match content r with
  | BError _ _ _ message => Some message
  | _ => None
  end.

(** The numbers [x] with [x >= 0]. *)
Definition sign_ok (x : number) : bool :=
  match x with
  | S754_zero _ => true
  | S754_infinity s => negb s
  | S754_nan => false
  | S754_finite s _ _ => negb s
  end.

(** A value that is a number [>= 0]. *)
Definition nonneg (v : value) : bool :=
  match v with
  | VNum n => ge n zero
  | _ => false
  end.

(** [w.balance >= 0] for every wallet of the store. *)
Definition nonneg_balances (d : Db.t) : Prop :=
  Forall (fun w => nonneg (Wallet.balance w) = true) (Db.wallets d).

(** The balance of the wallet that [walletId] resolves to. *)
Definition balance_of (walletId : value) (d : Db.t) : option value :=
  option_map Wallet.balance (find (has_walletId walletId) (Db.wallets d)).

(** The keys of the idempotency cache, oldest first. *)
Definition cache_keys (d : Db.t) : list string :=
  map Idem.key (Db.idempotency d).

(** ** The checks of a transfer, in the words of the specification *)

(** Input validation: both identifiers and the reference present, the amount
    a positive finite number. *)
Definition fields_ok (b : TransferBody.t) : bool :=
  truthy (TransferBody.sourceWalletId b)
  && truthy (TransferBody.destinationWalletId b)
  && isPositiveNumber (TransferBody.amount b)
  && truthy (TransferBody.reference b).

Definition self_transfer (b : TransferBody.t) : bool :=
  strict_eq (TransferBody.sourceWalletId b) (TransferBody.destinationWalletId b).

Definition source_of (b : TransferBody.t) (d : Db.t) : option Wallet.t :=
  find (has_walletId (TransferBody.sourceWalletId b)) (Db.wallets d).

Definition destination_of (b : TransferBody.t) (d : Db.t) : option Wallet.t :=
  find (has_walletId (TransferBody.destinationWalletId b)) (Db.wallets d).







(** ** Rounding to two decimals, in the words of the specification *)



(** ** A sample store *)

Definition t0 : Z := 1766743200000.
Definition sample_clock (k : nat) : Z := t0 + Z.of_nat k.

Definition sample_bank : Bank.t :=
  Bank.mk (At 1) (VStr "BANK-001") (VStr "OND Bank") (VStr "XOF")
    (VStr "ACTIVE") (At t0) t0.

Definition sample_wallet (n : Z) (walletId phone : string) (balance : number)
  : Wallet.t :=
  Wallet.mk (At n) (VStr walletId) (VStr "BANK-001") (VStr "USER-001")
    (VStr "Mamadou Diallo") (VStr phone) (VNum balance) (VStr "ACTIVE")
    (At t0) t0.

Definition sample_world (ws : list Wallet.t) (cache : list Idem.t) : world :=
  World (Db.mk ["gateway"] [sample_bank] ws [] [] cache) sample_clock 0.

(** Wallet A with [a], wallet B with [b]. *)
Definition two_wallets (a b : number) : list Wallet.t :=
  [sample_wallet 1 "WALLET-001" "+221771234567" a;
   sample_wallet 2 "WALLET-002" "+221771234568" b].

Definition gateway (idemKey : option string) : headers :=
  Headers (Some "gateway") idemKey.

Definition op (amount : number) (reference : string) : Operation.t :=
  Operation.mk (VNum amount) (VStr reference).

Definition a_to_b (amount : number) (reference : string) : TransferBody.t :=
  TransferBody.mk (VStr "WALLET-001") (VStr "WALLET-002") (VNum amount)
    (VStr reference) VUndefined.

(** A result cached under the key ["K-1"]: 2000 moved from A (3500) to B
    (2000). *)
Definition sample_response : Transfer.t :=
  Transfer.mk "TRF-1766743100000" (VStr "WALLET-001") (VStr "WALLET-002")
    (of_Z 2000) SUCCESS (VNum (of_Z 3500)) (of_Z 1500) (VNum (of_Z 2000))
    (of_Z 4000) (VStr "TRF-001") VNull 1766743100000.

Definition sample_cache : list Idem.t :=
  [Idem.mk 1766743100000 "K-1" sample_response 1766743100000].

(** A PUT that writes the balance -5 over a wallet that holds 1500. *)
Definition put_negative : route :=
  PutWallet "WALLET-001"
    (WalletUpdate.mk (VStr "BANK-001") (VStr "USER-001")
       (VStr "Mamadou Diallo") (VStr "+221771234567") (VStr "ACTIVE")
       (VNum (opp (of_Z 5)))).







(** Wallet A with the balance ["5"], a string. *)
Definition world_with_string_balance : world :=
  sample_world
    [Wallet.mk (At 1) (VStr "WALLET-001") (VStr "BANK-001")
       (VStr "USER-001") (VStr "Mamadou Diallo") (VStr "+221771234567")
       (VStr "5") (VStr "ACTIVE") (At t0) t0;
     sample_wallet 2 "WALLET-002" "+221771234568" (of_Z 2000)] [].

(** The transfer of 2000 from A to B, sent under the key ["K-1"]. *)
Definition replay_headers : headers := gateway (Some "K-1").
Definition replay_body : TransferBody.t := a_to_b (of_Z 2000) "TRF-001".

(** The store after that transfer was cached and wallet A was then emptied
    and deleted. *)
Definition world_without_source : world :=
  sample_world [sample_wallet 2 "WALLET-002" "+221771234568" (of_Z 4000)]
    sample_cache.

(** The store after that transfer was cached and wallet A went down to 500. *)
Definition world_with_low_source : world :=
  sample_world (two_wallets (of_Z 500) (of_Z 4000)) sample_cache.

(** What one request does to the cache: nothing, or one record appended
    under the key of the request, a key that had no record. *)
Definition cache_step (key : option string) (before after : list Idem.t) : Prop :=
  after = before
  \/ exists e, after = push e before
               /\ header_set key = Some (Idem.key e)
               /\ find (has_key (Idem.key e)) before = None.


(** The same transfer sent twice under the key ["K-2"]. *)
Definition sent_twice : list request :=
  [Request (gateway (Some "K-2")) (PostTransfer (a_to_b (of_Z 2000) "TRF-002"));
   Request (gateway (Some "K-2")) (PostTransfer (a_to_b (of_Z 2000) "TRF-002"))].

(** One part in [2^53]: the relative error of one rounding. *)
Definition ulp : Q := 1 # 9007199254740992.

(** Half a hundredth, as [JSON.parse] reads [0.005]. *)
Definition half_cent : number := round_Q (5 # 1000).

(** ** The number model against the Standard Library's binary64 *)

Definition binary64_samples : list number :=
  [S754_zero false; S754_zero true; S754_infinity false; S754_infinity true;
   S754_nan; of_Z 1; of_Z 1500; of_Z 3000; opp (of_Z 5); cents 1; cents 7;
   cents 3510; round_Q (1 # 10); round_Q (2 # 10); round_Q (5 # 1000);
   round_Q (1005 # 1000); of_Z (2 ^ 53); of_Z (2 ^ 53 + 2); of_Z (10 ^ 21);
   S754_finite false 1 (-1074); S754_finite false 4503599627370496 (-1074);
   S754_finite false 9007199254740991 971;
   opp (S754_finite false 9007199254740991 971); round_Q (1 # 3);
   opp (round_Q (1 # 3))].

(** [+], [-], [<], [===] and [>=] against [SFadd], [SFsub], [SFltb], [SFeqb]
    and [SFleb] at 53 bits of precision. *)
Definition agree (x y : number) : bool :=
  same (add x y) (SFadd 53 1024 x y)
  && same (sub x y) (SFsub 53 1024 x y)
  && Bool.eqb (lt x y) (SFltb x y)
  && Bool.eqb (JsNumber.eq x y) (SFeqb x y)
  && Bool.eqb (ge x y) (SFleb y x).

(** ** Decimal text, in the words of the specification *)

(** A finite number written with exactly two fraction digits. *)
Definition two_decimals (x : number) : string :=
  match x with
  | S754_finite s _ _ =>
      (if s then "-" else "") ++ fixed_string (fixed_digits (Qabs (F2Q x)))
  | _ => "0.00"
  end.

(** [needle] occurs in [hay]. *)
Fixpoint contains (needle hay : string) : bool :=
  prefix needle hay
  || match hay with
     | EmptyString => false
     | String _ rest => contains needle rest
     end.

(** [10^21] and twice that. *)
Definition sextillion : number := of_Z (10 ^ 21).
Definition two_sextillion : number := of_Z (2 * 10 ^ 21).

(** * The rest of the API

    The bank CRUD handlers, the read endpoints, PATCH on a wallet and the
    public endpoints, over the same store.  A PATCH body is read on the
    fields of the record it patches: each is absent or carries a JSON value,
    whatever its type.  Keys that no record has are stored and echoed by the
    source, and read by no handler. *)

Definition with_banks (f : list Bank.t -> list Bank.t) (d : Db.t) : Db.t :=
  Db.mk (Db.apiKeys d) (f (Db.banks d)) (Db.wallets d) (Db.transactions d)
    (Db.events d) (Db.idempotency d).

Module BankCreate.
Record t : Type := mk { bankId : value; name : value; currency : value }.
End BankCreate.

Module BankUpdate.
Record t : Type := mk { name : value; currency : value; status : value }.
End BankUpdate.

Module BankPatch.
Record t : Type := mk {
  id : option value; name : option value; currency : option value;
  status : option value; createdAt : option value }.
End BankPatch.

Module WalletPatch.
Record t : Type := mk {
  id : option value; bankId : option value; ownerId : option value;
  ownerName : option value; phoneNumber : option value;
  balance : option value; status : option value; createdAt : option value }.
End WalletPatch.

(** [{...old, ...patch}] on one field *)
Definition patched {A : Type} (p : option A) (old : A) : A :=
  match p with
  | Some x => x
  | None => old
  end.

(** The same on a field that the server had set from the clock. *)
Definition restamped (p : option value) (old : stamp) : stamp :=
  match p with
  | Some v => Raw v
  | None => old
  end.

(** [patch.field && ...]: the field is present and truthy. *)
Definition given (p : option value) : bool :=
  match p with
  | Some v => truthy v
  | None => false
  end.

(** What [Array.prototype.includes] compares with: [===], and NaN with NaN;
    an array or an object only with itself. *)
Definition same_value_zero (a b : value) : bool :=
  match a, b with
  | VNum S754_nan, VNum S754_nan => true
  | _, _ => strict_eq a b
  end.

Definition in_bank (bankId : string) (w : Wallet.t) : bool :=
  strict_eq (Wallet.bankId w) (VStr bankId).

(** ** Responses of these endpoints *)

Inductive answer : Type :=
| Ledger (r : reply)
| BankJson (code : Z) (b : Bank.t)
| BanksJson (l : list Bank.t)
| WalletsJson (l : list Wallet.t)
| TxnsJson (l : list Txn.t)
| BalanceJson (walletId : value) (balance : value) (status : value)
    (phoneNumber ownerName : value) (updatedAt : Z)
| HealthJson
| InfoJson
| DefaultKeysJson.

Definition ledger (m : M reply) : M answer := r <- m ;; ret (Ledger r).

(** ** Bank CRUD *)

(** [server.post("/bank", ...)] *)
Definition post_bank (b : BankCreate.t) : M answer :=
  let bankId := BankCreate.bankId b in
  let name := BankCreate.name b in
  let currency := BankCreate.currency b in
  if negb (truthy bankId) || negb (truthy name) || negb (truthy currency)
  then ledger (badRequest "INVALID_REQUEST" "bankId, name, currency sont requis")
  else
    existing <- findBankByBankId bankId ;;
    match existing with
    | Some _ =>
        match to_string bankId with
        | None => ledger thrown
        | Some s =>
            ledger (conflict "BANK_ALREADY_EXISTS"
                      ("La banque " ++ s ++ " existe déjà"))
        end
    | None =>
        i <- Date_now ;;
        c <- nowISO ;;
        u <- nowISO ;;
        let bank :=
          Bank.mk (At i) bankId name currency (VStr "ACTIVE") (At c) u in
        db_write (with_banks (push bank)) ;;;
        ret (BankJson 201 bank)
    end.

(** [server.get("/bank", ...)] *)
Definition get_banks : M answer :=
  d <- db_get ;; ret (BanksJson (Db.banks d)).

(** [server.get("/bank/:bankId", ...)] *)
Definition get_bank (bankId : string) : M answer :=
  found <- findBankByBankId (VStr bankId) ;;
  match found with
  | None => ledger (notFound "BANK_NOT_FOUND" "Banque introuvable")
  | Some bank => ret (BankJson 200 bank)
  end.

(** [server.put("/bank/:bankId", ...)] *)
Definition put_bank (bankId : string) (b : BankUpdate.t) : M answer :=
  found <- findBankByBankId (VStr bankId) ;;
  match found with
  | None => ledger (notFound "BANK_NOT_FOUND" "Banque introuvable")
  | Some bank =>
      let name := BankUpdate.name b in
      let currency := BankUpdate.currency b in
      let status := BankUpdate.status b in
      if negb (truthy name) || negb (truthy currency)
      then ledger (badRequest "INVALID_REQUEST"
                     "name et currency sont requis (PUT)")
      else
        u <- nowISO ;;
        let updated :=
          Bank.mk (Bank.id bank) (Bank.bankId bank) name currency
            (or_else status (Bank.status bank)) (Bank.createdAt bank) u in
        db_write (with_banks
          (assign_first (has_bankId (VStr bankId)) (fun _ => updated))) ;;;
        ret (BankJson 200 updated)
  end.

(** [server.patch("/bank/:bankId", ...)] *)
Definition patch_bank (bankId : string) (p : BankPatch.t) : M answer :=
  found <- findBankByBankId (VStr bankId) ;;
  match found with
  | None => ledger (notFound "BANK_NOT_FOUND" "Banque introuvable")
  | Some bank =>
      u <- nowISO ;;
      let updated :=
        Bank.mk (restamped (BankPatch.id p) (Bank.id bank)) (VStr bankId)
          (patched (BankPatch.name p) (Bank.name bank))
          (patched (BankPatch.currency p) (Bank.currency bank))
          (patched (BankPatch.status p) (Bank.status bank))
          (restamped (BankPatch.createdAt p) (Bank.createdAt bank)) u in
      db_write (with_banks
        (assign_first (has_bankId (VStr bankId)) (fun _ => updated))) ;;;
      ret (BankJson 200 updated)
  end.

(** [server.delete("/bank/:bankId", ...)] *)
Definition delete_bank (bankId : string) : M answer :=
  found <- findBankByBankId (VStr bankId) ;;
  match found with
  | None => ledger (notFound "BANK_NOT_FOUND" "Banque introuvable")
  | Some _ =>
      d <- db_get ;;
      if existsb (in_bank bankId) (Db.wallets d)
      then ledger (conflict "BANK_HAS_WALLETS"
             "Impossible de supprimer: des wallets sont liés à cette banque")
      else
        db_write (with_banks (remove (has_bankId (VStr bankId)))) ;;;
        ret (Ledger (Reply 204 BEmpty))
  end.

(** ** Wallets: reads and PATCH *)

(** [server.get("/wallet", ...)] *)
Definition get_wallets : M answer :=
  d <- db_get ;; ret (WalletsJson (Db.wallets d)).

(** [server.get("/wallet/:walletId", ...)] *)
Definition get_wallet (walletId : string) : M answer :=
  found <- findWalletByWalletId (VStr walletId) ;;
  match found with
  | None => ledger (notFound "WALLET_NOT_FOUND" "Wallet introuvable")
  | Some wallet => ret (Ledger (json (BWallet wallet)))
  end.

(** [server.patch("/wallet/:walletId", ...)]; the two lookups are reads, made
    here before the [&&] that guards them in the source. *)
Definition patch_wallet (walletId : string) (p : WalletPatch.t) : M answer :=
  found <- findWalletByWalletId (VStr walletId) ;;
  match found with
  | None => ledger (notFound "WALLET_NOT_FOUND" "Wallet introuvable")
  | Some wallet =>
      bank <- findBankByBankId (patched (WalletPatch.bankId p) VUndefined) ;;
      if given (WalletPatch.bankId p)
         && match bank with Some _ => false | None => true end
      then match to_string (patched (WalletPatch.bankId p) VUndefined) with
           | None => ledger thrown
           | Some s =>
               ledger (notFound "BANK_NOT_FOUND"
                         ("Banque " ++ s ++ " introuvable"))
           end
      else
        phone <-
          walletExistsByPhone (patched (WalletPatch.phoneNumber p) VUndefined) ;;
        if given (WalletPatch.phoneNumber p)
           && negb (strict_eq (patched (WalletPatch.phoneNumber p) VUndefined)
                      (Wallet.phoneNumber wallet))
           && phone
        then match to_string
                     (patched (WalletPatch.phoneNumber p) VUndefined) with
             | None => ledger thrown
             | Some s =>
                 ledger (conflict "WALLET_PHONE_ALREADY_EXISTS"
                           ("Un wallet existe déjà pour " ++ s))
             end
        else
          u <- nowISO ;;
          let updated :=
            Wallet.mk (restamped (WalletPatch.id p) (Wallet.id wallet))
              (VStr walletId)
              (patched (WalletPatch.bankId p) (Wallet.bankId wallet))
              (patched (WalletPatch.ownerId p) (Wallet.ownerId wallet))
              (patched (WalletPatch.ownerName p) (Wallet.ownerName wallet))
              (patched (WalletPatch.phoneNumber p) (Wallet.phoneNumber wallet))
              (patched (WalletPatch.balance p) (Wallet.balance wallet))
              (patched (WalletPatch.status p) (Wallet.status wallet))
              (restamped (WalletPatch.createdAt p) (Wallet.createdAt wallet))
              u in
          db_write (with_wallets
            (assign_first (has_walletId (VStr walletId))
               (fun _ => updated))) ;;;
          ret (Ledger (json (BWallet updated)))
  end.

(** [server.get("/bank/:bankId/wallets", ...)] *)
Definition get_bank_wallets (bankId : string) : M answer :=
  found <- findBankByBankId (VStr bankId) ;;
  match found with
  | None => ledger (notFound "BANK_NOT_FOUND" "Banque introuvable")
  | Some _ =>
      d <- db_get ;; ret (WalletsJson (filter (in_bank bankId) (Db.wallets d)))
  end.

(** [server.get("/bank/:bankId/transactions", ...)] *)
Definition get_bank_transactions (bankId : string) : M answer :=
  found <- findBankByBankId (VStr bankId) ;;
  match found with
  | None => ledger (notFound "BANK_NOT_FOUND" "Banque introuvable")
  | Some _ =>
      d <- db_get ;;
      let walletIds :=
        map Wallet.walletId (filter (in_bank bankId) (Db.wallets d)) in
      ret (TxnsJson
             (filter
                (fun t => existsb (fun v => same_value_zero v (Txn.walletId t))
                            walletIds)
                (Db.transactions d)))
  end.

(** [server.get("/wallet/balance/:walletId", ...)]; a stored [updatedAt] is
    an ISO string, which is truthy. *)
Definition get_balance (walletId : string) : M answer :=
  found <- findWalletByWalletId (VStr walletId) ;;
  match found with
  | None => ledger (notFound "WALLET_NOT_FOUND" "Wallet inexistant")
  | Some wallet =>
      ret (BalanceJson (Wallet.walletId wallet) (Wallet.balance wallet)
             (Wallet.status wallet) (Wallet.phoneNumber wallet)
             (Wallet.ownerName wallet) (Wallet.updatedAt wallet))
  end.

(** ** All the routes that server.js defines, behind the API-key gate

    The router of json-server that is mounted last, [server.use(router)],
    serves raw CRUD on the collections from library code; it is not among
    these routes. *)

Inductive endpoint : Type :=
| Core (r : route)
| GetHealth
| GetInfo
| GetDefaultKeys
| PostBank (b : BankCreate.t)
| GetBanks
| GetBank (bankId : string)
| PutBank (bankId : string) (b : BankUpdate.t)
| PatchBank (bankId : string) (p : BankPatch.t)
| DeleteBank (bankId : string)
| GetWallets
| GetWallet (walletId : string)
| PatchWallet (walletId : string) (p : WalletPatch.t)
| GetBankWallets (bankId : string)
| GetBankTransactions (bankId : string)
| GetBalance (walletId : string).

(** [req.path.startsWith("/management") || req.path.startsWith("/api-key")] *)
Definition is_public (e : endpoint) : bool :=
  match e with
  | GetHealth | GetInfo | GetDefaultKeys => true
  | _ => false
  end.

Definition dispatch (h : headers) (e : endpoint) : M answer :=
  match e with
  | Core r => ledger (handle h r)
  | GetHealth => ret HealthJson
  | GetInfo => ret InfoJson
  | GetDefaultKeys => ret DefaultKeysJson
  | PostBank b => post_bank b
  | GetBanks => get_banks
  | GetBank bankId => get_bank bankId
  | PutBank bankId b => put_bank bankId b
  | PatchBank bankId p => patch_bank bankId p
  | DeleteBank bankId => delete_bank bankId
  | GetWallets => get_wallets
  | GetWallet walletId => get_wallet walletId
  | PatchWallet walletId p => patch_wallet walletId p
  | GetBankWallets bankId => get_bank_wallets bankId
  | GetBankTransactions bankId => get_bank_transactions bankId
  | GetBalance walletId => get_balance walletId
  end.

(** The middleware, then the route. *)
Definition api (h : headers) (e : endpoint) : M answer :=
  if is_public e then dispatch h e
  else
    d <- db_get ;;
    if valid_key (x_service_api_key h) d then dispatch h e
    else ledger unauthorized.

Fixpoint api_run (calls : list (headers * endpoint)) (w : world)
  : list answer * world :=
  match calls with
  | [] => ([], w)
  | (h, e) :: rest =>
      let (a, w') := api h e w in
      let (l, w'') := api_run rest w' in
      (a :: l, w'')
  end.

(** ** Invariants of the collections *)

(** No two elements of [l] have keys equal by [===]. *)
Definition distinct_by {A : Type} (key : A -> value) (l : list A) : Prop :=
  ForallOrdPairs (fun a b => strict_eq (key a) (key b) = false) l.

Definition unique_wallet_ids (d : Db.t) : Prop :=
  distinct_by Wallet.walletId (Db.wallets d).

Definition unique_phones (d : Db.t) : Prop :=
  distinct_by Wallet.phoneNumber (Db.wallets d).

Definition unique_bank_ids (d : Db.t) : Prop :=
  distinct_by Bank.bankId (Db.banks d).

(** Every wallet belongs to a bank of the store: [findBankByBankId] finds
    one for its [bankId]. *)
Definition has_bank (banks : list Bank.t) (w : Wallet.t) : bool :=
  existsb (has_bankId (Wallet.bankId w)) banks.

Definition wallets_have_banks (d : Db.t) : Prop :=
  Forall (fun w => has_bank (Db.banks d) w = true) (Db.wallets d).

(** A PATCH on a wallet that carries a field [f] carries a truthy one. *)
Definition patch_field_ok (f : WalletPatch.t -> option value) (e : endpoint)
  : bool :=
  match e with
  | PatchWallet _ p =>
      match f p with
      | Some v => truthy v
      | None => true
      end
  | _ => true
  end.

(** The identifiers a request names. *)
Definition named_wallets (r : route) : list value :=
  match r with
  | PostWallet b => [WalletCreate.walletId b]
  | PutWallet walletId _ | DeleteWallet walletId
  | PostCredit walletId _ | PostDebit walletId _ => [VStr walletId]
  | PostTransfer b =>
      [TransferBody.sourceWalletId b; TransferBody.destinationWalletId b]
  end.

(** A wallet that no identifier of the request resolves to, were it the
    first of the store. *)
Definition unnamed (r : route) (w : Wallet.t) : bool :=
  forallb (fun t => negb (has_walletId t w)) (named_wallets r).

Definition wallet_fields_ok (b : WalletCreate.t) : bool :=
  truthy (WalletCreate.walletId b) && truthy (WalletCreate.bankId b)
  && truthy (WalletCreate.ownerId b) && truthy (WalletCreate.ownerName b)
  && truthy (WalletCreate.phoneNumber b).

(** The [balanceAfter] that a credit or a debit answers. *)
Definition reported_balance (r : reply) : option number :=
  match content r with
  | BTxn _ _ _ _ _ _ after _ _ => Some after
  | _ => None
  end.

(** The balance that GET /wallet/balance/:walletId answers. *)
Definition read_balance (a : answer) : option value :=
  match a with
  | BalanceJson _ balance _ _ _ _ => Some balance
  | _ => None
  end.

(** [after] is [before] with records appended. *)
Definition extends {A : Type} (before after : list A) : Prop :=
  exists new, after = (before ++ new)%list.

(** A call that is not DELETE /wallet/:walletId. *)
Definition keeps_transactions (e : endpoint) : bool :=
  match e with
  | Core (DeleteWallet _) => false
  | _ => true
  end.

(** A transaction as credit, debit and transfer write it. *)
Definition txn_sound (t : Txn.t) : Prop :=
  isPositiveNumber (VNum (Txn.amount t)) = true
  /\ match Txn.type t with
     | CREDIT =>
         option_map round2 (plus (Txn.balanceBefore t) (Txn.amount t))
         = Some (Txn.balanceAfter t)
     | DEBIT =>
         less (Txn.balanceBefore t) (Txn.amount t) = Some false
         /\ option_map round2 (minus (Txn.balanceBefore t) (Txn.amount t))
            = Some (Txn.balanceAfter t)
     end.

(** The HTTP status of an answer. *)
Definition status_of (a : answer) : Z :=
  match a with
  | Ledger r => code r
  | BankJson c _ => c
  | _ => 200
  end.

(** A call that writes no balance other than a number [>= 0]: any call but
    a PUT of a wallet whose body holds a number that is not [>= 0], which
    PUT would store, and a PATCH of a wallet whose body holds a balance of
    any other kind than a number [>= 0], which PATCH would store. *)
Definition keeps_sign (e : endpoint) : bool :=
  match e with
  | Core (PutWallet _ b) =>
      match WalletUpdate.balance b with
      | VNum n => ge n zero
      | _ => true
      end
  | PatchWallet _ p =>
      match WalletPatch.balance p with
      | Some v => nonneg v
      | None => true
      end
  | _ => true
  end.

(** The status and the error code of a refusal. *)
Definition refusal (a : answer) : option (Z * string) :=
  match a with
  | Ledger r => error_of r
  | _ => None
  end.

(** The wallet an answer carries. *)
Definition wallet_of (a : answer) : option Wallet.t :=
  match a with
  | Ledger r =>
      match content r with
      | BWallet u => Some u
      | _ => None
      end
  | _ => None
  end.

(** The wallet a call writes as a whole. *)
Definition written_wallet (e : endpoint) : option value :=
  match e with
  | Core (PostWallet b) => Some (WalletCreate.walletId b)
  | Core (PutWallet walletId _) | PatchWallet walletId _ =>
      Some (VStr walletId)
  | _ => None
  end.

(** A GET route. *)
Definition is_read (e : endpoint) : bool :=
  match e with
  | GetHealth | GetInfo | GetDefaultKeys | GetBanks | GetBank _ | GetWallets
  | GetWallet _ | GetBankWallets _ | GetBankTransactions _ | GetBalance _ =>
      true
  | _ => false
  end.

(** The bank an answer carries. *)
Definition bank_of (a : answer) : option Bank.t :=
  match a with
  | BankJson _ b => Some b
  | _ => None
  end.

(** The bank a call writes as a whole. *)
Definition written_bank (e : endpoint) : option value :=
  match e with
  | PostBank b => Some (BankCreate.bankId b)
  | PutBank bankId _ | PatchBank bankId _ => Some (VStr bankId)
  | _ => None
  end.

(** The body that a credit or a debit answers for the transaction it logs. *)
Definition txn_body (t : Txn.t) : body :=
  BTxn (Txn.transactionId t) (Txn.walletId t) (Txn.type t) (Txn.status t)
    (Txn.amount t) (Txn.balanceBefore t) (Txn.balanceAfter t)
    (Txn.reference t) (Txn.timestamp t).

(** ** A session over the whole API *)

Definition bank_two : BankCreate.t :=
  BankCreate.mk (VStr "BANK-002") (VStr "Banque Atlantique") (VStr "XOF").

(** A bank under the number 5. *)
Definition bank_five : BankCreate.t :=
  BankCreate.mk (VNum (of_Z 5)) (VStr "Banque Cinq") (VStr "XOF").

Definition wallet_three : WalletCreate.t :=
  WalletCreate.mk (VStr "WALLET-003") (VStr "BANK-001") (VStr "USER-003")
    (VStr "Awa Ndiaye") (VStr "+221771234569").

(** A wallet under the number 7. *)
Definition wallet_seven : WalletCreate.t :=
  WalletCreate.mk (VNum (of_Z 7)) (VStr "BANK-001") (VStr "USER-007")
    (VStr "Fatou Sow") (VStr "+221771234577").

(** A PATCH that moves a wallet to the bank BANK-002. *)
Definition to_bank_two : WalletPatch.t :=
  WalletPatch.mk None (Some (VStr "BANK-002")) None None None None None None.

(** A PATCH that changes the phone number. *)
Definition new_phone : WalletPatch.t :=
  WalletPatch.mk None None None None (Some (VStr "+221771234570")) None None
    None.

(** Wallets A (3500) and B (2000) under the bank BANK-001. *)
Definition opening : world :=
  sample_world (two_wallets (of_Z 3500) (of_Z 2000)) [].

(** The same wallets with 3500.00 and 2000.00 as hundredths. *)
Definition opening_cents : world :=
  sample_world (two_wallets (cents 350000) (cents 200000)) [].

Definition session : list (headers * endpoint) :=
  [(gateway None, PostBank bank_two);
   (gateway None, Core (PostWallet wallet_three));
   (gateway None, PatchWallet "WALLET-003" to_bank_two);
   (gateway None, PatchWallet "WALLET-003" new_phone);
   (gateway None, Core (PostCredit "WALLET-003" (op (of_Z 3000) "CREDIT-001")));
   (gateway (Some "K-2"), Core (PostTransfer (a_to_b (of_Z 2000) "TRF-002")));
   (Headers None None, GetWallets);
   (gateway None, GetBalance "WALLET-003");
   (gateway None, GetBankTransactions "BANK-002");
   (gateway None, Core (PostDebit "WALLET-003" (op (of_Z 3000) "DEBIT-001")));
   (gateway None, Core (DeleteWallet "WALLET-003"));
   (gateway None, DeleteBank "BANK-002")].

(** The session without its DELETE /wallet/:walletId. *)
Definition session_without_delete : list (headers * endpoint) :=
  firstn 10 session.

(** A PUT that renames a bank and leaves its status as it is. *)
Definition renamed_bank : BankUpdate.t :=
  BankUpdate.mk (VStr "OND Banque") (VStr "XOF") VUndefined.

(** PATCH bodies that carry a balance: the number -5, and the string ["-5"]. *)
Definition patch_negative : WalletPatch.t :=
  WalletPatch.mk None None None None None (Some (VNum (opp (of_Z 5)))) None
    None.

Definition patch_string : WalletPatch.t :=
  WalletPatch.mk None None None None None (Some (VStr "-5")) None None.

(** A session with a PUT and a PATCH that write the balance 12.50. *)
Definition session_with_updates : list (headers * endpoint) :=
  [(gateway None,
    Core (PutWallet "WALLET-001"
            (WalletUpdate.mk (VStr "BANK-001") (VStr "USER-001")
               (VStr "Mamadou Diallo") (VStr "+221771234567") (VStr "ACTIVE")
               (VNum (cents 1250)))));
   (gateway None,
    PatchWallet "WALLET-002"
      (WalletPatch.mk None None None None None (Some (VNum (cents 1250)))
         None None));
   (gateway None, Core (PostDebit "WALLET-001" (op (cents 1250) "DEBIT-002")));
   (gateway None, Core (PostTransfer (a_to_b (of_Z 1) "TRF-004")));
   (gateway None, Core (DeleteWallet "WALLET-001"))].


(** * Properties of the ledger *)

(** ** Numbers *)

(** The operations of [JsNumber] give the results of the Standard Library's
    IEEE 754 operations on every pair of the samples, and a decimal literal
    is the correctly rounded quotient by 100. *)
Lemma number_model_agrees :
  forallb (fun x => forallb (agree x) binary64_samples) binary64_samples = true
  /\ forallb (valid_binary 53 1024) binary64_samples = true
  /\ forallb
       (fun n => same (cents (Z.pos n))
                   (SFdiv 53 1024 (S754_finite false n 0)
                      (S754_finite false 100 0)))
       [1; 7; 3510; 150000; 123456789; 1125899906842624]%positive = true.
Proof. repeat apply conj; vm_compute; reflexivity. Qed.

Example toFixed2_samples :
  map toFixed2
    [of_Z 500; round_Q (5 # 1000); round_Q (1005 # 1000);
     opp (round_Q (1 # 1000)); round_Q (123456789 # 1000); of_Z (10 ^ 21);
     of_Z (2 ^ 70); S754_nan]
  = ["500.00"; "0.01"; "1.00"; "-0.00"; "123456.79"; "1e+21";
     "1.1805916207174113e+21"; "NaN"].
Proof. vm_compute. reflexivity. Qed.

(** [round2 x] is what [Number] reads in the text of [x.toFixed(2)]. *)
Example round2_reads_toFixed2 :
  forallb (fun x => same (round2 x) (Number_of_string (toFixed2 x)))
    (binary64_samples ++
     [round_Q (123456789 # 1000); opp (round_Q (1 # 1000));
      add (round_Q (1 # 10)) (round_Q (2 # 10)); of_Z (2 ^ 70);
      S754_finite false 9007199254740991 17])%list = true.
Proof. vm_compute. reflexivity. Qed.

Example toString_samples :
  map toString
    [round_Q (1 # 10); of_Z 5; round_Q (1 # 10000000); round_Q (123456 # 1000);
     S754_finite false 1 (-1074); add (round_Q (1 # 10)) (round_Q (2 # 10));
     S754_finite false 9007199254740991 971]
  = ["0.1"; "5"; "1e-7"; "123.456"; "5e-324"; "0.30000000000000004";
     "1.7976931348623157e+308"].
Proof. vm_compute. reflexivity. Qed.

Lemma pow2_pos (e : Z) : (0 < pow2 e)%Q.
Proof. apply Qpower_0_lt. reflexivity. Qed.

Lemma F2Q_pos (m : positive) (e : Z) : (0 < F2Q (S754_finite false m e))%Q.
Proof.
  unfold F2Q. apply Qmult_lt_0_compat; [reflexivity | apply pow2_pos].
Qed.

Lemma F2Q_neg (m : positive) (e : Z) : (F2Q (S754_finite true m e) < 0)%Q.
Proof.
  unfold F2Q.
  setoid_replace (inject_Z (Z.neg m) * pow2 e)%Q
    with (- (inject_Z (Z.pos m) * pow2 e))%Q.
  - generalize (F2Q_pos m e). unfold F2Q. lra.
  - change (inject_Z (Z.neg m)) with (- inject_Z (Z.pos m))%Q. ring.
Qed.

Lemma ge_zero_sign (x : number) : ge x zero = sign_ok x.
Proof.
  destruct x as [s | s | | s m e]; simpl; try reflexivity.
  destruct s; cbn [negb].
  - generalize (F2Q_neg m e). rewrite Qlt_alt. unfold F2Q.
    intros ->. reflexivity.
  - generalize (F2Q_pos m e). rewrite Qgt_alt. unfold F2Q.
    intros ->. reflexivity.
Qed.

Lemma round_pos_sign (s : bool) (q : Q) :
  round_pos s q = S754_zero s \/ round_pos s q = S754_infinity s \/
  exists m e, round_pos s q = S754_finite s m e.
Proof.
  unfold round_pos.
  destruct (rne (q / pow2 (Z.max (Qlog2 q - 52) (-1074))) =? 2 ^ 53).
  - cbv iota beta. destruct (2 ^ 52) as [ | p | p]; auto.
    destruct (_ >? _); eauto.
  - cbv iota beta. destruct (rne _) as [ | p | p]; auto.
    destruct (_ >? _); eauto.
Qed.

Lemma round_pos_nonneg (q : Q) : sign_ok (round_pos false q) = true.
Proof.
  destruct (round_pos_sign false q) as [-> | [-> | (m & e & ->)]]; reflexivity.
Qed.

Lemma round_Q_nonneg (q : Q) : (0 <= q)%Q -> sign_ok (round_Q q) = true.
Proof.
  intros Hq. unfold round_Q. destruct q as [n d]. simpl.
  destruct n as [ | p | p].
  - reflexivity.
  - apply round_pos_nonneg.
  - exfalso. unfold Qle in Hq. simpl in Hq. lia.
Qed.

(** What passes [isPositiveNumber] is a finite number above zero. *)
Lemma positive_number (v : value) :
  isPositiveNumber v = true ->
  exists m e, v = VNum (S754_finite false m e).
Proof.
  destruct v as [ | | b | x | s | l | l]; simpl; try discriminate.
  destruct x as [s | s | | s m e]; simpl; try discriminate.
  destruct s.
  - generalize (F2Q_neg m e). unfold F2Q. intros H.
    destruct (0 ?= _)%Q eqn:E; try discriminate.
    rewrite <- Qlt_alt in E. lra.
  - eauto.
Qed.

Lemma add_nonneg (b : number) (m : positive) (e : Z) :
  sign_ok b = true -> sign_ok (add b (S754_finite false m e)) = true.
Proof.
  destruct b as [s | s | | s n f]; simpl; try discriminate.
  - intros _. apply round_Q_nonneg.
    generalize (F2Q_pos m e). unfold F2Q. lra.
  - trivial.
  - destruct s; try discriminate. intros _. apply round_Q_nonneg.
    generalize (F2Q_pos m e) (F2Q_pos n f). unfold F2Q. lra.
Qed.

Lemma sub_nonneg (b : number) (m : positive) (e : Z) :
  sign_ok b = true -> lt b (S754_finite false m e) = false ->
  sign_ok (sub b (S754_finite false m e)) = true.
Proof.
  unfold sub.
  destruct b as [s | s | | s n f]; simpl; try discriminate.
  - intros _. generalize (F2Q_pos m e). rewrite Qlt_alt. unfold F2Q.
    intros ->. discriminate.
  - trivial.
  - destruct s; try discriminate. intros _ H. apply round_Q_nonneg.
    destruct (_ ?= _)%Q eqn:E in H; try discriminate.
    + apply Qeq_alt in E. unfold negb.
      change (inject_Z (Z.neg m)) with (- inject_Z (Z.pos m))%Q. lra.
    + apply Qgt_alt in E. unfold negb.
      change (inject_Z (Z.neg m)) with (- inject_Z (Z.pos m))%Q. lra.
Qed.

Lemma round2_nonneg (x : number) : sign_ok x = true -> sign_ok (round2 x) = true.
Proof.
  destruct x as [s | s | | s m e]; simpl; trivial.
  destruct s; try discriminate. intros _.
  destruct (Qle_bool _ _); [reflexivity | ].
  destruct (fixed_digits _); try reflexivity; apply round_pos_nonneg.
Qed.

Lemma eq_not_lt (x y : number) : JsNumber.eq x y = true -> lt x y = false.
Proof.
  destruct x as [s | s | | s m e], y as [t | t | | t n f]; simpl;
    try discriminate; try reflexivity;
    try (intros H; apply Qeq_bool_iff in H; apply Qeq_alt in H;
         unfold F2Q in H; rewrite H; reflexivity).
  destruct s, t; simpl; try discriminate; reflexivity.
Qed.

(** ** Failures come before every write *)

Ltac run_monad :=
  cbv beta iota zeta delta
    [bind ret Date_now nowISO makeTxnBase db_get db_write fail badRequest
     notFound conflict unauthorized thrown insufficient findWalletByWalletId
     findBankByBankId walletExistsByPhone pushEvent json fst snd store clock
     ticks is_error error_of message_of content code].

Ltac split_if :=
  match goal with
  | |- context [if ?c then _ else _] => destruct c eqn:?
  | |- context [match ?c with Some _ => _ | None => _ end] =>
      destruct c eqn:?
  end.

Ltac by_cases := repeat (split_if; run_monad); try reflexivity; try discriminate.

Lemma post_wallet_error (b : WalletCreate.t) (w : world) :
  is_error (fst (post_wallet b w)) = true ->
  store (snd (post_wallet b w)) = store w.
Proof. unfold post_wallet. run_monad. by_cases. Qed.

Lemma put_wallet_error (walletId : string) (b : WalletUpdate.t) (w : world) :
  is_error (fst (put_wallet walletId b w)) = true ->
  store (snd (put_wallet walletId b w)) = store w.
Proof. unfold put_wallet. run_monad. by_cases. Qed.

Lemma delete_wallet_error (walletId : string) (w : world) :
  is_error (fst (delete_wallet walletId w)) = true ->
  store (snd (delete_wallet walletId w)) = store w.
Proof. unfold delete_wallet. run_monad. by_cases. Qed.

Lemma credit_error (walletId : string) (b : Operation.t) (w : world) :
  is_error (fst (credit walletId b w)) = true ->
  store (snd (credit walletId b w)) = store w.
Proof. unfold credit. run_monad. by_cases. Qed.

Lemma debit_error (walletId : string) (b : Operation.t) (w : world) :
  is_error (fst (debit walletId b w)) = true ->
  store (snd (debit walletId b w)) = store w.
Proof. unfold debit. run_monad. by_cases. Qed.

Lemma transfer_error (h : headers) (b : TransferBody.t) (w : world) :
  is_error (fst (transfer h b w)) = true ->
  store (snd (transfer h b w)) = store w.
Proof. unfold transfer. run_monad. by_cases. Qed.

Lemma server_unfold (req : request) (w : world) :
  server req w =
  if valid_key (x_service_api_key (head req)) (store w)
  then handle (head req) (target req) w
  else unauthorized w.
Proof.
  unfold server. run_monad.
  destruct (valid_key _ _); reflexivity.
Qed.

(** C1: a credit, debit or transfer request (any request, in fact) that is
    answered by an error has written nothing: the store after it is the store
    before it, so every balance is unchanged and the transaction log has no
    new record. *)
Theorem failed_request_writes_nothing (req : request) (w : world) :
  is_error (fst (server req w)) = true ->
  store (snd (server req w)) = store w
  /\ (forall walletId,
        balance_of walletId (store (snd (server req w))) =
        balance_of walletId (store w))
  /\ Db.transactions (store (snd (server req w))) = Db.transactions (store w).
Proof.
  intros H.
  assert (E : store (snd (server req w)) = store w).
  { rewrite server_unfold in *.
    destruct (valid_key _ _); [ | reflexivity].
    destruct req as [h r]. cbn [head target] in *.
    destruct r; cbn [handle] in *;
      auto using post_wallet_error, put_wallet_error, delete_wallet_error,
        credit_error, debit_error, transfer_error. }
  rewrite E. auto.
Qed.

(** Debit 1000 from a wallet that holds 500. *)
Lemma failed_request_writes_nothing_witness :
  let w := sample_world (two_wallets (of_Z 500) zero) [] in
  let req := Request (gateway None)
               (PostDebit "WALLET-001" (op (of_Z 1000) "DEBIT-001")) in
  error_of (fst (server req w)) = Some (400, "INSUFFICIENT_FUNDS")
  /\ store (snd (server req w)) = store w.
Proof.
  split; [vm_compute; reflexivity | ].
  apply failed_request_writes_nothing. vm_compute. reflexivity.
Defined.

(** ** Lists under the lodash chains *)

Section Chains.

Context {A : Type}.
Variables (P : A -> Prop) (p : A -> bool) (f : A -> A).

Lemma Forall_assign_first (l : list A) :
  (forall a, In a l -> p a = true -> P (f a)) ->
  Forall P l -> Forall P (assign_first p f l).
Proof.
  induction l as [ | a l IH]; intros Hf Hl; simpl; [constructor | ].
  inversion Hl; subst.
  destruct (p a) eqn:E; constructor; auto.
  - apply Hf; simpl; auto.
  - apply IH; auto. intros b Hb. apply Hf. simpl. auto.
Qed.

Lemma Forall_push (x : A) (l : list A) :
  P x -> Forall P l -> Forall P (push x l).
Proof.
  intros Hx Hl. unfold push. apply Forall_app. split; auto.
Qed.

Lemma Forall_remove (l : list A) : Forall P l -> Forall P (remove p l).
Proof.
  intros Hl. unfold remove. rewrite Forall_forall in *.
  intros a Ha. apply filter_In in Ha. apply Hl, Ha.
Qed.

(** The first match, after the first match has been updated. *)
Lemma find_assign_first_same (l : list A) :
  (forall a, p a = true -> p (f a) = true) ->
  find p (assign_first p f l) = option_map f (find p l).
Proof.
  intros Hf. induction l as [ | a l IH]; simpl; [reflexivity | ].
  destruct (p a) eqn:E; simpl.
  - rewrite (Hf a E). reflexivity.
  - rewrite E. exact IH.
Qed.

(** The first match of [q], after the first match of a test [p] that
    excludes [q] has been updated. *)
Lemma find_assign_first_other (q : A -> bool) (l : list A) :
  (forall a, p a = true -> q a = false /\ q (f a) = false) ->
  find q (assign_first p f l) = find q l.
Proof.
  intros Hf. induction l as [ | a l IH]; simpl; [reflexivity | ].
  destruct (p a) eqn:E; simpl.
  - destruct (Hf a E) as [-> ->]. reflexivity.
  - destruct (q a); [reflexivity | exact IH].
Qed.

Lemma find_push_found (x : A) (l : list A) (a : A) :
  find p l = Some a -> find p (push x l) = Some a.
Proof.
  unfold push. induction l as [ | b l IH]; simpl; [discriminate | ].
  destruct (p b); auto.
Qed.

End Chains.

Lemma find_has_key_none (k : string) (l : list Idem.t) :
  find (has_key k) l = None -> ~ In k (map Idem.key l).
Proof.
  induction l as [ | e l IH]; simpl; [tauto | ].
  unfold has_key at 1. destruct (String.eqb_spec (Idem.key e) k).
  - discriminate.
  - intros H [E | E]; [congruence | exact (IH H E)].
Qed.

(** ** The store after each handler *)

Lemma wallets_with_wallets f d : Db.wallets (with_wallets f d) = f (Db.wallets d).
Proof. reflexivity. Qed.
Lemma wallets_with_transactions f d :
  Db.wallets (with_transactions f d) = Db.wallets d.
Proof. reflexivity. Qed.
Lemma wallets_with_events f d : Db.wallets (with_events f d) = Db.wallets d.
Proof. reflexivity. Qed.
Lemma wallets_with_idempotency f d :
  Db.wallets (with_idempotency f d) = Db.wallets d.
Proof. reflexivity. Qed.
Lemma idempotency_with_wallets f d :
  Db.idempotency (with_wallets f d) = Db.idempotency d.
Proof. reflexivity. Qed.
Lemma idempotency_with_transactions f d :
  Db.idempotency (with_transactions f d) = Db.idempotency d.
Proof. reflexivity. Qed.
Lemma idempotency_with_events f d :
  Db.idempotency (with_events f d) = Db.idempotency d.
Proof. reflexivity. Qed.
Lemma idempotency_with_idempotency f d :
  Db.idempotency (with_idempotency f d) = f (Db.idempotency d).
Proof. reflexivity. Qed.
Lemma transactions_with_wallets f d :
  Db.transactions (with_wallets f d) = Db.transactions d.
Proof. reflexivity. Qed.
Lemma transactions_with_transactions f d :
  Db.transactions (with_transactions f d) = f (Db.transactions d).
Proof. reflexivity. Qed.
Lemma transactions_with_events f d :
  Db.transactions (with_events f d) = Db.transactions d.
Proof. reflexivity. Qed.
Lemma transactions_with_idempotency f d :
  Db.transactions (with_idempotency f d) = Db.transactions d.
Proof. reflexivity. Qed.

Create Rewrite HintDb store.
#[local] Hint Rewrite wallets_with_wallets wallets_with_transactions
  wallets_with_events wallets_with_idempotency idempotency_with_wallets
  idempotency_with_transactions idempotency_with_events
  idempotency_with_idempotency transactions_with_wallets
  transactions_with_transactions transactions_with_events
  transactions_with_idempotency : store.

(** ** Balances stay at or above zero *)

Lemma nonneg_number (v : value) :
  nonneg v = true -> exists n, v = VNum n /\ sign_ok n = true.
Proof.
  destruct v as [ | | b | x | s | l | l]; simpl; try discriminate.
  intros H. exists x. rewrite <- ge_zero_sign. auto.
Qed.

Lemma nonneg_set_balance (after : number) (u : Z) (w : Wallet.t) :
  sign_ok after = true ->
  nonneg (Wallet.balance (set_balance after u w)) = true.
Proof. intros H. simpl. rewrite ge_zero_sign. exact H. Qed.

Lemma found_nonneg (d : Db.t) (v : value) (w : Wallet.t) :
  nonneg_balances d -> find (has_walletId v) (Db.wallets d) = Some w ->
  exists n, Wallet.balance w = VNum n /\ sign_ok n = true.
Proof.
  intros Hd Hf. apply find_some in Hf. destruct Hf as [Hin _].
  unfold nonneg_balances in Hd. rewrite Forall_forall in Hd.
  apply nonneg_number. auto.
Qed.

Lemma post_wallet_nonneg (b : WalletCreate.t) (w : world) :
  nonneg_balances (store w) -> nonneg_balances (store (snd (post_wallet b w))).
Proof.
  intros H. unfold post_wallet. run_monad. by_cases; try assumption.
  unfold nonneg_balances. autorewrite with store.
  apply Forall_push; [reflexivity | exact H].
Qed.

Lemma delete_wallet_nonneg (walletId : string) (w : world) :
  nonneg_balances (store w) ->
  nonneg_balances (store (snd (delete_wallet walletId w))).
Proof.
  intros H. unfold delete_wallet. run_monad. by_cases; try assumption.
  unfold nonneg_balances. autorewrite with store.
  apply Forall_remove. exact H.
Qed.

Lemma put_wallet_nonneg (walletId : string) (b : WalletUpdate.t) (w : world) :
  match WalletUpdate.balance b with VNum n => ge n zero | _ => true end = true ->
  nonneg_balances (store w) ->
  nonneg_balances (store (snd (put_wallet walletId b w))).
Proof.
  intros Hb H. unfold put_wallet. run_monad. by_cases; try assumption.
  all: unfold nonneg_balances; autorewrite with store.
  all: apply Forall_assign_first; [ | exact H].
  all: intros a _ _; cbn [Wallet.balance].
  - destruct (WalletUpdate.balance b); try discriminate. exact Hb.
  - match goal with
    | E : find _ _ = Some ?t |- _ =>
        destruct (found_nonneg _ _ _ H E) as (n & -> & Hn)
    end.
    simpl. rewrite ge_zero_sign. exact Hn.
Qed.

Ltac amount_is_finite :=
  match goal with
  | E : negb (isPositiveNumber ?v) = false |- _ =>
      apply negb_false_iff, positive_number in E;
        let m := fresh "m" in let e := fresh "e" in let Ea := fresh "Ea" in
        destruct E as (m & e & Ea); rewrite Ea in *; cbn [numeric] in *
  end.

Ltac balance_is_nonneg H :=
  repeat match goal with
    | E : find (has_walletId _) _ = Some ?t |- _ =>
        let n := fresh "n" in let En := fresh "En" in let Hn := fresh "Hn" in
        destruct (found_nonneg _ _ _ H E) as (n & En & Hn); clear E;
          rewrite En in *
    end;
  cbn [plus minus less to_number option_map] in *;
  repeat match goal with
    | E : Some _ = Some _ |- _ => injection E as E; subst
    end.

Lemma credit_nonneg (walletId : string) (b : Operation.t) (w : world) :
  nonneg_balances (store w) ->
  nonneg_balances (store (snd (credit walletId b w))).
Proof.
  intros H. unfold credit. run_monad. by_cases; try assumption.
  unfold nonneg_balances. autorewrite with store.
  apply Forall_assign_first; [ | exact H].
  intros a _ _. apply nonneg_set_balance.
  amount_is_finite. balance_is_nonneg H.
  apply round2_nonneg, add_nonneg. assumption.
Qed.

Lemma debit_nonneg (walletId : string) (b : Operation.t) (w : world) :
  nonneg_balances (store w) ->
  nonneg_balances (store (snd (debit walletId b w))).
Proof.
  intros H. unfold debit. run_monad. by_cases; try assumption.
  unfold nonneg_balances. autorewrite with store.
  apply Forall_assign_first; [ | exact H].
  intros a _ _. apply nonneg_set_balance.
  amount_is_finite. balance_is_nonneg H.
  apply round2_nonneg, sub_nonneg; assumption.
Qed.

Lemma transfer_nonneg (h : headers) (b : TransferBody.t) (w : world) :
  nonneg_balances (store w) ->
  nonneg_balances (store (snd (transfer h b w))).
Proof.
  intros H. unfold transfer. run_monad. by_cases; try assumption.
  all: unfold nonneg_balances; autorewrite with store.
  all: repeat match goal with
         | E : _ || _ = false |- _ => apply orb_false_iff in E; destruct E
         end.
  all: amount_is_finite.
  all: pose proof H as H'; unfold nonneg_balances in H'.
  all: balance_is_nonneg H.
  all: apply Forall_assign_first;
         [ intros ? _ _; apply nonneg_set_balance, round2_nonneg, add_nonneg;
           assumption | ].
  all: apply Forall_assign_first; [ | exact H'].
  all: intros ? _ _; apply nonneg_set_balance, round2_nonneg, sub_nonneg;
         assumption.
Qed.

(** ** The branches of a transfer *)

Ltac transfer_branch :=
  match goal with w : world |- _ => destruct w as [d c n] end;
  unfold transfer, fields_ok, self_transfer, source_of, destination_of in *;
  cbv beta iota delta [store] in *;
  repeat first
    [ progress run_monad
    | match goal with
      | H : find _ _ = _ |- _ => rewrite H; clear H
      | H : strict_eq _ _ = _ |- _ => rewrite H; clear H
      | H : cached _ _ = _ |- _ => rewrite H; clear H
      | H : less _ _ = _ |- _ => rewrite H; clear H
      | H : to_string _ = _ |- _ => rewrite H; clear H
      | |- context [truthy ?v] => destruct (truthy v); try discriminate
      | |- context [isPositiveNumber ?v] =>
          destruct (isPositiveNumber v); try discriminate
      | H : ?c <> None |- context [?c] => destruct c; try congruence
      end
    | progress cbn [negb orb andb] in * ];
  try discriminate; try congruence; try reflexivity.





Lemma transfer_hit (h : headers) (b : TransferBody.t) (w : world) (hit : Idem.t) :
  fields_ok b = true -> self_transfer b = false ->
  source_of b (store w) <> None -> destination_of b (store w) <> None ->
  cached (x_idempotency_key h) (store w) = Some hit ->
  transfer h b w = (json (BTransfer (Idem.response hit)), w).
Proof. intros H1 H2 H3 H4 H5. transfer_branch. Qed.


(** ** Replay of a cached transfer *)

(** C3, as the code has it: a transfer request that carries an idempotency
    key with a cached result, and that passes input validation, the
    self-transfer check and the resolution of both wallets, is answered by
    the cached result as it was stored, whatever the balances are now, and
    writes nothing: the store, hence every balance, the transaction log and
    the cache, is unchanged. *)
Theorem cached_transfer_is_replayed
  (h : headers) (b : TransferBody.t) (w : world) (hit : Idem.t) :
  cached (x_idempotency_key h) (store w) = Some hit ->
  fields_ok b = true -> self_transfer b = false ->
  source_of b (store w) <> None -> destination_of b (store w) <> None ->
  fst (transfer h b w) = json (BTransfer (Idem.response hit))
  /\ store (snd (transfer h b w)) = store w.
Proof.
  intros Hc Hf Hs Hsrc Hdst.
  rewrite (transfer_hit h b w hit); auto.
Qed.

(** The replay is served although the source now holds 500 only. *)
Lemma cached_transfer_is_replayed_witness :
  fst (transfer replay_headers replay_body world_with_low_source)
  = json (BTransfer sample_response)
  /\ store (snd (transfer replay_headers replay_body world_with_low_source))
     = store world_with_low_source.
Proof.
  apply (cached_transfer_is_replayed replay_headers replay_body
           world_with_low_source
           (Idem.mk 1766743100000 "K-1" sample_response 1766743100000)).
  - reflexivity.
  - reflexivity.
  - reflexivity.
  - vm_compute. discriminate.
  - vm_compute. discriminate.
Defined.

(** C3 as stated fails: the key ["K-1"] has a cached result, yet the request
    is answered by WALLET_NOT_FOUND once its source wallet is gone. *)
Lemma cached_transfer_not_replayed :
  cached (x_idempotency_key replay_headers) (store world_without_source)
  = Some (Idem.mk 1766743100000 "K-1" sample_response 1766743100000)
  /\ error_of (fst (transfer replay_headers replay_body world_without_source))
     = Some (404, "WALLET_NOT_FOUND")
  /\ fst (transfer replay_headers replay_body world_without_source)
     <> json (BTransfer sample_response).
Proof.
  split; [reflexivity | ]. split; [vm_compute; reflexivity | ].
  vm_compute. discriminate.
Qed.




(** ** The error of a transfer *)





(** ** The idempotency cache *)

Ltac cache_same := left; autorewrite with store; reflexivity.

Lemma transfer_cache (h : headers) (b : TransferBody.t) (w : world) :
  cache_step (x_idempotency_key h) (Db.idempotency (store w))
    (Db.idempotency (store (snd (transfer h b w)))).
Proof.
  destruct w as [d c n]. unfold transfer. run_monad. unfold cached.
  by_cases; try (left; reflexivity).
  right. eexists. autorewrite with store.
  split; [reflexivity | ]. cbn [Idem.key]. split; assumption.
Qed.

Lemma handle_cache (h : headers) (r : route) (w : world) :
  cache_step (x_idempotency_key h) (Db.idempotency (store w))
    (Db.idempotency (store (snd (handle h r w)))).
Proof.
  destruct r; cbn [handle]; try apply transfer_cache.
  - unfold post_wallet. run_monad. by_cases; cache_same.
  - unfold put_wallet. run_monad. by_cases; cache_same.
  - unfold delete_wallet. run_monad. by_cases; cache_same.
  - unfold credit. run_monad. by_cases; cache_same.
  - unfold debit. run_monad. by_cases; cache_same.
Qed.

Lemma server_cache (req : request) (w : world) :
  cache_step (x_idempotency_key (head req)) (Db.idempotency (store w))
    (Db.idempotency (store (snd (server req w)))).
Proof.
  rewrite server_unfold. destruct (valid_key _ _).
  - apply handle_cache.
  - left. reflexivity.
Qed.

Lemma cache_step_nodup (key : option string) (before after : list Idem.t) :
  cache_step key before after ->
  NoDup (map Idem.key before) -> NoDup (map Idem.key after).
Proof.
  intros [-> | (e & -> & _ & Hnew)] H; [exact H | ].
  unfold push. rewrite map_app. simpl.
  apply NoDup_app; repeat split; auto.
  - repeat constructor. simpl. tauto.
  - intros k Hk [<- | []]. revert Hk. apply find_has_key_none, Hnew.
Qed.

Lemma cache_step_keeps (key : option string) (before after : list Idem.t)
  (k : string) (r : Idem.t) :
  cache_step key before after ->
  find (has_key k) before = Some r -> find (has_key k) after = Some r.
Proof.
  intros [-> | (e & -> & _ & _)] H; [exact H | ].
  apply find_push_found, H.
Qed.

Lemma run_cache (reqs : list request) (w : world) :
  NoDup (cache_keys (store w)) ->
  NoDup (cache_keys (store (snd (run reqs w))))
  /\ forall k r,
       find (has_key k) (Db.idempotency (store w)) = Some r ->
       find (has_key k) (Db.idempotency (store (snd (run reqs w)))) = Some r.
Proof.
  revert w. induction reqs as [ | q reqs IH]; intros w H; simpl; [auto | ].
  destruct (server q w) as [a w'] eqn:E1.
  destruct (run reqs w') as [l w''] eqn:E2. simpl.
  pose proof (server_cache q w) as Hstep. rewrite E1 in Hstep. simpl in Hstep.
  assert (H' : NoDup (cache_keys (store w'))).
  { unfold cache_keys. eapply cache_step_nodup; eauto. }
  destruct (IH w' H') as [IH1 IH2]. rewrite E2 in IH1, IH2. simpl in IH1, IH2.
  split; [exact IH1 | ].
  intros k r Hk. apply IH2. eapply cache_step_keeps; eauto.
Qed.

(** C9: over any sequence of requests from a cache that holds at most one
    record per key, the cache holds at most one record per key after each
    request, a record once cached under a key stays the record found under
    it (first write wins), and a request without an idempotency key leaves
    the cache as it was. *)
Theorem cache_one_record_per_key (reqs : list request) (w : world) :
  NoDup (cache_keys (store w)) ->
  (forall n, NoDup (cache_keys (store (snd (run (firstn n reqs) w)))))
  /\ (forall n k r,
        find (has_key k) (Db.idempotency (store w)) = Some r ->
        find (has_key k)
          (Db.idempotency (store (snd (run (firstn n reqs) w)))) = Some r)
  /\ (forall req w',
        header_set (x_idempotency_key (head req)) = None ->
        Db.idempotency (store (snd (server req w'))) =
        Db.idempotency (store w')).
Proof.
  intros H. split; [ | split].
  - intros n. apply run_cache, H.
  - intros n. apply run_cache, H.
  - intros req w' Hk.
    destruct (server_cache req w') as [E | (e & _ & E & _)]; [exact E | ].
    congruence.
Qed.

(** The second request is a replay: one record under ["K-2"]. *)
Lemma cache_one_record_per_key_witness :
  let w := sample_world (two_wallets (of_Z 3500) (of_Z 2000)) [] in
  NoDup (cache_keys (store (snd (run (firstn 2 sent_twice) w))))
  /\ cache_keys (store (snd (run sent_twice w))) = ["K-2"].
Proof.
  split; [ | vm_compute; reflexivity].
  apply (cache_one_record_per_key sent_twice
           (sample_world (two_wallets (of_Z 3500) (of_Z 2000)) [])).
  constructor.
Defined.

(** ** Rounding to binary64 *)

Lemma pow2_add (a b : Z) : (pow2 (a + b) == pow2 a * pow2 b)%Q.
Proof. unfold pow2. apply Qpower_plus. discriminate. Qed.

Lemma pow2_succ (a : Z) : (pow2 (a + 1) == 2 * pow2 a)%Q.
Proof. rewrite pow2_add. change (pow2 1) with 2%Q. ring. Qed.

Lemma pow2_le (a b : Z) : a <= b -> (pow2 a <= pow2 b)%Q.
Proof. intros H. unfold pow2. apply Qpower_le_compat_l; [exact H | discriminate]. Qed.

Lemma pow2_Z (n : Z) : 0 <= n -> (inject_Z (2 ^ n) == pow2 n)%Q.
Proof. intros H. unfold pow2. rewrite Zpower_Qpower by exact H. reflexivity. Qed.

Lemma Qlog2_spec (q : Q) :
  (0 < q)%Q -> (pow2 (Qlog2 q) <= q /\ q < pow2 (Qlog2 q + 1))%Q.
Proof.
  intros Hq. unfold Qlog2.
  destruct q as [p r]. cbn [Qnum Qden].
  assert (Hp : 0 < p). { unfold Qlt in Hq. simpl in Hq. lia. }
  set (lp := Z.log2 p). set (lr := Z.log2 (Z.pos r)).
  destruct (Z.log2_spec p Hp) as [Hp1 Hp2]. fold lp in Hp1, Hp2.
  destruct (Z.log2_spec (Z.pos r) eq_refl) as [Hr1 Hr2]. fold lr in Hr1, Hr2.
  assert (Hlp : 0 <= lp) by apply Z.log2_nonneg.
  assert (Hlr : 0 <= lr) by apply Z.log2_nonneg.
  rewrite Zle_Qle, pow2_Z in Hp1, Hr1 by assumption.
  rewrite Zlt_Qlt in Hp2, Hr2. unfold Z.succ in *.
  rewrite pow2_Z, pow2_succ in Hp2, Hr2 by lia.
  assert (Hd : (pow2 (lp - lr) * pow2 lr == pow2 lp)%Q).
  { rewrite <- pow2_add. replace (lp - lr + lr) with lp by lia. reflexivity. }
  assert (Hq' : (p # r == inject_Z p / inject_Z (Z.pos r))%Q) by apply Qmake_Qdiv.
  assert (HR : (0 < inject_Z (Z.pos r))%Q) by reflexivity.
  assert (Hqr : ((p # r) * inject_Z (Z.pos r) == inject_Z p)%Q).
  { rewrite Hq'. field. intros E. rewrite E in HR. discriminate. }
  generalize (pow2_pos lr) (pow2_pos (lp - lr)). intros Hb Hdpos.
  destruct (Qle_bool (pow2 (lp - lr)) (p # r)) eqn:E.
  - apply Qle_bool_iff in E. split; [exact E | ].
    rewrite pow2_succ.
    set (P := inject_Z p) in *. set (R := inject_Z (Z.pos r)) in *.
    set (A := pow2 lp) in *. set (B := pow2 lr) in *.
    set (D := pow2 (lp - lr)) in *. set (x := (p # r)%Q) in *.
    nra.
  - assert (E' : (p # r < pow2 (lp - lr))%Q).
    { apply Qnot_le_lt. intros H. apply Qle_bool_iff in H. congruence. }
    replace (lp - lr - 1 + 1) with (lp - lr) by lia.
    split; [ | exact E'].
    assert (Hh : (pow2 (lp - lr) == 2 * pow2 (lp - lr - 1))%Q).
    { rewrite <- pow2_succ. replace (lp - lr - 1 + 1) with (lp - lr) by lia.
      reflexivity. }
    generalize (pow2_pos (lp - lr - 1)). intros Hh0.
    set (P := inject_Z p) in *. set (R := inject_Z (Z.pos r)) in *.
    set (A := pow2 lp) in *. set (B := pow2 lr) in *.
    set (D := pow2 (lp - lr)) in *. set (D' := pow2 (lp - lr - 1)) in *.
    set (x := (p # r)%Q) in *.
    nra.
Qed.

Lemma rne_spec (t : Q) :
  (inject_Z (rne t) - (1 # 2) <= t /\ t <= inject_Z (rne t) + (1 # 2))%Q.
Proof.
  unfold rne. generalize (Qfloor_le t) (Qlt_floor t).
  rewrite inject_Z_plus. change (inject_Z 1) with 1%Q.
  set (f := Qfloor t). intros H1 H2.
  destruct (t - inject_Z f ?= 1 # 2)%Q eqn:E.
  - apply Qeq_alt in E.
    destruct (Z.even f); rewrite ?inject_Z_plus; change (inject_Z 1) with 1%Q;
      lra.
  - apply Qlt_alt in E. lra.
  - apply Qgt_alt in E. rewrite inject_Z_plus. change (inject_Z 1) with 1%Q.
    lra.
Qed.

(** In the normal range, rounding moves a value by no more than one part in
    [2^53]. *)
Lemma round_pos_normal (s : bool) (q : Q) :
  (pow2 (-1022) <= q)%Q -> (q < pow2 1023)%Q ->
  exists m e,
    round_pos s q = S754_finite s m e
    /\ (inject_Z (Z.pos m) * pow2 e - q <= q * pow2 (-53))%Q
    /\ (q - inject_Z (Z.pos m) * pow2 e <= q * pow2 (-53))%Q.
Proof.
  intros Hlo Hhi.
  assert (Hq : (0 < q)%Q).
  { eapply Qlt_le_trans; [apply (pow2_pos (-1022)) | exact Hlo]. }
  destruct (Qlog2_spec q Hq) as [HE1 HE2].
  set (E := Qlog2 q) in *.
  assert (HEl : -1022 <= E).
  { destruct (Z_lt_le_dec E (-1022)) as [H | H]; [ | exact H]. exfalso.
    assert (pow2 (E + 1) <= pow2 (-1022))%Q by (apply pow2_le; lia). lra. }
  assert (HEh : E < 1023).
  { destruct (Z_lt_le_dec E 1023) as [H | H]; [exact H | ]. exfalso.
    assert (pow2 1023 <= pow2 E)%Q by (apply pow2_le; lia). lra. }
  unfold round_pos. fold E.
  replace (Z.max (E - 52) (-1074)) with (E - 52) by lia.
  set (ex := E - 52).
  set (t := (q / pow2 ex)%Q).
  assert (Hex : (0 < pow2 ex)%Q) by apply pow2_pos.
  assert (Hqt : (q == t * pow2 ex)%Q).
  { unfold t. field. lra. }
  assert (H52 : (pow2 E == pow2 52 * pow2 ex)%Q).
  { rewrite <- pow2_add. replace (52 + ex) with E by (unfold ex; lia).
    reflexivity. }
  assert (H53 : (pow2 (E + 1) == pow2 53 * pow2 ex)%Q).
  { rewrite <- pow2_add. replace (53 + ex) with (E + 1) by (unfold ex; lia).
    reflexivity. }
  assert (Ht1 : (pow2 52 <= t)%Q).
  { unfold t. apply Qle_shift_div_l; [exact Hex | ]. lra. }
  assert (Ht2 : (t < pow2 53)%Q).
  { unfold t. apply Qlt_shift_div_r; [exact Hex | ]. lra. }
  destruct (rne_spec t) as [Hr1 Hr2].
  set (M := rne t) in *.
  assert (HM1 : 2 ^ 52 <= M).
  { destruct (Z_lt_le_dec M (2 ^ 52)) as [H | H]; [ | exact H]. exfalso.
    assert (H' : M + 1 <= 2 ^ 52) by lia.
    rewrite Zle_Qle, inject_Z_plus in H'. change (inject_Z 1) with 1%Q in H'.
    rewrite pow2_Z in H' by lia. lra. }
  assert (HM2 : M <= 2 ^ 53).
  { destruct (Z_lt_le_dec (2 ^ 53) M) as [H | H]; [ | exact H]. exfalso.
    assert (H' : 2 ^ 53 + 1 <= M) by lia.
    rewrite Zle_Qle, inject_Z_plus in H'. change (inject_Z 1) with 1%Q in H'.
    rewrite pow2_Z in H' by lia. lra. }
  assert (Hu : (pow2 ex * (1 # 2) <= q * pow2 (-53))%Q).
  { assert (H1 : (pow2 52 * pow2 (-53) == 1 # 2)%Q) by reflexivity.
    generalize (pow2_pos (-53)). intros H0.
    set (a := pow2 ex) in *. set (b := pow2 (-53)) in *.
    set (c := pow2 52) in *. set (d := pow2 E) in *. nra. }
  destruct (M =? 2 ^ 53) eqn:EM.
  - apply Z.eqb_eq in EM.
    exists (2 ^ 52)%positive, (ex + 1).
    change (2 ^ 52) with (Z.pos (2 ^ 52)).
    assert (Hg : (ex + 1 >? 971) = false)
      by (rewrite Z.gtb_ltb; apply Z.ltb_ge; unfold ex; lia).
    rewrite Hg.
    split; [reflexivity | ].
    assert (HV : (inject_Z (Z.pos (2 ^ 52)) * pow2 (ex + 1)
                  == inject_Z M * pow2 ex)%Q).
    { rewrite EM, pow2_succ. change (inject_Z (Z.pos (2 ^ 52))) with (pow2 52).
      change (inject_Z (2 ^ 53)) with (2 * pow2 52)%Q. ring. }
    rewrite HV.
    set (a := pow2 ex) in *. set (b := pow2 (-53)) in *. set (IM := inject_Z M) in *.
    split; nra.
  - destruct M as [ | p | p]; try lia.
    exists p, ex.
    assert (Hg : (ex >? 971) = false)
      by (rewrite Z.gtb_ltb; apply Z.ltb_ge; unfold ex; lia).
    rewrite Hg.
    split; [reflexivity | ].
    set (a := pow2 ex) in *. set (b := pow2 (-53)) in *.
    set (IM := inject_Z (Z.pos p)) in *.
    split; nra.
Qed.

Lemma round_Q_pos (q : Q) : (0 < q)%Q -> round_Q q = round_pos false q.
Proof.
  destruct q as [[ | p | p] d]; unfold Qlt; simpl; intros H; try lia.
  reflexivity.
Qed.

Lemma round_Q_zero (q : Q) : (q == 0)%Q -> round_Q q = S754_zero false.
Proof.
  destruct q as [[ | p | p] d]; unfold Qeq; simpl; intros H; try lia.
  reflexivity.
Qed.

Lemma Qfloor_unique (x : Q) (n : Z) :
  (inject_Z n <= x)%Q -> (x < inject_Z n + 1)%Q -> Qfloor x = n.
Proof.
  intros H1 H2. generalize (Qfloor_le x) (Qlt_floor x).
  rewrite inject_Z_plus. change (inject_Z 1) with 1%Q. intros H3 H4.
  assert (Ha : (inject_Z (Qfloor x) < inject_Z (n + 1))%Q).
  { rewrite inject_Z_plus. change (inject_Z 1) with 1%Q. lra. }
  assert (Hb : (inject_Z n < inject_Z (Qfloor x + 1))%Q).
  { rewrite inject_Z_plus. change (inject_Z 1) with 1%Q. lra. }
  rewrite <- Zlt_Qlt in Ha, Hb. lia.
Qed.

(** A rounded positive value in the range of the amounts. *)
Lemma round_pos_mid (q : Q) :
  (1 # 200 <= q)%Q -> (q <= inject_Z (2 ^ 60))%Q ->
  exists m e,
    round_pos false q = S754_finite false m e
    /\ (F2Q (S754_finite false m e) - q <= q * ulp)%Q
    /\ (q - F2Q (S754_finite false m e) <= q * ulp)%Q.
Proof.
  intros H1 H2. apply round_pos_normal.
  - eapply Qle_trans; [ | exact H1]. apply Qle_bool_imp_le. vm_compute. reflexivity.
  - eapply Qle_lt_trans; [exact H2 | ]. vm_compute. reflexivity.
Qed.

Lemma cents_value (k : Z) :
  1 <= k -> k <= 2 ^ 51 ->
  exists m e,
    cents k = S754_finite false m e
    /\ (F2Q (S754_finite false m e) - (k # 100) <= (k # 100) * ulp)%Q
    /\ ((k # 100) - F2Q (S754_finite false m e) <= (k # 100) * ulp)%Q.
Proof.
  intros H1 H2. unfold cents. rewrite round_Q_pos.
  - apply round_pos_mid.
    + unfold Qle. simpl. lia.
    + unfold Qle. simpl. lia.
  - unfold Qlt. simpl. lia.
Qed.

Lemma cents_as_Q (k : Z) : (k # 100 == inject_Z k * (1 # 100))%Q.
Proof. unfold Qeq. simpl. lia. Qed.

(** [Number(x.toFixed(2))] of a positive value within half a hundredth of
    [k / 100]. *)
Lemma round2_near (m : positive) (e : Z) (k : Z) :
  1 <= k -> k <= 2 ^ 51 ->
  (inject_Z k - (1 # 2) <= F2Q (S754_finite false m e) * 100)%Q ->
  (F2Q (S754_finite false m e) * 100 < inject_Z k + (1 # 2))%Q ->
  round2 (S754_finite false m e) = cents k.
Proof.
  intros Hk1 Hk2 H1 H2. unfold round2.
  set (v := F2Q (S754_finite false m e)) in *.
  assert (Hv : (0 < v)%Q) by apply F2Q_pos.
  assert (Ha : (Qabs v == v)%Q) by (apply Qabs_pos; lra).
  assert (Hk : (inject_Z k <= inject_Z (2 ^ 51))%Q) by (rewrite <- Zle_Qle; exact Hk2).
  change (inject_Z (2 ^ 51)) with (2251799813685248 # 1)%Q in Hk.
  assert (Hbig : Qle_bool ten21 (Qabs v) = false).
  { destruct (Qle_bool ten21 (Qabs v)) eqn:E; [ | reflexivity]. exfalso.
    apply Qle_bool_iff in E. rewrite Ha in E. unfold ten21 in E.
    change (inject_Z (10 ^ 21)) with (1000000000000000000000 # 1)%Q in E. lra. }
  rewrite Hbig.
  assert (Hd : fixed_digits (Qabs v) = k).
  { unfold fixed_digits. apply Qfloor_unique; rewrite Ha; lra. }
  rewrite Hd. destruct k as [ | p | p]; try lia.
  unfold cents. rewrite round_Q_pos by reflexivity. reflexivity.
Qed.

Lemma inject_Z_bound (k : Z) (n : Z) : k <= n -> (inject_Z k <= inject_Z n)%Q.
Proof. intros H. rewrite <- Zle_Qle. exact H. Qed.

Lemma inject_Z_ge (k : Z) (n : Z) : n <= k -> (inject_Z n <= inject_Z k)%Q.
Proof. intros H. rewrite <- Zle_Qle. exact H. Qed.

Lemma cents_positive (k : Z) :
  1 <= k -> k <= 2 ^ 51 -> isPositiveNumber (VNum (cents k)) = true.
Proof.
  intros H1 H2. destruct (cents_value k H1 H2) as (m & e & -> & _).
  simpl. generalize (F2Q_pos m e). rewrite Qlt_alt. unfold F2Q.
  intros ->. reflexivity.
Qed.

(** Credit: [k_b / 100 + k_a / 100], rounded twice, is [(k_b + k_a) / 100]. *)
Lemma add_cents (kb ka : Z) :
  0 <= kb -> 1 <= ka -> kb + ka <= 2 ^ 50 ->
  round2 (add (cents kb) (cents ka)) = cents (kb + ka).
Proof.
  intros Hb Ha Hs.
  destruct (cents_value ka Ha ltac:(lia)) as (ma & ea & Ea & Ha1 & Ha2).
  rewrite Ea.
  set (va := F2Q (S754_finite false ma ea)) in *.
  assert (Hva : (0 < va)%Q) by apply F2Q_pos.
  assert (IK : (inject_Z (kb + ka) <= inject_Z (2 ^ 50))%Q) by (apply inject_Z_bound; exact Hs).
  assert (Ia : (inject_Z 1 <= inject_Z ka)%Q) by (apply inject_Z_ge; exact Ha).
  assert (Ib : (inject_Z 0 <= inject_Z kb)%Q) by (apply inject_Z_ge; exact Hb).
  rewrite inject_Z_plus in IK.
  change (inject_Z (2 ^ 50)) with (1125899906842624 # 1)%Q in IK.
  change (inject_Z 1) with 1%Q in Ia. change (inject_Z 0) with 0%Q in Ib.
  rewrite cents_as_Q in Ha1, Ha2. unfold ulp in *.
  assert (Hsum : exists q,
            add (cents kb) (S754_finite false ma ea) = round_Q q
            /\ (q - (inject_Z kb + inject_Z ka) * (1 # 100)
                <= (inject_Z kb + inject_Z ka) * (1 # 100) * ulp)%Q
            /\ ((inject_Z kb + inject_Z ka) * (1 # 100) - q
                <= (inject_Z kb + inject_Z ka) * (1 # 100) * ulp)%Q).
  { destruct (Z.eq_dec kb 0) as [-> | Hb0].
    - exists (0 + va)%Q. split; [reflexivity | ].
      change (inject_Z 0) with 0%Q. unfold ulp. split; lra.
    - destruct (cents_value kb ltac:(lia) ltac:(lia)) as (mb & eb & Eb & Hb1 & Hb2).
      rewrite Eb. exists (F2Q (S754_finite false mb eb) + va)%Q.
      split; [reflexivity | ].
      rewrite cents_as_Q in Hb1, Hb2. unfold ulp in *.
      set (vb := F2Q (S754_finite false mb eb)) in *. split; lra. }
  destruct Hsum as (q & -> & Hq1 & Hq2). unfold ulp in *.
  assert (Hq : (0 < q)%Q) by lra.
  rewrite round_Q_pos by exact Hq.
  destruct (round_pos_mid q ltac:(lra) ltac:(change (inject_Z (2 ^ 60)) with (1152921504606846976 # 1)%Q; lra))
    as (m & e & -> & Hv1 & Hv2).
  unfold ulp in *.
  apply round2_near; try lia; rewrite inject_Z_plus; lra.
Qed.

(** Debit: [(k_b + k_a) / 100 - k_a / 100], rounded twice, is [k_b / 100]. *)
Lemma sub_cents (kb ka : Z) :
  0 <= kb -> 1 <= ka -> kb + ka <= 2 ^ 50 ->
  round2 (sub (cents (kb + ka)) (cents ka)) = cents kb
  /\ lt (cents (kb + ka)) (cents ka) = false.
Proof.
  intros Hb Ha Hs.
  destruct (cents_value ka Ha ltac:(lia)) as (ma & ea & Ea & Ha1 & Ha2).
  destruct (cents_value (kb + ka) ltac:(lia) ltac:(lia))
    as (mk & ek & Ek & Hk1 & Hk2).
  assert (Eo : (F2Q (S754_finite true ma ea)
                == - F2Q (S754_finite false ma ea))%Q).
  { unfold F2Q. change (inject_Z (Z.neg ma)) with (- inject_Z (Z.pos ma))%Q.
    ring. }
  destruct (Z.eq_dec kb 0) as [-> | Hb0].
  - rewrite Z.add_0_l in *. rewrite Ea. split.
    + unfold sub. cbn [opp negb add].
      rewrite round_Q_zero by (rewrite Eo; ring). reflexivity.
    + cbn [lt]. assert (E : (F2Q (S754_finite false ma ea)
                             ?= F2Q (S754_finite false ma ea))%Q = Eq)
        by (apply Qeq_alt; reflexivity).
      rewrite E. reflexivity.
  - rewrite Ek, Ea.
    set (va := F2Q (S754_finite false ma ea)) in *.
    set (vk := F2Q (S754_finite false mk ek)) in *.
    assert (IK : (inject_Z (kb + ka) <= inject_Z (2 ^ 50))%Q) by (apply inject_Z_bound; exact Hs).
    assert (Ia : (inject_Z 1 <= inject_Z ka)%Q) by (apply inject_Z_ge; exact Ha).
    assert (Ib : (inject_Z 1 <= inject_Z kb)%Q) by (apply inject_Z_ge; lia).
    rewrite cents_as_Q in Ha1, Ha2, Hk1, Hk2.
    rewrite inject_Z_plus in IK, Hk1, Hk2.
    change (inject_Z (2 ^ 50)) with (1125899906842624 # 1)%Q in IK.
    change (inject_Z 1) with 1%Q in Ia, Ib. unfold ulp in *.
    split.
    + unfold sub. cbn [opp negb add].
      set (q := (F2Q (S754_finite false mk ek) + F2Q (S754_finite true ma ea))%Q).
      assert (Eq' : (q == vk - va)%Q) by (unfold q; rewrite Eo; fold va vk; ring).
      assert (Hq : (0 < q)%Q) by lra.
      rewrite round_Q_pos by exact Hq.
      destruct (round_pos_mid q ltac:(lra) ltac:(change (inject_Z (2 ^ 60)) with (1152921504606846976 # 1)%Q; lra))
        as (m & e & -> & Hv1 & Hv2).
      unfold ulp in *.
      apply round2_near; try lia; lra.
    + cbn [lt]. fold va vk.
      assert (E : (vk ?= va)%Q = Gt) by (apply Qgt_alt; lra).
      rewrite E. reflexivity.
Qed.

(** ** Rounding to two decimals *)





(** ** Credit and debit *)

Lemma has_walletId_set_balance (v : value) (after : number) (u : Z) (w : Wallet.t) :
  has_walletId v (set_balance after u w) = has_walletId v w.
Proof. reflexivity. Qed.

Lemma balance_after_assign (v : value) (after : number) (u : Z)
  (ws : list Wallet.t) (wallet : Wallet.t) :
  find (has_walletId v) ws = Some wallet ->
  option_map Wallet.balance
    (find (has_walletId v)
       (assign_first (has_walletId v) (set_balance after u) ws))
  = Some (VNum after).
Proof.
  intros H. rewrite find_assign_first_same by auto. rewrite H. reflexivity.
Qed.



Lemma prefix_append (n q : string) : prefix n (n ++ q) = true.
Proof.
  induction n as [ | c n IH]; simpl; [destruct q; reflexivity | ].
  destruct (ascii_dec c c); [exact IH | congruence].
Qed.

Lemma contains_prefix (n h : string) :
  prefix n h = true -> contains n h = true.
Proof. destruct h; simpl; intros ->; reflexivity. Qed.

Lemma contains_append (p n q : string) : contains n (p ++ n ++ q) = true.
Proof.
  induction p as [ | c p IH]; simpl.
  - apply contains_prefix, prefix_append.
  - rewrite IH. apply orb_true_r.
Qed.

(** Below [10^21], [toFixed(2)] writes two fraction digits. *)
Lemma toFixed2_two_decimals (x : number) :
  isFinite x = true -> (Qabs (F2Q x) < ten21)%Q ->
  toFixed2 x = two_decimals x.
Proof.
  destruct x as [s | s | | s m e]; simpl; try discriminate; try reflexivity.
  intros _ H.
  destruct (Qle_bool ten21 _) eqn:E; [ | reflexivity].
  apply Qle_bool_iff in E. exfalso. revert H. apply Qle_not_lt. exact E.
Qed.

(** C5, as the code has it: a debit of a positive finite amount [a] with a
    reference on an existing wallet that holds the number [b] fails with
    INSUFFICIENT_FUNDS exactly when [b < a]; the message then carries
    [b.toFixed(2)], which is [b] with two fraction digits when [b] is finite
    and below [10^21] in magnitude, and nothing is written; otherwise, and so
    when [b = a], the debit is answered 200. *)
Theorem debit_insufficient_iff (walletId : string) (b : Operation.t) (w : world)
  (wallet : Wallet.t) (balance : number) :
  find (has_walletId (VStr walletId)) (Db.wallets (store w)) = Some wallet ->
  Wallet.balance wallet = VNum balance ->
  isPositiveNumber (Operation.amount b) = true ->
  truthy (Operation.reference b) = true ->
  let a := numeric (Operation.amount b) in
  let out := debit walletId b w in
  (error_of (fst out) = Some (400, "INSUFFICIENT_FUNDS") <-> lt balance a = true)
  /\ (lt balance a = true ->
      message_of (fst out) =
      Some ("Solde insuffisant. Solde actuel: " ++ toFixed2 balance ++
            ", Montant demandé: " ++ toFixed2 a)
      /\ store (snd out) = store w)
  /\ (lt balance a = true -> isFinite balance = true ->
      (Qabs (F2Q balance) < ten21)%Q ->
      exists text,
        message_of (fst out) = Some text
        /\ contains (two_decimals balance) text = true)
  /\ (lt balance a = false -> is_error (fst out) = false /\ code (fst out) = 200)
  /\ (JsNumber.eq balance a = true -> is_error (fst out) = false).
Proof.
  intros Hw Hb Ha Hr a out.
  assert (Hno : lt balance a = false ->
                is_error (fst out) = false /\ code (fst out) = 200
                /\ error_of (fst out) = None).
  { intros Hlt. subst out. destruct w as [d c n]. unfold debit. run_monad.
    cbv beta iota delta [store] in Hw. rewrite Hw, Ha, Hr. run_monad.
    rewrite Hb. cbn [less minus to_number option_map]. fold a. rewrite Hlt.
    run_monad. auto. }
  assert (Hyes : lt balance a = true ->
                 fst out = Reply 400
                   (BError (clock w (ticks w)) 400 "INSUFFICIENT_FUNDS"
                      (insufficient_message balance a))
                 /\ store (snd out) = store w).
  { intros Hlt. subst out. destruct w as [d c n]. unfold debit. run_monad.
    cbv beta iota delta [store] in Hw. rewrite Hw, Ha, Hr. run_monad.
    rewrite Hb. cbn [less minus to_number option_map]. fold a. rewrite Hlt.
    run_monad. auto. }
  split; [ | split; [ | split; [ | split]]].
  - destruct (lt balance a) eqn:Hlt.
    + destruct (Hyes eq_refl) as [-> _]. split; reflexivity.
    + destruct (Hno eq_refl) as (_ & _ & ->). split; discriminate.
  - intros Hlt. destruct (Hyes Hlt) as [-> E]. split; [reflexivity | exact E].
  - intros Hlt Hfin Hsmall. destruct (Hyes Hlt) as [-> _].
    eexists. split; [reflexivity | ].
    rewrite <- (toFixed2_two_decimals balance Hfin Hsmall).
    unfold insufficient_message. apply contains_append.
  - intros Hlt. destruct (Hno Hlt) as (H1 & H2 & _). auto.
  - intros He. apply eq_not_lt in He. destruct (Hno He) as (H1 & _). exact H1.
Qed.

(** Wallet balance 500; debit 1000: the message cites 500.00. *)
Lemma debit_insufficient_iff_witness :
  let w := sample_world (two_wallets (of_Z 500) zero) [] in
  let out := debit "WALLET-001" (op (of_Z 1000) "DEBIT-001") w in
  message_of (fst out) =
  Some "Solde insuffisant. Solde actuel: 500.00, Montant demandé: 1000.00"
  /\ store (snd out) = store w.
Proof.
  destruct (debit_insufficient_iff "WALLET-001" (op (of_Z 1000) "DEBIT-001")
              (sample_world (two_wallets (of_Z 500) zero) [])
              (sample_wallet 1 "WALLET-001" "+221771234567" (of_Z 500))
              (of_Z 500) eq_refl eq_refl eq_refl eq_refl) as (_ & H & _).
  destruct (H eq_refl) as [H1 H2]. split; [ | exact H2].
  rewrite H1. vm_compute. reflexivity.
Defined.

(** C5 as stated fails on the text of the message from [10^21] on: after a
    credit of [10^21] on an empty wallet, a debit of twice that is refused
    with a message that cites the balance as [1e+21], and
    1000000000000000000000.00 is not in it. *)
Lemma huge_balance_is_not_in_decimals :
  let w0 := sample_world (two_wallets zero zero) [] in
  let w := snd (credit "WALLET-001" (op sextillion "CREDIT-004") w0) in
  let out := debit "WALLET-001" (op two_sextillion "DEBIT-004") w in
  balance_of (VStr "WALLET-001") (store w) = Some (VNum sextillion)
  /\ error_of (fst out) = Some (400, "INSUFFICIENT_FUNDS")
  /\ message_of (fst out) =
     Some "Solde insuffisant. Solde actuel: 1e+21, Montant demandé: 2e+21"
  /\ two_decimals sextillion = "1000000000000000000000.00"
  /\ match message_of (fst out) with
     | Some text => contains (two_decimals sextillion) text
     | None => true
     end = false.
Proof. cbv zeta. repeat apply conj; vm_compute; reflexivity. Qed.

(** ** Transfer *)

Lemma number_eq_trans (x y z : number) :
  JsNumber.eq x y = true -> JsNumber.eq x z = true -> JsNumber.eq y z = true.
Proof.
  destruct x as [s | s | | s m e], y as [t | t | | t n f],
    z as [u | u | | u o g]; simpl; try discriminate; try reflexivity;
    try (intros H1 H2; apply Qeq_bool_iff in H1; apply Qeq_bool_iff in H2;
         apply Qeq_bool_iff; unfold F2Q in *; lra).
  destruct s, t, u; simpl; try discriminate; reflexivity.
Qed.

Lemma strict_eq_trans (x y z : value) :
  strict_eq x y = true -> strict_eq x z = true -> strict_eq y z = true.
Proof.
  destruct x, y, z; simpl; try discriminate; try reflexivity.
  - destruct b, b0, b1; simpl; try discriminate; reflexivity.
  - apply number_eq_trans.
  - intros H1 H2. apply String.eqb_eq in H1, H2. apply String.eqb_eq.
    congruence.
Qed.

(** The first matches of two tests after two updates in a row, when the two
    matches are two elements of the list and the updates keep both tests. *)
Lemma find_after_two_updates {A : Type} (p q : A -> bool) (f g : A -> A)
  (l : list A) (x y : A) :
  (forall a, p (f a) = p a /\ q (f a) = q a) ->
  (forall a, p (g a) = p a /\ q (g a) = q a) ->
  find p l = Some x -> find q l = Some y -> x <> y ->
  find p (assign_first q g (assign_first p f l)) = Some (f x)
  /\ find q (assign_first q g (assign_first p f l)) = Some (g y).
Proof.
  intros Hf Hg. induction l as [ | z l IH]; simpl; [discriminate | ].
  intros Hx Hy Hxy.
  destruct (p z) eqn:Pz, (q z) eqn:Qz.
  - congruence.
  - injection Hx as <-. simpl.
    destruct (Hf z) as [Pf Qf]. rewrite Qf, Qz. simpl. rewrite Pf, Pz, Qf, Qz.
    split; [reflexivity | ].
    rewrite find_assign_first_same.
    + rewrite Hy. reflexivity.
    + intros a Ha. destruct (Hg a) as [_ ->]. exact Ha.
  - injection Hy as <-. simpl. rewrite Qz. simpl.
    destruct (Hg z) as [Pg Qg]. rewrite Pg, Pz, Qg, Qz.
    split; [ | reflexivity].
    rewrite find_assign_first_same.
    + rewrite Hx. reflexivity.
    + intros a Ha. destruct (Hf a) as [-> _]. exact Ha.
  - simpl. rewrite Qz. simpl. rewrite Pz, Qz. apply IH; assumption.
Qed.

Lemma number_eq_sym (x y : number) : JsNumber.eq x y = JsNumber.eq y x.
Proof.
  assert (Q : forall a b : Q, Qeq_bool a b = Qeq_bool b a).
  { intros a b. destruct (Qeq_bool a b) eqn:E1, (Qeq_bool b a) eqn:E2;
      try reflexivity.
    - apply Qeq_bool_iff in E1. symmetry in E1. apply Qeq_bool_iff in E1.
      congruence.
    - apply Qeq_bool_iff in E2. symmetry in E2. apply Qeq_bool_iff in E2.
      congruence. }
  destruct x as [s | s | | s m e], y as [t | t | | t n f]; simpl;
    try reflexivity; try apply Q.
  destruct s, t; reflexivity.
Qed.

Lemma strict_eq_sym (x y : value) : strict_eq x y = strict_eq y x.
Proof.
  destruct x, y; simpl; try reflexivity.
  - destruct b, b0; reflexivity.
  - apply number_eq_sym.
  - apply String.eqb_sym.
Qed.




(** The balances after a transfer between two wallets that hold numbers. *)
Lemma transfer_balances_at (h : headers) (b : TransferBody.t) (w : world)
  (src dst : Wallet.t) (s d : number) :
  fields_ok b = true -> self_transfer b = false ->
  source_of b (store w) = Some src -> destination_of b (store w) = Some dst ->
  src <> dst ->
  Wallet.balance src = VNum s -> Wallet.balance dst = VNum d ->
  cached (x_idempotency_key h) (store w) = None ->
  lt s (numeric (TransferBody.amount b)) = false ->
  balance_of (TransferBody.sourceWalletId b) (store (snd (transfer h b w)))
  = Some (VNum (round2 (sub s (numeric (TransferBody.amount b)))))
  /\ balance_of (TransferBody.destinationWalletId b)
       (store (snd (transfer h b w)))
     = Some (VNum (round2 (add d (numeric (TransferBody.amount b)))))
  /\ is_error (fst (transfer h b w)) = false.
Proof.
  intros Hf Hs Hsrc Hdst Hne Bs Bd Hc Hlt.
  destruct w as [db c n].
  unfold transfer, balance_of, fields_ok, self_transfer, source_of,
    destination_of in *.
  cbv beta iota delta [store] in *.
  destruct (truthy (TransferBody.sourceWalletId b)); try discriminate.
  destruct (truthy (TransferBody.destinationWalletId b)); try discriminate.
  destruct (isPositiveNumber (TransferBody.amount b)); try discriminate.
  destruct (truthy (TransferBody.reference b)); try discriminate.
  cbn [negb orb]. rewrite Hs. run_monad. rewrite Hsrc, Hdst. run_monad.
  rewrite Hc, Bs, Bd. cbn [less minus plus to_number option_map].
  rewrite Hlt. run_monad.
  set (a := numeric (TransferBody.amount b)).
  assert (Both : forall ud us,
            let l :=
              assign_first (has_walletId (TransferBody.destinationWalletId b))
                (set_balance (round2 (add d a)) ud)
                (assign_first (has_walletId (TransferBody.sourceWalletId b))
                   (set_balance (round2 (sub s a)) us) (Db.wallets db)) in
            option_map Wallet.balance
              (find (has_walletId (TransferBody.sourceWalletId b)) l)
            = Some (VNum (round2 (sub s a)))
            /\ option_map Wallet.balance
                 (find (has_walletId (TransferBody.destinationWalletId b)) l)
               = Some (VNum (round2 (add d a)))).
  { intros ud us l. subst l.
    destruct (find_after_two_updates
                (has_walletId (TransferBody.sourceWalletId b))
                (has_walletId (TransferBody.destinationWalletId b))
                (set_balance (round2 (sub s a)) us)
                (set_balance (round2 (add d a)) ud)
                (Db.wallets db) src dst) as [-> ->]; auto. }
  destruct (header_set (x_idempotency_key h)); run_monad;
    autorewrite with store.
  all: split; [apply Both | ].
  all: split; [apply Both | reflexivity].
Qed.




(** ** Credit, then debit *)

Lemma credit_balance (walletId : string) (b : Operation.t) (w : world)
  (wallet : Wallet.t) (before : number) :
  find (has_walletId (VStr walletId)) (Db.wallets (store w)) = Some wallet ->
  Wallet.balance wallet = VNum before ->
  isPositiveNumber (Operation.amount b) = true ->
  truthy (Operation.reference b) = true ->
  is_error (fst (credit walletId b w)) = false
  /\ balance_of (VStr walletId) (store (snd (credit walletId b w)))
     = Some (VNum (round2 (add before (numeric (Operation.amount b))))).
Proof.
  intros Hw Hb Ha Hr. destruct w as [d c n]. unfold credit, balance_of.
  run_monad. cbv beta iota delta [store] in Hw. rewrite Hw, Ha, Hr. run_monad.
  rewrite Hb. cbn [plus to_number option_map]. run_monad.
  autorewrite with store.
  split; [reflexivity | eapply balance_after_assign; eassumption].
Qed.

Lemma debit_balance (walletId : string) (b : Operation.t) (w : world)
  (wallet : Wallet.t) (before : number) :
  find (has_walletId (VStr walletId)) (Db.wallets (store w)) = Some wallet ->
  Wallet.balance wallet = VNum before ->
  isPositiveNumber (Operation.amount b) = true ->
  truthy (Operation.reference b) = true ->
  lt before (numeric (Operation.amount b)) = false ->
  is_error (fst (debit walletId b w)) = false
  /\ balance_of (VStr walletId) (store (snd (debit walletId b w)))
     = Some (VNum (round2 (sub before (numeric (Operation.amount b))))).
Proof.
  intros Hw Hb Ha Hr Hlt. destruct w as [d c n]. unfold debit, balance_of.
  run_monad. cbv beta iota delta [store] in Hw. rewrite Hw, Ha, Hr. run_monad.
  rewrite Hb. cbn [less minus to_number option_map]. rewrite Hlt. run_monad.
  autorewrite with store.
  split; [reflexivity | eapply balance_after_assign; eassumption].
Qed.

Lemma balance_of_found (v : value) (d : Db.t) (x : value) :
  balance_of v d = Some x ->
  exists wallet,
    find (has_walletId v) (Db.wallets d) = Some wallet
    /\ Wallet.balance wallet = x.
Proof.
  unfold balance_of. destruct (find _ _) as [wallet | ]; simpl; [ | discriminate].
  intros H. injection H as <-. eauto.
Qed.

(** C8, as the code has it: on a wallet whose balance is [k_b] hundredths
    ([k_b >= 0]), with an amount of [k_a] hundredths ([k_a > 0]) and
    [k_b + k_a <= 2^50], the credit and then the debit of the amount both go
    through, the balance in between is [k_b + k_a] hundredths, and the
    balance at the end is the balance at the start. *)
Theorem credit_then_debit_restores (walletId : string) (kb ka : Z)
  (r1 r2 : value) (w : world) :
  0 <= kb -> 0 < ka -> kb + ka <= 2 ^ 50 ->
  balance_of (VStr walletId) (store w) = Some (VNum (cents kb)) ->
  truthy r1 = true -> truthy r2 = true ->
  let c := credit walletId (Operation.mk (VNum (cents ka)) r1) w in
  let d := debit walletId (Operation.mk (VNum (cents ka)) r2) (snd c) in
  is_error (fst c) = false
  /\ balance_of (VStr walletId) (store (snd c)) = Some (VNum (cents (kb + ka)))
  /\ is_error (fst d) = false
  /\ balance_of (VStr walletId) (store (snd d)) = Some (VNum (cents kb)).
Proof.
  intros Hb Ha Hs Hw H1 H2 c d.
  assert (Hp : isPositiveNumber (VNum (cents ka)) = true)
    by (apply cents_positive; lia).
  destruct (balance_of_found _ _ _ Hw) as (w0 & Hf0 & Hb0).
  destruct (credit_balance walletId (Operation.mk (VNum (cents ka)) r1) w w0
              (cents kb) Hf0 Hb0 Hp H1) as [Hc1 Hc2].
  fold c in Hc1, Hc2. cbn [Operation.amount numeric] in Hc2.
  rewrite add_cents in Hc2 by lia.
  destruct (balance_of_found _ _ _ Hc2) as (w1 & Hf1 & Hb1).
  destruct (sub_cents kb ka Hb ltac:(lia) Hs) as [Hsub Hlt].
  destruct (debit_balance walletId (Operation.mk (VNum (cents ka)) r2) (snd c)
              w1 (cents (kb + ka)) Hf1 Hb1 Hp H2) as [Hd1 Hd2].
  { cbn [Operation.amount numeric]. exact Hlt. }
  fold d in Hd1, Hd2. cbn [Operation.amount numeric] in Hd2.
  rewrite Hsub in Hd2. auto.
Qed.

(** 35.10 on the wallet, 0.07 credited and then debited. *)
Lemma credit_then_debit_restores_witness :
  let w := sample_world (two_wallets (cents 3510) zero) [] in
  let c := credit "WALLET-001" (op (cents 7) "CREDIT-002") w in
  let d := debit "WALLET-001" (op (cents 7) "DEBIT-002") (snd c) in
  balance_of (VStr "WALLET-001") (store (snd c)) = Some (VNum (cents 3517))
  /\ balance_of (VStr "WALLET-001") (store (snd d)) = Some (VNum (cents 3510)).
Proof.
  assert (H := credit_then_debit_restores "WALLET-001" 3510 7
                 (VStr "CREDIT-002") (VStr "DEBIT-002")
                 (sample_world (two_wallets (cents 3510) zero) [])).
  assert (H0 : 0 <= 3510) by lia.
  assert (H1 : 0 < 7) by lia.
  assert (H2 : 3510 + 7 <= 2 ^ 50) by (vm_compute; discriminate).
  specialize (H H0 H1 H2 eq_refl eq_refl eq_refl).
  destruct H as (_ & Ha & _ & Hb).
  exact (conj Ha Hb).
Defined.

(** C8 as stated fails: on a wallet that holds 0, the credit of 0.005 leaves
    0.01, and the debit of 0.005 leaves 0.01 again, not 0. *)
Lemma half_cent_is_not_restored :
  let w := sample_world (two_wallets zero zero) [] in
  let c := credit "WALLET-001" (op half_cent "CREDIT-003") w in
  let d := debit "WALLET-001" (op half_cent "DEBIT-003") (snd c) in
  isPositiveNumber (VNum half_cent) = true
  /\ balance_of (VStr "WALLET-001") (store w) = Some (VNum zero)
  /\ is_error (fst c) = false /\ is_error (fst d) = false
  /\ balance_of (VStr "WALLET-001") (store (snd c)) = Some (VNum (cents 1))
  /\ balance_of (VStr "WALLET-001") (store (snd d)) = Some (VNum (cents 1))
  /\ JsNumber.eq (cents 1) zero = false.
Proof. cbv zeta. repeat apply conj; vm_compute; reflexivity. Qed.

(** The bound on the magnitude is needed as well: on a balance of [2^53], a
    whole number, the credit of 1 is absorbed by the rounding of the sum and
    the debit of 1 is not. *)
Lemma large_balance_is_not_restored :
  let w := sample_world (two_wallets (of_Z (2 ^ 53)) zero) [] in
  let c := credit "WALLET-001" (op (of_Z 1) "CREDIT-005") w in
  let d := debit "WALLET-001" (op (of_Z 1) "DEBIT-005") (snd c) in
  balance_of (VStr "WALLET-001") (store (snd c)) = Some (VNum (of_Z (2 ^ 53)))
  /\ balance_of (VStr "WALLET-001") (store (snd d)) = Some (VNum (of_Z (2 ^ 53 - 1))).
Proof. cbv zeta. repeat apply conj; vm_compute; reflexivity. Qed.


(** * Properties of the routes of server.js *)

Ltac run_api :=
  cbv beta iota zeta delta
    [ledger bind ret Date_now nowISO makeTxnBase db_get db_write fail
     badRequest notFound conflict unauthorized thrown insufficient
     findWalletByWalletId
     findBankByBankId walletExistsByPhone pushEvent json fst snd store clock
     ticks content code with_wallets with_banks with_transactions with_events
     with_idempotency Db.apiKeys Db.banks Db.wallets Db.transactions
     Db.events Db.idempotency].

Ltac open_world w :=
  destruct w as [[keys banks wallets txns events idem] clk n];
  cbv beta iota delta
    [store Db.apiKeys Db.banks Db.wallets Db.transactions Db.events
     Db.idempotency] in *.

Ltac api_cases := repeat (split_if; run_api); try assumption.

(** ** Keys that stay distinct *)

Lemma Forall_assign_first_found {A : Type} (Q : A -> Prop) (p : A -> bool)
  (f : A -> A) (l : list A) (w0 : A) :
  find p l = Some w0 -> Forall Q l -> Q (f w0) ->
  Forall Q (assign_first p f l).
Proof.
  intros Hf Hl Hq. revert Hf.
  induction Hl as [ | a l Ha Hl IH]; simpl; [discriminate | ].
  destruct (p a); intros Hf.
  - injection Hf as ->. constructor; assumption.
  - constructor; auto.
Qed.

Lemma Forall_assign_first_kept {A : Type} (Q : A -> Prop) (p : A -> bool)
  (f : A -> A) (l : list A) :
  (forall a, Q a -> Q (f a)) -> Forall Q l -> Forall Q (assign_first p f l).
Proof.
  intros Hf Hl. induction Hl as [ | a l Ha Hl IH]; simpl; [constructor | ].
  destruct (p a); constructor; auto.
Qed.

Section Distinct.

Context {A : Type}.
Variable key : A -> value.

Let R (a b : A) : Prop := strict_eq (key a) (key b) = false.

Lemma distinct_push (x : A) (l : list A) :
  distinct_by key l ->
  (forall a, In a l -> strict_eq (key a) (key x) = false) ->
  distinct_by key (push x l).
Proof.
  unfold distinct_by, push. induction l as [ | a l IH]; intros Hl Hx; simpl.
  - repeat constructor.
  - inversion Hl; subst. constructor.
    + apply Forall_app. split; [assumption | ].
      constructor; [apply Hx; simpl; auto | constructor].
    + apply IH; [assumption | ]. intros b Hb. apply Hx. simpl. auto.
Qed.

Lemma distinct_remove (p : A -> bool) (l : list A) :
  distinct_by key l -> distinct_by key (remove p l).
Proof.
  unfold distinct_by, remove. induction 1 as [ | a l Ha Hl IH]; simpl.
  - constructor.
  - destruct (negb (p a)); [ | exact IH]. constructor; [ | exact IH].
    rewrite Forall_forall in *. intros b Hb. apply filter_In in Hb.
    apply Ha, Hb.
Qed.

(** The first match [w0] of [p] is replaced by [f w0], whose key is the key
    of [w0], or equal to it by [===], or is the key of no element. *)
Lemma distinct_assign_first (p : A -> bool) (f : A -> A) (l : list A) (w0 : A) :
  find p l = Some w0 ->
  distinct_by key l ->
  key (f w0) = key w0
  \/ strict_eq (key (f w0)) (key w0) = true
  \/ (forall b, In b l -> strict_eq (key b) (key (f w0)) = false) ->
  distinct_by key (assign_first p f l).
Proof.
  unfold distinct_by. intros Hf Hl Hk. revert Hf Hk.
  induction Hl as [ | a l Ha Hl IH]; simpl; [discriminate | ].
  destruct (p a) eqn:E; intros Hf Hk.
  - injection Hf as ->. constructor; [ | exact Hl].
    rewrite Forall_forall in *. intros b Hb.
    destruct Hk as [Hk | [Hk | Hk]].
    + rewrite Hk. apply Ha, Hb.
    + destruct (strict_eq (key (f w0)) (key b)) eqn:E'; [ | reflexivity].
      rewrite <- (Ha b Hb). symmetry. exact (strict_eq_trans _ _ _ Hk E').
    + rewrite strict_eq_sym. apply Hk. simpl. auto.
  - assert (Hin : In w0 l) by (apply find_some in Hf; tauto).
    constructor.
    + rewrite Forall_forall in Ha.
      assert (Hnew : strict_eq (key a) (key (f w0)) = false).
      { destruct Hk as [Hk | [Hk | Hk]].
        - rewrite Hk. apply Ha, Hin.
        - destruct (strict_eq (key a) (key (f w0))) eqn:E'; [ | reflexivity].
          rewrite <- (Ha w0 Hin). symmetry. rewrite strict_eq_sym in E'.
          rewrite strict_eq_sym. exact (strict_eq_trans _ _ _ Hk E').
        - apply Hk. simpl. auto. }
      apply (Forall_assign_first_found _ p f l w0 Hf); [ | exact Hnew].
      rewrite Forall_forall. exact Ha.
    + apply IH; [exact Hf | ].
      destruct Hk as [Hk | [Hk | Hk]]; auto.
Qed.

(** An update that keeps the key of every element. *)
Lemma distinct_assign_kept (p : A -> bool) (f : A -> A) (l : list A) :
  (forall a, key (f a) = key a) ->
  distinct_by key l -> distinct_by key (assign_first p f l).
Proof.
  unfold distinct_by. intros Hf Hl.
  induction Hl as [ | a l Ha Hl IH]; simpl; [constructor | ].
  destruct (p a).
  - constructor; [ | exact Hl]. rewrite Hf. exact Ha.
  - constructor; [ | exact IH].
    apply Forall_assign_first_kept; [ | exact Ha].
    intros b Hb. rewrite Hf. exact Hb.
Qed.

End Distinct.

(** What [===] holds equal, the predicate of lodash matches. *)
Lemma matches_strict (v o : value) :
  strict_eq o v = true -> matches v o = true.
Proof.
  unfold matches. destruct v as [ | | b | x | s | l | l]; simpl; auto;
    try (destruct o; discriminate).
  destruct x; simpl; auto. destruct o as [ | | b | [ | | | ] | s | l | l];
    discriminate.
Qed.

(** A string matches the fields that are this string, and no other. *)
Lemma matches_VStr (s : string) (o : value) :
  matches (VStr s) o = strict_eq o (VStr s).
Proof. reflexivity. Qed.

Lemma strict_eq_VStr (v : value) (s : string) :
  strict_eq v (VStr s) = true -> v = VStr s.
Proof.
  destruct v; simpl; try discriminate. intros H. apply String.eqb_eq in H.
  congruence.
Qed.

Lemma ledger_snd (m : M reply) (w : world) : snd (ledger m w) = snd (m w).
Proof. unfold ledger, bind, ret. destruct (m w); reflexivity. Qed.

Lemma api_unfold (h : headers) (e : endpoint) (w : world) :
  api h e w =
  if is_public e then dispatch h e w
  else if valid_key (x_service_api_key h) (store w) then dispatch h e w
       else ledger unauthorized w.
Proof.
  unfold api. destruct (is_public e); [reflexivity | ].
  unfold bind, db_get. destruct (valid_key _ _); reflexivity.
Qed.

(** ** Wallet identifiers stay unique *)

Ltac ids_step :=
  match goal with
  | |- distinct_by _ (push _ _) => apply distinct_push
  | |- distinct_by _ (remove _ _) => apply distinct_remove
  | |- distinct_by _ (assign_first _ _ _) =>
      first [ apply distinct_assign_kept; [intros ?; reflexivity | ]
            | eapply distinct_assign_first;
              [eassumption | | left; reflexivity] ]
  end.

Lemma handle_unique_ids (h : headers) (r : route) (w : world) :
  unique_wallet_ids (store w) ->
  unique_wallet_ids (store (snd (handle h r w))).
Proof.
  intros H. open_world w. unfold unique_wallet_ids in *.
  cbv beta iota delta [Db.wallets] in H.
  destruct r; cbn [handle].
  - unfold post_wallet. run_api. api_cases. ids_step; [assumption | ].
    intros a Ha.
    match goal with
    | E : find (has_walletId _) _ = None |- _ =>
        pose proof (find_none _ _ E a Ha) as Hn
    end.
    cbn [Wallet.walletId]. destruct (strict_eq _ _) eqn:Es; [ | reflexivity].
    apply matches_strict in Es. unfold has_walletId in Hn. congruence.
  - unfold put_wallet. run_api. api_cases. all: repeat ids_step; assumption.
  - unfold delete_wallet. run_api. api_cases. all: ids_step; assumption.
  - unfold credit. run_api. api_cases. all: repeat ids_step; assumption.
  - unfold debit. run_api. api_cases. all: repeat ids_step; assumption.
  - unfold transfer. run_api. api_cases.
    all: repeat ids_step; assumption.
Qed.

Lemma found_walletId (s : string) (l : list Wallet.t) (w0 : Wallet.t) :
  find (has_walletId (VStr s)) l = Some w0 -> Wallet.walletId w0 = VStr s.
Proof.
  intros H. apply find_some in H. destruct H as [_ H].
  apply strict_eq_VStr. exact H.
Qed.

Lemma found_bankId (s : string) (l : list Bank.t) (b0 : Bank.t) :
  find (has_bankId (VStr s)) l = Some b0 -> Bank.bankId b0 = VStr s.
Proof.
  intros H. apply find_some in H. destruct H as [_ H].
  apply strict_eq_VStr. exact H.
Qed.

Lemma patch_wallet_unique_ids (walletId : string) (p : WalletPatch.t) (w : world) :
  unique_wallet_ids (store w) ->
  unique_wallet_ids (store (snd (patch_wallet walletId p w))).
Proof.
  intros H. open_world w. unfold unique_wallet_ids in *.
  cbv beta iota delta [Db.wallets] in H.
  unfold patch_wallet. run_api. api_cases.
  eapply distinct_assign_first; [eassumption | assumption | ].
  left. cbn [Wallet.walletId]. symmetry. eapply found_walletId. eassumption.
Qed.

(** What the bank handlers and the reads leave alone. *)
Lemma dispatch_keeps_wallets (h : headers) (e : endpoint) (w : world) :
  match e with
  | Core _ | PatchWallet _ _ => True
  | _ => Db.wallets (store (snd (dispatch h e w))) = Db.wallets (store w)
  end.
Proof.
  open_world w. destruct e; cbn [dispatch]; trivial.
  all: unfold post_bank, get_banks, get_bank, put_bank, patch_bank,
         delete_bank, get_wallets, get_wallet, get_bank_wallets,
         get_bank_transactions, get_balance.
  all: run_api; api_cases; reflexivity.
Qed.

Lemma dispatch_unique_ids (h : headers) (e : endpoint) (w : world) :
  unique_wallet_ids (store w) ->
  unique_wallet_ids (store (snd (dispatch h e w))).
Proof.
  intros H. pose proof (dispatch_keeps_wallets h e w) as K.
  destruct e; try (unfold unique_wallet_ids; rewrite K; exact H).
  - cbn [dispatch]. rewrite ledger_snd. apply handle_unique_ids, H.
  - apply patch_wallet_unique_ids, H.
Qed.

Lemma api_unique_ids (h : headers) (e : endpoint) (w : world) :
  unique_wallet_ids (store w) ->
  unique_wallet_ids (store (snd (api h e w))).
Proof.
  intros H. rewrite api_unfold.
  destruct (is_public e); [apply dispatch_unique_ids, H | ].
  destruct (valid_key _ _); [apply dispatch_unique_ids, H | exact H].
Qed.

(** An invariant of every call is an invariant of every run. *)
Lemma api_run_invariant (Inv : Db.t -> Prop) (ok : endpoint -> bool) :
  (forall h e w, ok e = true -> Inv (store w) -> Inv (store (snd (api h e w)))) ->
  forall calls w,
    Forall (fun c => ok (snd c) = true) calls ->
    Inv (store w) -> Inv (store (snd (api_run calls w))).
Proof.
  intros Hstep calls. induction calls as [ | [h e] calls IH]; intros w Hc Hw.
  - exact Hw.
  - inversion Hc; subst. simpl.
    destruct (api h e w) as [a w'] eqn:E1.
    destruct (api_run calls w') as [l w''] eqn:E2. simpl.
    change w'' with (snd (l, w'')). rewrite <- E2. apply IH; [assumption | ].
    change w' with (snd (a, w')). rewrite <- E1. apply Hstep; assumption.
Qed.

Lemma Forall_firstn {A : Type} (P : A -> Prop) (l : list A) (k : nat) :
  Forall P l -> Forall P (firstn k l).
Proof.
  intros H. revert k. induction H; intros [ | k]; simpl; constructor; auto.
Qed.

(** X1: over any sequence of calls of the routes that server.js defines,
    from a store where no two wallets have the same [walletId], no two
    wallets have the same [walletId] after each call. *)
Theorem wallet_ids_stay_unique (calls : list (headers * endpoint)) (w : world)
  (k : nat) :
  unique_wallet_ids (store w) ->
  unique_wallet_ids (store (snd (api_run (firstn k calls) w))).
Proof.
  intros H.
  apply (api_run_invariant unique_wallet_ids (fun _ => true)); auto.
  - intros h e w' _. apply api_unique_ids.
  - apply Forall_firstn. rewrite Forall_forall. reflexivity.
Qed.

Lemma wallet_ids_stay_unique_witness :
  unique_wallet_ids (store (snd (api_run (firstn 6 session) opening))).
Proof. apply wallet_ids_stay_unique. repeat constructor. Defined.

(** ** Phone numbers stay unique *)

Lemma no_phone (v : value) (l : list Wallet.t) :
  match find (has_phone v) l with Some _ => true | None => false end = false ->
  forall a, In a l -> strict_eq (Wallet.phoneNumber a) v = false.
Proof.
  destruct (find (has_phone v) l) eqn:E; [discriminate | ].
  intros _ a Ha. pose proof (find_none _ _ E a Ha) as Hn.
  destruct (strict_eq _ _) eqn:Es; [ | reflexivity].
  apply matches_strict in Es. unfold has_phone in Hn. congruence.
Qed.

Ltac phones_step :=
  match goal with
  | |- distinct_by _ (remove _ _) => apply distinct_remove
  | |- distinct_by _ (assign_first _ (set_balance _ _) _) =>
      apply distinct_assign_kept; [intros ?; reflexivity | ]
  end.

Lemma handle_unique_phones (h : headers) (r : route) (w : world) :
  unique_phones (store w) -> unique_phones (store (snd (handle h r w))).
Proof.
  intros H. open_world w. unfold unique_phones in *.
  cbv beta iota delta [Db.wallets] in H.
  destruct r; cbn [handle].
  - unfold post_wallet. run_api. api_cases.
    apply distinct_push; [assumption | ]. apply no_phone. assumption.
  - unfold put_wallet. run_api. api_cases.
    all: eapply distinct_assign_first; [eassumption | assumption | ].
    all: cbn [Wallet.phoneNumber].
    all: match goal with
    | E : negb (strict_eq ?p ?q) && _ = false |- _ =>
        apply andb_false_iff in E; destruct E as [E | E];
          [apply negb_false_iff in E; right; left; exact E
          | right; right; apply no_phone; exact E]
    end.
  - unfold delete_wallet. run_api. api_cases. all: phones_step; assumption.
  - unfold credit. run_api. api_cases. all: repeat phones_step; assumption.
  - unfold debit. run_api. api_cases. all: repeat phones_step; assumption.
  - unfold transfer. run_api. api_cases.
    all: repeat phones_step; assumption.
Qed.

Lemma patch_wallet_unique_phones (walletId : string) (p : WalletPatch.t)
  (w : world) :
  match WalletPatch.phoneNumber p with Some v => truthy v | None => true end
  = true ->
  unique_phones (store w) ->
  unique_phones (store (snd (patch_wallet walletId p w))).
Proof.
  intros Hp H. open_world w. unfold unique_phones in *.
  cbv beta iota delta [Db.wallets] in H.
  unfold patch_wallet. run_api. api_cases.
  eapply distinct_assign_first; [eassumption | assumption | ].
  cbn [Wallet.phoneNumber].
  destruct (WalletPatch.phoneNumber p) as [v | ]; cbn [patched given] in *;
    [ | left; reflexivity].
  rewrite Hp in *. cbn [andb] in *.
  match goal with
  | E : negb (strict_eq ?a ?b) && _ = false |- _ =>
      apply andb_false_iff in E; destruct E as [E | E];
        [apply negb_false_iff in E; right; left; exact E
        | right; right; apply no_phone; exact E]
  end.
Qed.

Lemma api_unique_phones (h : headers) (e : endpoint) (w : world) :
  patch_field_ok WalletPatch.phoneNumber e = true ->
  unique_phones (store w) -> unique_phones (store (snd (api h e w))).
Proof.
  intros Hok H.
  assert (D : unique_phones (store (snd (dispatch h e w)))).
  { pose proof (dispatch_keeps_wallets h e w) as K.
    destruct e; try (unfold unique_phones; rewrite K; exact H).
    - cbn [dispatch]. rewrite ledger_snd. apply handle_unique_phones, H.
    - apply patch_wallet_unique_phones; assumption. }
  rewrite api_unfold. destruct (is_public e); [exact D | ].
  destruct (valid_key _ _); [exact D | exact H].
Qed.

(** X2: over any sequence of calls of the routes that server.js defines in
    which every PATCH on a wallet that carries a [phoneNumber] carries a
    truthy one, from a store where no two wallets have the same
    [phoneNumber], no two wallets have the same [phoneNumber] after each
    call. *)
Theorem phone_numbers_stay_unique (calls : list (headers * endpoint))
  (w : world) (k : nat) :
  Forall (fun c => patch_field_ok WalletPatch.phoneNumber (snd c) = true) calls ->
  unique_phones (store w) ->
  unique_phones (store (snd (api_run (firstn k calls) w))).
Proof.
  intros Hc H.
  apply (api_run_invariant unique_phones
           (patch_field_ok WalletPatch.phoneNumber)); auto.
  - intros h e w'. apply api_unique_phones.
  - apply Forall_firstn. exact Hc.
Qed.

Lemma phone_numbers_stay_unique_witness :
  unique_phones (store (snd (api_run (firstn 6 session) opening))).
Proof.
  apply phone_numbers_stay_unique.
  - repeat constructor.
  - repeat constructor.
Defined.

(** ** Banks: unique identifiers, and a bank behind every wallet *)

Lemma handle_keeps_banks (h : headers) (r : route) (w : world) :
  Db.banks (store (snd (handle h r w))) = Db.banks (store w)
  /\ Db.apiKeys (store (snd (handle h r w))) = Db.apiKeys (store w).
Proof.
  open_world w. destruct r; cbn [handle].
  - unfold post_wallet. run_api. api_cases; split; reflexivity.
  - unfold put_wallet. run_api. api_cases; split; reflexivity.
  - unfold delete_wallet. run_api. api_cases; split; reflexivity.
  - unfold credit. run_api. api_cases; split; reflexivity.
  - unfold debit. run_api. api_cases; split; reflexivity.
  - unfold transfer. run_api. api_cases; split; reflexivity.
Qed.

Lemma dispatch_keeps_banks (h : headers) (e : endpoint) (w : world) :
  match e with
  | PostBank _ | PutBank _ _ | PatchBank _ _ | DeleteBank _ => True
  | _ => Db.banks (store (snd (dispatch h e w))) = Db.banks (store w)
  end.
Proof.
  destruct e; cbn [dispatch]; trivial;
    try (rewrite ledger_snd; apply handle_keeps_banks).
  all: open_world w.
  all: unfold get_banks, get_bank, get_wallets, get_wallet, patch_wallet,
         get_bank_wallets, get_bank_transactions, get_balance.
  all: run_api; api_cases; reflexivity.
Qed.

Lemma dispatch_unique_bank_ids (h : headers) (e : endpoint) (w : world) :
  unique_bank_ids (store w) ->
  unique_bank_ids (store (snd (dispatch h e w))).
Proof.
  intros H. pose proof (dispatch_keeps_banks h e w) as K.
  destruct e; try (unfold unique_bank_ids; rewrite K; exact H); clear K.
  all: open_world w; unfold unique_bank_ids in *;
    cbv beta iota delta [Db.banks] in H; cbn [dispatch].
  - unfold post_bank. run_api. api_cases.
    apply distinct_push; [assumption | ]. intros a Ha.
    match goal with
    | E : find (has_bankId _) _ = None |- _ =>
        pose proof (find_none _ _ E a Ha) as Hn
    end.
    cbn [Bank.bankId]. destruct (strict_eq _ _) eqn:Es; [ | reflexivity].
    apply matches_strict in Es. unfold has_bankId in Hn. congruence.
  - unfold put_bank. run_api. api_cases.
    eapply distinct_assign_first; [eassumption | assumption | left; reflexivity].
  - unfold patch_bank. run_api. api_cases.
    eapply distinct_assign_first; [eassumption | assumption | ].
    left. cbn [Bank.bankId]. symmetry. eapply found_bankId. eassumption.
  - unfold delete_bank. run_api. api_cases.
    apply distinct_remove. assumption.
Qed.

(** X3: over any sequence of calls of the routes that server.js defines,
    from a store where no two banks have the same [bankId], no two banks
    have the same [bankId] after each call. *)
Theorem bank_ids_stay_unique (calls : list (headers * endpoint)) (w : world)
  (k : nat) :
  unique_bank_ids (store w) ->
  unique_bank_ids (store (snd (api_run (firstn k calls) w))).
Proof.
  intros H.
  apply (api_run_invariant unique_bank_ids (fun _ => true)); auto.
  - intros h e w' _ Hw. rewrite api_unfold.
    destruct (is_public e); [apply dispatch_unique_bank_ids, Hw | ].
    destruct (valid_key _ _); [apply dispatch_unique_bank_ids, Hw | exact Hw].
  - apply Forall_firstn. rewrite Forall_forall. reflexivity.
Qed.

Lemma bank_ids_stay_unique_witness :
  unique_bank_ids (store (snd (api_run (firstn 6 session) opening))).
Proof. apply bank_ids_stay_unique. repeat constructor. Defined.

Lemma has_bank_found (v : value) (banks : list Bank.t) (b : Bank.t)
  (w : Wallet.t) :
  find (has_bankId v) banks = Some b -> Wallet.bankId w = v ->
  has_bank banks w = true.
Proof.
  intros Hf <-. apply find_some in Hf. destruct Hf as [Hin Hb].
  unfold has_bank. apply existsb_exists. exists b. split; assumption.
Qed.

Lemma has_bank_push (x : Bank.t) (banks : list Bank.t) (w : Wallet.t) :
  has_bank banks w = true -> has_bank (push x banks) w = true.
Proof.
  unfold has_bank, push. rewrite existsb_app. intros ->. reflexivity.
Qed.

Lemma has_bank_assign (p : Bank.t -> bool) (f : Bank.t -> Bank.t)
  (banks : list Bank.t) (b0 : Bank.t) (w : Wallet.t) :
  find p banks = Some b0 -> Bank.bankId (f b0) = Bank.bankId b0 ->
  has_bank banks w = true -> has_bank (assign_first p f banks) w = true.
Proof.
  unfold has_bank, has_bankId. intros Hf Hk. revert Hf.
  induction banks as [ | a l IH]; simpl; [discriminate | ].
  destruct (p a) eqn:E; intros Hf; simpl.
  - injection Hf as ->. rewrite Hk. trivial.
  - destruct (matches (Wallet.bankId w) (Bank.bankId a)); simpl; auto.
Qed.

(** Only a string matches a field that holds a string. *)
Lemma matches_a_string (v : value) (s : string) :
  matches v (VStr s) = true -> strict_eq v (VStr s) = true.
Proof.
  unfold matches.
  destruct v as [ | | b | x | t | l | l]; simpl; try discriminate.
  - destruct x; discriminate.
  - rewrite String.eqb_sym. trivial.
Qed.

Lemma has_bank_remove (s : string) (banks : list Bank.t) (w : Wallet.t) :
  strict_eq (Wallet.bankId w) (VStr s) = false ->
  has_bank banks w = true ->
  has_bank (remove (has_bankId (VStr s)) banks) w = true.
Proof.
  unfold has_bank, remove. intros Hw H.
  apply existsb_exists in H. destruct H as (b & Hin & Hb).
  apply existsb_exists. exists b. split; [ | exact Hb].
  apply filter_In. split; [exact Hin | ].
  destruct (has_bankId (VStr s) b) eqn:E; [ | reflexivity].
  apply strict_eq_VStr in E. unfold has_bankId in Hb. rewrite E in Hb.
  apply matches_a_string in Hb. congruence.
Qed.

Lemma handle_wallets_have_banks (h : headers) (r : route) (w : world) :
  wallets_have_banks (store w) ->
  wallets_have_banks (store (snd (handle h r w))).
Proof.
  intros H. open_world w. unfold wallets_have_banks in *.
  cbv beta iota delta [Db.wallets Db.banks] in H.
  destruct r; cbn [handle].
  - unfold post_wallet. run_api. api_cases.
    apply Forall_push; [ | assumption].
    eapply has_bank_found; [eassumption | reflexivity].
  - unfold put_wallet. run_api. api_cases.
    all: apply Forall_assign_first; [ | assumption]; intros a _ _.
    all: eapply has_bank_found; [eassumption | reflexivity].
  - unfold delete_wallet. run_api. api_cases.
    all: apply Forall_remove; assumption.
  - unfold credit. run_api. api_cases.
    all: apply Forall_assign_first_kept; [intros a Ha; exact Ha | assumption].
  - unfold debit. run_api. api_cases.
    all: apply Forall_assign_first_kept; [intros a Ha; exact Ha | assumption].
  - unfold transfer. run_api. api_cases.
    all: repeat (apply Forall_assign_first_kept; [intros a Ha; exact Ha | ]).
    all: assumption.
Qed.

Lemma patch_wallet_have_banks (walletId : string) (p : WalletPatch.t) (w : world) :
  match WalletPatch.bankId p with Some v => truthy v | None => true end = true ->
  wallets_have_banks (store w) ->
  wallets_have_banks (store (snd (patch_wallet walletId p w))).
Proof.
  intros Hp H. open_world w. unfold wallets_have_banks in *.
  cbv beta iota delta [Db.wallets Db.banks] in H.
  unfold patch_wallet. run_api. api_cases.
  eapply Forall_assign_first_found; [eassumption | assumption | ].
  destruct (WalletPatch.bankId p) as [v | ]; cbn [patched given] in *.
  - rewrite Hp in *. cbn [andb] in *.
    destruct (find (has_bankId v) banks) as [b0 | ] eqn:E; [ | discriminate].
    eapply has_bank_found; [exact E | reflexivity].
  - match goal with
    | E : find (has_walletId _) _ = Some ?t |- _ =>
        apply find_some in E; destruct E as [E _];
          rewrite Forall_forall in H; exact (H t E)
    end.
Qed.

Lemma dispatch_wallets_have_banks (h : headers) (e : endpoint) (w : world) :
  patch_field_ok WalletPatch.bankId e = true ->
  wallets_have_banks (store w) ->
  wallets_have_banks (store (snd (dispatch h e w))).
Proof.
  intros Hok H.
  pose proof (dispatch_keeps_wallets h e w) as Kw.
  pose proof (dispatch_keeps_banks h e w) as Kb.
  destruct e;
    try (unfold wallets_have_banks; rewrite Kw, Kb; exact H); clear Kb.
  - cbn [dispatch]. rewrite ledger_snd. apply handle_wallets_have_banks, H.
  - unfold wallets_have_banks in *. rewrite Kw. clear Kw. open_world w.
    cbn [dispatch]. unfold post_bank. run_api. api_cases.
    eapply Forall_impl; [ | exact H]. intros a. apply has_bank_push.
  - unfold wallets_have_banks in *. rewrite Kw. clear Kw. open_world w.
    cbn [dispatch]. unfold put_bank. run_api. api_cases.
    eapply Forall_impl; [ | exact H]. intros a.
    eapply has_bank_assign; [eassumption | reflexivity].
  - unfold wallets_have_banks in *. rewrite Kw. clear Kw. open_world w.
    cbn [dispatch]. unfold patch_bank. run_api. api_cases.
    eapply Forall_impl; [ | exact H]. intros a.
    eapply has_bank_assign; [eassumption | ].
    cbn [Bank.bankId]. symmetry. eapply found_bankId. eassumption.
  - unfold wallets_have_banks in *. rewrite Kw. clear Kw. open_world w.
    cbn [dispatch]. unfold delete_bank. run_api. api_cases.
    match goal with
    | E : existsb (in_bank _) _ = false |- _ =>
        rewrite Forall_forall in *; intros a Ha;
          apply has_bank_remove; [ | exact (H a Ha)];
          destruct (strict_eq (Wallet.bankId a) (VStr bankId)) eqn:E';
          [ | reflexivity];
          assert (X : existsb (in_bank bankId) wallets = true)
            by (apply existsb_exists; exists a; split; assumption);
          congruence
    end.
  - apply patch_wallet_have_banks; assumption.
Qed.

(** X4: over any sequence of calls of the routes that server.js defines in
    which every PATCH on a wallet that carries a [bankId] carries a truthy
    one, from a store where the bank of every wallet exists, the bank of
    every wallet exists after each call: a wallet is created or moved only
    under an existing bank, and a bank is deleted only when no wallet refers
    to it. *)
Theorem wallets_keep_their_banks (calls : list (headers * endpoint))
  (w : world) (k : nat) :
  Forall (fun c => patch_field_ok WalletPatch.bankId (snd c) = true) calls ->
  wallets_have_banks (store w) ->
  wallets_have_banks (store (snd (api_run (firstn k calls) w))).
Proof.
  intros Hc H.
  apply (api_run_invariant wallets_have_banks
           (patch_field_ok WalletPatch.bankId)); auto.
  - intros h e w' Hok Hw. rewrite api_unfold.
    destruct (is_public e); [apply dispatch_wallets_have_banks; assumption | ].
    destruct (valid_key _ _);
      [apply dispatch_wallets_have_banks; assumption | exact Hw].
  - apply Forall_firstn. exact Hc.
Qed.

Lemma wallets_keep_their_banks_witness :
  wallets_have_banks (store (snd (api_run (firstn 12 session) opening))).
Proof.
  apply wallets_keep_their_banks.
  - repeat constructor.
  - repeat constructor.
Defined.

(** ** Creating, finding and deleting a wallet *)

(** Induction on a value and on the values it holds. *)
Lemma value_induction (P : value -> Prop) :
  P VUndefined -> P VNull -> (forall b, P (VBool b)) ->
  (forall x, P (VNum x)) -> (forall s, P (VStr s)) ->
  (forall l, Forall P l -> P (VArr l)) ->
  (forall l, Forall (fun kv => P (snd kv)) l -> P (VObj l)) ->
  forall v, P v.
Proof.
  intros H1 H2 H3 H4 H5 HA HO. fix IH 1.
  intros [ | | b | x | s | l | l];
    [exact H1 | exact H2 | apply H3 | apply H4 | apply H5 | | ].
  - apply HA. induction l as [ | x l IHl]; constructor; [apply IH | exact IHl].
  - apply HO. induction l as [ | [k x] l IHl]; constructor;
      [apply IH | exact IHl].
Qed.

Lemma own_found (k : string) (x : value) (l : list (string * value)) :
  (fix each (l : list (string * value)) : bool :=
     match l with
     | [] => true
     | (k, x) :: l' =>
         match own k l' with
         | Some _ => false
         | None => true
         end
         && well_formed x && each l'
     end) l = true ->
  In (k, x) l -> own k l = Some x.
Proof.
  induction l as [ | [k' x'] l IH]; simpl; [contradiction | ].
  intros H [E | Hin].
  - injection E as -> ->. rewrite String.eqb_refl. reflexivity.
  - apply andb_true_iff in H. destruct H as [H H3].
    apply andb_true_iff in H. destruct H as [H1 H2].
    destruct (String.eqb k' k) eqn:E; [ | exact (IH H3 Hin)].
    apply String.eqb_eq in E. subst k'. rewrite (IH H3 Hin) in H1.
    discriminate.
Qed.

(** A value is a partial match of itself. *)
Lemma partial_eq_refl (v : value) :
  well_formed v = true -> partial_eq v v = true.
Proof.
  revert v.
  apply (value_induction
           (fun v => well_formed v = true -> partial_eq v v = true));
    [ | | intros [ | ] | intros x | intros s | intros l IH | intros l IH];
    try reflexivity.
  - intros _. simpl. destruct x as [[ | ] | [ | ] | | [ | ] m e]; simpl;
      try reflexivity; rewrite orb_false_r; apply Qeq_bool_iff; reflexivity.
  - intros _. simpl. rewrite String.eqb_refl. reflexivity.
  - intros Hw. cbn [partial_eq well_formed] in *.
    rewrite Nat.leb_refl. cbn [andb].
    induction l as [ | x l IHl]; [reflexivity | ].
    inversion IH as [ | ? ? Hx Hl]; subst.
    cbn [forallb] in Hw. apply andb_true_iff in Hw. destruct Hw as [W1 W2].
    cbn [take_first]. rewrite (Hx W1). apply IHl; assumption.
  - intros Hw. cbn [partial_eq].
    assert (G : forall a,
              (forall k x, In (k, x) a ->
                 own k l = Some x /\ partial_eq x x = true) ->
              (fix fields (a : list (string * value)) : bool :=
                 match a with
                 | [] => true
                 | (k, x) :: a' =>
                     match own k l with
                     | Some y => partial_eq x y
                     | None => inherited k x
                     end
                     && fields a'
                 end) a = true).
    { induction a as [ | [k x] a IHa]; intros Ha; [reflexivity | ].
      destruct (Ha k x (or_introl eq_refl)) as [-> ->]. cbn [andb].
      apply IHa. intros k' x' Hin. apply Ha. right. exact Hin. }
    apply G. intros k x Hin. split; [exact (own_found k x l Hw Hin) | ].
    rewrite Forall_forall in IH. apply (IH (k, x) Hin).
    clear - Hw Hin. induction l as [ | [k' x'] l IHl]; [contradiction | ].
    cbn [well_formed] in Hw.
    apply andb_true_iff in Hw. destruct Hw as [Hw H3].
    apply andb_true_iff in Hw. destruct Hw as [H1 H2].
    destruct Hin as [E | Hin]; [injection E as -> ->; exact H2 | ].
    apply IHl; assumption.
Qed.

(** The predicate that lodash makes of a value accepts that value. *)
Lemma matches_refl (v : value) :
  well_formed v = true -> matches v v = true.
Proof.
  intros Hw. unfold matches. destruct (strict_comparable v) eqn:E;
    [ | apply partial_eq_refl, Hw].
  destruct v as [ | | [ | ] | x | s | l | l]; try discriminate;
    try reflexivity.
  - destruct x as [[ | ] | [ | ] | | [ | ] m e]; simpl; try discriminate;
      try reflexivity; apply Qeq_bool_iff; reflexivity.
  - apply String.eqb_refl.
Qed.

Lemma find_push_new {A : Type} (p : A -> bool) (x : A) (l : list A) :
  find p l = None -> find p (push x l) = if p x then Some x else None.
Proof.
  unfold push. induction l as [ | a l IH]; simpl; [reflexivity | ].
  destruct (p a); [discriminate | exact IH].
Qed.

Lemma find_push_other {A : Type} (p : A -> bool) (x : A) (l : list A) :
  p x = false -> find p (push x l) = find p l.
Proof.
  unfold push. intros Hx. induction l as [ | a l IH]; simpl.
  - rewrite Hx. reflexivity.
  - destruct (p a); [reflexivity | exact IH].
Qed.

Lemma find_remove_same {A : Type} (p : A -> bool) (l : list A) :
  find p (remove p l) = None.
Proof.
  unfold remove. induction l as [ | a l IH]; simpl; [reflexivity | ].
  destruct (p a) eqn:E; simpl; [exact IH | ]. rewrite E. exact IH.
Qed.

Lemma find_remove_other {A : Type} (p q : A -> bool) (l : list A) :
  (forall a, q a = true -> p a = false) ->
  find q (remove p l) = find q l.
Proof.
  unfold remove. intros H. induction l as [ | a l IH]; simpl; [reflexivity | ].
  destruct (q a) eqn:Eq.
  - rewrite (H a Eq). simpl. rewrite Eq. reflexivity.
  - destruct (p a); simpl; [exact IH | ]. rewrite Eq. exact IH.
Qed.

(** X5: a POST /wallet whose five fields are truthy, under an existing bank,
    with an identifier and a phone number that no wallet has, is answered 201
    with a wallet of balance 0 and status ACTIVE; the identifier then
    resolves to that wallet, the wallets that were there are still there
    in their order, no transaction is written, and the same request sent
    again is refused with WALLET_ALREADY_EXISTS.  The identifier is any JSON
    value that a message can print. *)
Theorem created_wallet_is_found (b : WalletCreate.t) (w : world) :
  wallet_fields_ok b = true ->
  well_formed (WalletCreate.walletId b) = true ->
  to_string (WalletCreate.walletId b) <> None ->
  find (has_bankId (WalletCreate.bankId b)) (Db.banks (store w)) <> None ->
  find (has_walletId (WalletCreate.walletId b)) (Db.wallets (store w)) = None ->
  find (has_phone (WalletCreate.phoneNumber b)) (Db.wallets (store w)) = None ->
  let out := post_wallet b w in
  exists wallet,
    fst out = Reply 201 (BWallet wallet)
    /\ Wallet.walletId wallet = WalletCreate.walletId b
    /\ Wallet.bankId wallet = WalletCreate.bankId b
    /\ Wallet.phoneNumber wallet = WalletCreate.phoneNumber b
    /\ Wallet.balance wallet = VNum zero
    /\ Wallet.status wallet = VStr "ACTIVE"
    /\ Db.wallets (store (snd out)) = push wallet (Db.wallets (store w))
    /\ find (has_walletId (WalletCreate.walletId b)) (Db.wallets (store (snd out)))
       = Some wallet
    /\ Db.transactions (store (snd out)) = Db.transactions (store w)
    /\ error_of (fst (post_wallet b (snd out)))
       = Some (409, "WALLET_ALREADY_EXISTS").
Proof.
  intros Hf Hwf Hs Hb Hw Hp out. subst out. open_world w.
  unfold wallet_fields_ok in Hf.
  destruct (truthy (WalletCreate.walletId b)) eqn:T1; try discriminate.
  destruct (truthy (WalletCreate.bankId b)) eqn:T2; try discriminate.
  destruct (truthy (WalletCreate.ownerId b)) eqn:T3; try discriminate.
  destruct (truthy (WalletCreate.ownerName b)) eqn:T4; try discriminate.
  destruct (truthy (WalletCreate.phoneNumber b)) eqn:T5; try discriminate.
  destruct (find (has_bankId (WalletCreate.bankId b)) banks) as [bank | ] eqn:Eb;
    [ | congruence].
  destruct (to_string (WalletCreate.walletId b)) as [text | ] eqn:Et;
    [ | congruence].
  unfold post_wallet. run_api. rewrite T1, T2, T3, T4, T5. cbn [negb orb].
  rewrite Eb, Hw, Hp. run_api.
  eexists. split; [reflexivity | ]. repeat split.
  - rewrite (find_push_new _ _ _ Hw). unfold has_walletId at 1.
    cbn [Wallet.walletId]. rewrite (matches_refl _ Hwf). reflexivity.
  - rewrite Eb. run_api. rewrite (find_push_new _ _ _ Hw).
    unfold has_walletId at 1. cbn [Wallet.walletId].
    rewrite (matches_refl _ Hwf), Et. reflexivity.
Qed.

Lemma created_wallet_is_found_witness :
  exists wallet,
    fst (post_wallet wallet_three opening) = Reply 201 (BWallet wallet)
    /\ find (has_walletId (VStr "WALLET-003"))
         (Db.wallets (store (snd (post_wallet wallet_three opening))))
       = Some wallet
    /\ error_of (fst (post_wallet wallet_three
                        (snd (post_wallet wallet_three opening))))
       = Some (409, "WALLET_ALREADY_EXISTS").
Proof.
  destruct (created_wallet_is_found wallet_three opening) as (u & H);
    [reflexivity | reflexivity | discriminate | discriminate | reflexivity
    | reflexivity | ].
  exists u. cbv zeta in H. intuition.
Defined.

Lemma filter_remove_other (v : value) (s : string) (l : list Txn.t) :
  strict_eq v (VStr s) = false ->
  filter (txn_of_wallet v) (remove (txn_of_wallet (VStr s)) l)
  = filter (txn_of_wallet v) l.
Proof.
  intros Hv. unfold remove. induction l as [ | t l IH]; simpl; [reflexivity | ].
  destruct (txn_of_wallet (VStr s) t) eqn:E1, (txn_of_wallet v t) eqn:E2; simpl;
    rewrite ?E2, ?IH; try reflexivity.
  unfold txn_of_wallet in E1, E2. apply strict_eq_VStr in E1.
  rewrite E1 in E2. apply matches_a_string in E2. congruence.
Qed.

(** A string names the wallets whose identifier it is, and an identifier
    that is not this string resolves to none of them. *)
Lemma has_walletId_apart (v : value) (s : string) (w : Wallet.t) :
  strict_eq v (VStr s) = false -> has_walletId (VStr s) w = true ->
  has_walletId v w = false.
Proof.
  intros Hv Hs. apply strict_eq_VStr in Hs. unfold has_walletId.
  rewrite Hs. destruct (matches v (VStr s)) eqn:E; [ | reflexivity].
  apply matches_a_string in E. congruence.
Qed.

(** X6: DELETE /wallet/:walletId on a wallet that exists is refused with
    WALLET_BALANCE_NOT_ZERO, and writes nothing, unless the balance is
    [=== 0]; then it is answered 204, the identifier resolves to nothing,
    no transaction of that wallet is left, and every other identifier
    resolves as before. *)
Theorem wallet_deleted_only_at_zero (walletId : string) (w : world)
  (wallet : Wallet.t) :
  find (has_walletId (VStr walletId)) (Db.wallets (store w)) = Some wallet ->
  let out := delete_wallet walletId w in
  (strict_eq (Wallet.balance wallet) (VNum zero) = false ->
   error_of (fst out) = Some (409, "WALLET_BALANCE_NOT_ZERO")
   /\ store (snd out) = store w)
  /\ (strict_eq (Wallet.balance wallet) (VNum zero) = true ->
      fst out = Reply 204 BEmpty
      /\ find (has_walletId (VStr walletId)) (Db.wallets (store (snd out)))
         = None
      /\ find (txn_of_wallet (VStr walletId)) (Db.transactions (store (snd out)))
         = None
      /\ (forall v, strict_eq v (VStr walletId) = false ->
          find (has_walletId v) (Db.wallets (store (snd out)))
          = find (has_walletId v) (Db.wallets (store w))
          /\ filter (txn_of_wallet v) (Db.transactions (store (snd out)))
             = filter (txn_of_wallet v) (Db.transactions (store w)))).
Proof.
  intros Hw out. subst out. open_world w.
  unfold delete_wallet. run_api. rewrite Hw.
  split; intros Hz; rewrite Hz; cbv beta iota delta [negb]; run_api.
  - split; reflexivity.
  - split; [reflexivity | ]. split; [apply find_remove_same | ].
    split; [apply find_remove_same | ].
    intros v Hv. split.
    + apply find_remove_other. intros a Ha.
      destruct (has_walletId (VStr walletId) a) eqn:E; [ | reflexivity].
      rewrite (has_walletId_apart _ _ _ Hv E) in Ha. discriminate.
    + apply filter_remove_other. exact Hv.
Qed.

Lemma wallet_deleted_only_at_zero_witness :
  let w := sample_world (two_wallets zero (of_Z 2000)) [] in
  fst (delete_wallet "WALLET-001" w) = Reply 204 BEmpty
  /\ error_of (fst (delete_wallet "WALLET-002" w))
     = Some (409, "WALLET_BALANCE_NOT_ZERO").
Proof.
  cbv zeta. split.
  - apply (wallet_deleted_only_at_zero "WALLET-001"
             (sample_world (two_wallets zero (of_Z 2000)) [])
             (sample_wallet 1 "WALLET-001" "+221771234567" zero) eq_refl).
    reflexivity.
  - apply (wallet_deleted_only_at_zero "WALLET-002"
             (sample_world (two_wallets zero (of_Z 2000)) [])
             (sample_wallet 2 "WALLET-002" "+221771234568" (of_Z 2000))
             eq_refl).
    reflexivity.
Defined.

(** ** A request changes the wallets it names, and no other *)

Lemma filter_assign_first_out {A : Type} (q p : A -> bool) (f : A -> A)
  (l : list A) :
  (forall a, p a = true -> q a = false /\ q (f a) = false) ->
  filter q (assign_first p f l) = filter q l.
Proof.
  intros H. induction l as [ | a l IH]; simpl; [reflexivity | ].
  destruct (p a) eqn:E; simpl.
  - destruct (H a E) as [-> ->]. reflexivity.
  - rewrite IH. reflexivity.
Qed.

Lemma filter_remove_out {A : Type} (q p : A -> bool) (l : list A) :
  (forall a, p a = true -> q a = false) ->
  filter q (remove p l) = filter q l.
Proof.
  intros H. unfold remove. induction l as [ | a l IH]; simpl; [reflexivity | ].
  destruct (p a) eqn:E; simpl.
  - rewrite (H a E). exact IH.
  - rewrite IH. reflexivity.
Qed.

Lemma filter_push_out {A : Type} (q : A -> bool) (x : A) (l : list A) :
  q x = false -> filter q (push x l) = filter q l.
Proof.
  intros H. unfold push. rewrite filter_app. simpl. rewrite H.
  apply app_nil_r.
Qed.

Lemma find_filter {A : Type} (p q : A -> bool) (l : list A) :
  (forall a, p a = true -> q a = true) ->
  find p (filter q l) = find p l.
Proof.
  intros H. induction l as [ | a l IH]; simpl; [reflexivity | ].
  destruct (q a) eqn:Eq; simpl.
  - destruct (p a); [reflexivity | exact IH].
  - destruct (p a) eqn:Ep; [ | exact IH]. rewrite (H a Ep) in Eq.
    discriminate.
Qed.

(** A wallet that an identifier of the request resolves to is not left
    out. *)
Lemma named_is_not_unnamed (r : route) (t : value) (w : Wallet.t) :
  In t (named_wallets r) -> has_walletId t w = true -> unnamed r w = false.
Proof.
  intros Hin Ht. unfold unnamed.
  destruct (forallb _ _) eqn:E; [ | reflexivity].
  rewrite forallb_forall in E. specialize (E t Hin). rewrite Ht in E.
  discriminate.
Qed.

Ltac is_named :=
  match goal with
  | |- unnamed ?r _ = false =>
      first
        [ eapply (named_is_not_unnamed r); [left; reflexivity | eassumption]
        | eapply (named_is_not_unnamed r);
          [right; left; reflexivity | eassumption] ]
  end.

(** X7: after a POST, PUT or DELETE of a wallet, a credit, a debit or a
    transfer, the wallets that no identifier of the request resolves to are
    the wallets that were there, field for field and in their order; so an
    identifier that resolves to none of the wallets that the request names
    resolves to the wallet it resolved to before.  The identifier of a POST
    is any JSON value. *)
Theorem only_named_wallets_change (h : headers) (r : route) (w : world) :
  Forall (fun t => well_formed t = true) (named_wallets r) ->
  let after := Db.wallets (store (snd (handle h r w))) in
  filter (unnamed r) after = filter (unnamed r) (Db.wallets (store w))
  /\ (forall v,
        (forall w0, has_walletId v w0 = true -> unnamed r w0 = true) ->
        find (has_walletId v) after
        = find (has_walletId v) (Db.wallets (store w))).
Proof.
  intros Hwf after.
  assert (F : filter (unnamed r) after
              = filter (unnamed r) (Db.wallets (store w))).
  { subst after. open_world w.
    destruct r; cbn [handle].
    - unfold post_wallet. run_api. api_cases; try reflexivity.
      apply filter_push_out. inversion Hwf as [ | x l Hx _]; subst.
      eapply (named_is_not_unnamed (PostWallet b)); [left; reflexivity | ].
      unfold has_walletId. cbn [Wallet.walletId]. apply matches_refl, Hx.
    - unfold put_wallet. run_api. api_cases; try reflexivity.
      all: apply filter_assign_first_out; intros a Ha.
      all: split; [is_named | ].
      all: eapply (named_is_not_unnamed (PutWallet walletId b));
        [left; reflexivity | ].
      all: match goal with
           | E : find (has_walletId (VStr _)) _ = Some ?t |- _ =>
               apply find_some in E; destruct E as [_ E]; exact E
           end.
    - unfold delete_wallet. run_api. api_cases; try reflexivity.
      apply filter_remove_out. intros a Ha. is_named.
    - unfold credit. run_api. api_cases; try reflexivity.
      all: apply filter_assign_first_out; intros a Ha.
      all: split; is_named.
    - unfold debit. run_api. api_cases; try reflexivity.
      all: apply filter_assign_first_out; intros a Ha.
      all: split; is_named.
    - unfold transfer. run_api. api_cases; try reflexivity.
      all: rewrite filter_assign_first_out;
        [ | intros a Ha; split; is_named].
      all: apply filter_assign_first_out; intros a Ha.
      all: split; is_named. }
  split; [exact F | ]. intros v Hv.
  rewrite <- (find_filter (has_walletId v) (unnamed r) after Hv).
  rewrite <- (find_filter (has_walletId v) (unnamed r)
                (Db.wallets (store w)) Hv).
  rewrite F. reflexivity.
Qed.

(** A credit on WALLET-001 leaves WALLET-002 as it was. *)
Lemma only_named_wallets_change_witness :
  let r := PostCredit "WALLET-001" (op (of_Z 3000) "CREDIT-001") in
  let after := Db.wallets (store (snd (handle (gateway None) r opening))) in
  filter (unnamed r) after
  = [sample_wallet 2 "WALLET-002" "+221771234568" (of_Z 2000)]
  /\ find (has_walletId (VStr "WALLET-002")) after
     = Some (sample_wallet 2 "WALLET-002" "+221771234568" (of_Z 2000)).
Proof.
  destruct (only_named_wallets_change (gateway None)
              (PostCredit "WALLET-001" (op (of_Z 3000) "CREDIT-001")) opening)
    as [F G]; [repeat constructor | ].
  cbv zeta in *. split.
  - rewrite F. reflexivity.
  - rewrite (G (VStr "WALLET-002")); [reflexivity | ].
    intros w0 H0. apply strict_eq_VStr in H0. unfold unnamed, has_walletId.
    cbn [named_wallets forallb]. rewrite H0. reflexivity.
Defined.

(** ** Credit and debit, read back *)

(** A credit that is answered 200 has written the balance it answers. *)
Lemma credit_done (walletId : string) (b : Operation.t) (w : world) :
  code (fst (credit walletId b w)) = 200 ->
  exists after,
    reported_balance (fst (credit walletId b w)) = Some after
    /\ balance_of (VStr walletId) (store (snd (credit walletId b w)))
       = Some (VNum after).
Proof.
  open_world w. unfold credit, balance_of, reported_balance. run_api.
  api_cases; try (intros H; discriminate H).
  intros _. eexists. split; [reflexivity | ].
  eapply balance_after_assign. eassumption.
Qed.

(** A debit that is answered 200 has written the balance it answers. *)
Lemma debit_done (walletId : string) (b : Operation.t) (w : world) :
  code (fst (debit walletId b w)) = 200 ->
  exists after,
    reported_balance (fst (debit walletId b w)) = Some after
    /\ balance_of (VStr walletId) (store (snd (debit walletId b w)))
       = Some (VNum after).
Proof.
  open_world w. unfold debit, balance_of, reported_balance. run_api.
  api_cases; try (intros H; discriminate H).
  intros _. eexists. split; [reflexivity | ].
  eapply balance_after_assign. eassumption.
Qed.

Lemma get_balance_reads (walletId : string) (w : world) :
  read_balance (fst (get_balance walletId w))
  = balance_of (VStr walletId) (store w)
  /\ snd (get_balance walletId w)
     = match balance_of (VStr walletId) (store w) with
       | Some _ => w
       | None => World (store w) (clock w) (S (ticks w))
       end.
Proof.
  open_world w. unfold get_balance, balance_of. run_api.
  destruct (find _ _); split; reflexivity.
Qed.

(** X8: GET /wallet/balance/:walletId right after a credit or a debit that
    went through, answered 200, answers the [balanceAfter] that the operation
    answered, and writes nothing. *)
Theorem balance_read_after_operation (walletId : string) (b : Operation.t)
  (w : world) :
  let c := credit walletId b w in
  let d := debit walletId b w in
  (code (fst c) = 200 ->
   read_balance (fst (get_balance walletId (snd c)))
   = option_map VNum (reported_balance (fst c))
   /\ reported_balance (fst c) <> None
   /\ snd (get_balance walletId (snd c)) = snd c)
  /\ (code (fst d) = 200 ->
      read_balance (fst (get_balance walletId (snd d)))
      = option_map VNum (reported_balance (fst d))
      /\ reported_balance (fst d) <> None
      /\ snd (get_balance walletId (snd d)) = snd d).
Proof.
  intros c d. subst c d. split; intros Hc.
  - destruct (get_balance_reads walletId (snd (credit walletId b w)))
      as [G1 G2].
    destruct (credit_done walletId b w Hc) as (after & R & B).
    rewrite B in G1, G2. rewrite R.
    repeat split; [exact G1 | discriminate | exact G2].
  - destruct (get_balance_reads walletId (snd (debit walletId b w)))
      as [G1 G2].
    destruct (debit_done walletId b w Hc) as (after & R & B).
    rewrite B in G1, G2. rewrite R.
    repeat split; [exact G1 | discriminate | exact G2].
Qed.

Lemma balance_read_after_operation_witness :
  let c := credit "WALLET-001" (op (of_Z 3000) "CREDIT-001") opening in
  read_balance (fst (get_balance "WALLET-001" (snd c)))
  = option_map VNum (reported_balance (fst c))
  /\ reported_balance (fst c) = Some (of_Z 6500).
Proof.
  split; [ | vm_compute; reflexivity].
  apply (balance_read_after_operation "WALLET-001"
           (op (of_Z 3000) "CREDIT-001") opening).
  reflexivity.
Defined.

(** ** Emptying a wallet *)

Lemma sub_self (m : positive) (e : Z) :
  round2 (sub (S754_finite false m e) (S754_finite false m e)) = zero
  /\ lt (S754_finite false m e) (S754_finite false m e) = false.
Proof.
  split.
  - unfold sub. cbn [opp negb add]. rewrite round_Q_zero; [reflexivity | ].
    unfold F2Q. change (inject_Z (Z.neg m)) with (- inject_Z (Z.pos m))%Q.
    ring.
  - cbn [lt].
    assert (E : (F2Q (S754_finite false m e) ?= F2Q (S754_finite false m e))%Q
                = Eq) by (apply Qeq_alt; reflexivity).
    rewrite E. reflexivity.
Qed.

(** X9: a debit of the whole balance of a wallet, a finite number above zero,
    goes through and leaves the balance [+0]; DELETE on the wallet is then
    answered 204 and the identifier resolves to nothing. *)
Theorem emptied_wallet_can_be_deleted (walletId : string) (reference : value)
  (w : world) (wallet : Wallet.t) :
  find (has_walletId (VStr walletId)) (Db.wallets (store w)) = Some wallet ->
  isPositiveNumber (Wallet.balance wallet) = true ->
  truthy reference = true ->
  let d := debit walletId (Operation.mk (Wallet.balance wallet) reference) w in
  let x := delete_wallet walletId (snd d) in
  is_error (fst d) = false
  /\ balance_of (VStr walletId) (store (snd d)) = Some (VNum zero)
  /\ fst x = Reply 204 BEmpty
  /\ balance_of (VStr walletId) (store (snd x)) = None.
Proof.
  intros Hw Hp Hr d x. subst d x.
  destruct (positive_number _ Hp) as (m & e & E).
  destruct (sub_self m e) as [Hsub Hlt].
  rewrite E in *.
  destruct (debit_balance walletId
              (Operation.mk (VNum (S754_finite false m e)) reference) w wallet
              (S754_finite false m e) Hw E Hp Hr) as [D1 D2].
  { cbn [Operation.amount numeric]. exact Hlt. }
  cbn [Operation.amount numeric] in D2. rewrite Hsub in D2.
  split; [exact D1 | ]. split; [exact D2 | ].
  destruct (balance_of_found _ _ _ D2) as (w1 & F1 & B1).
  set (w' := snd (debit walletId
                    (Operation.mk (VNum (S754_finite false m e)) reference) w))
    in *.
  clearbody w'. open_world w'.
  unfold delete_wallet, balance_of. run_api. rewrite F1, B1.
  change (strict_eq (VNum zero) (VNum zero)) with true.
  cbv beta iota delta [negb]. run_api.
  split; [reflexivity | ]. rewrite find_remove_same. reflexivity.
Qed.

Lemma emptied_wallet_can_be_deleted_witness :
  let d := debit "WALLET-001" (op (of_Z 3500) "DEBIT-001") opening in
  fst (delete_wallet "WALLET-001" (snd d)) = Reply 204 BEmpty.
Proof.
  apply (emptied_wallet_can_be_deleted "WALLET-001" (VStr "DEBIT-001") opening
           (sample_wallet 1 "WALLET-001" "+221771234567" (of_Z 3500))
           eq_refl eq_refl eq_refl).
Defined.

(** ** Amounts in hundredths *)

(** X10: on a balance of [k_b] hundredths, a credit of [k_1] hundredths and
    then a credit of [k_2] hundredths leave [k_b + k_1 + k_2] hundredths, the
    balance that one credit of [k_1 + k_2] hundredths leaves, as long as the
    total is no more than [2^50] hundredths. *)
Theorem credits_add_up (walletId : string) (kb k1 k2 : Z) (r1 r2 r : value)
  (w : world) :
  0 <= kb -> 0 < k1 -> 0 < k2 -> kb + k1 + k2 <= 2 ^ 50 ->
  balance_of (VStr walletId) (store w) = Some (VNum (cents kb)) ->
  truthy r1 = true -> truthy r2 = true -> truthy r = true ->
  let c1 := credit walletId (Operation.mk (VNum (cents k1)) r1) w in
  let c2 := credit walletId (Operation.mk (VNum (cents k2)) r2) (snd c1) in
  let c := credit walletId (Operation.mk (VNum (cents (k1 + k2))) r) w in
  balance_of (VStr walletId) (store (snd c2))
    = Some (VNum (cents (kb + k1 + k2)))
  /\ balance_of (VStr walletId) (store (snd c2))
     = balance_of (VStr walletId) (store (snd c)).
Proof.
  intros Hb H1 H2 Hs Hw T1 T2 T c1 c2 c. subst c1 c2 c.
  assert (P1 : isPositiveNumber (VNum (cents k1)) = true)
    by (apply cents_positive; lia).
  assert (P2 : isPositiveNumber (VNum (cents k2)) = true)
    by (apply cents_positive; lia).
  assert (P : isPositiveNumber (VNum (cents (k1 + k2))) = true)
    by (apply cents_positive; lia).
  destruct (balance_of_found _ _ _ Hw) as (w0 & F0 & B0).
  destruct (credit_balance walletId (Operation.mk (VNum (cents k1)) r1) w w0
              (cents kb) F0 B0 P1 T1) as [_ C1].
  cbn [Operation.amount numeric] in C1. rewrite add_cents in C1 by lia.
  destruct (balance_of_found _ _ _ C1) as (w1 & F1 & B1).
  destruct (credit_balance walletId (Operation.mk (VNum (cents k2)) r2) _ w1
              (cents (kb + k1)) F1 B1 P2 T2) as [_ C2].
  cbn [Operation.amount numeric] in C2. rewrite add_cents in C2 by lia.
  destruct (credit_balance walletId (Operation.mk (VNum (cents (k1 + k2))) r)
              w w0 (cents kb) F0 B0 P T) as [_ C].
  cbn [Operation.amount numeric] in C. rewrite add_cents in C by lia.
  rewrite C2, C. split; [reflexivity | ]. do 3 f_equal. lia.
Qed.

Lemma credits_add_up_witness :
  let c1 := credit "WALLET-001" (op (cents 10) "CREDIT-001") opening_cents in
  let c2 := credit "WALLET-001" (op (cents 20) "CREDIT-002") (snd c1) in
  balance_of (VStr "WALLET-001") (store (snd c2))
  = Some (VNum (cents 350030)).
Proof.
  apply (credits_add_up "WALLET-001" 350000 10 20 (VStr "CREDIT-001")
           (VStr "CREDIT-002") (VStr "CREDIT-003") opening_cents);
    try lia; reflexivity.
Defined.

(** ** A transfer that is executed *)

(** The reply and the store after a transfer that is executed. *)
Lemma transfer_executes (h : headers) (b : TransferBody.t) (w : world) :
  cached (x_idempotency_key h) (store w) = None ->
  code (fst (transfer h b w)) = 200 ->
  exists src dst difference sum response us ud,
    fields_ok b = true /\ self_transfer b = false
    /\ source_of b (store w) = Some src
    /\ destination_of b (store w) = Some dst
    /\ less (Wallet.balance src) (numeric (TransferBody.amount b))
       = Some false
    /\ minus (Wallet.balance src) (numeric (TransferBody.amount b))
       = Some difference
    /\ plus (Wallet.balance dst) (numeric (TransferBody.amount b)) = Some sum
    /\ fst (transfer h b w) = json (BTransfer response)
    /\ Db.wallets (store (snd (transfer h b w)))
       = assign_first (has_walletId (TransferBody.destinationWalletId b))
           (set_balance (round2 sum) ud)
           (assign_first (has_walletId (TransferBody.sourceWalletId b))
              (set_balance (round2 difference) us) (Db.wallets (store w)))
    /\ match header_set (x_idempotency_key h) with
       | Some k =>
           exists i c,
             Db.idempotency (store (snd (transfer h b w)))
             = push (Idem.mk i k response c) (Db.idempotency (store w))
       | None =>
           Db.idempotency (store (snd (transfer h b w)))
           = Db.idempotency (store w)
       end.
Proof.
  intros Hc. open_world w.
  unfold transfer, fields_ok, self_transfer, source_of, destination_of.
  cbv beta iota delta [Db.wallets].
  destruct (truthy (TransferBody.sourceWalletId b));
    [ | intros H; discriminate H].
  destruct (truthy (TransferBody.destinationWalletId b));
    [ | intros H; discriminate H].
  destruct (isPositiveNumber (TransferBody.amount b));
    [ | intros H; discriminate H].
  destruct (truthy (TransferBody.reference b));
    [ | intros H; discriminate H].
  cbv beta iota delta [negb orb andb].
  destruct (strict_eq _ _); [intros H; discriminate H | ].
  run_api.
  destruct (find (has_walletId (TransferBody.sourceWalletId b)) wallets)
    as [src | ];
    [ | destruct (to_string _); intros H; discriminate H].
  destruct (find (has_walletId (TransferBody.destinationWalletId b)) wallets)
    as [dst | ];
    [ | destruct (to_string _); intros H; discriminate H].
  run_api. rewrite Hc.
  destruct (less (Wallet.balance src) _) as [[ | ] | ] eqn:El;
    [destruct (as_number _); intros H; discriminate H | |
     intros H; discriminate H].
  destruct (minus (Wallet.balance src) _) as [difference | ] eqn:Em;
    [ | intros H; discriminate H].
  destruct (plus (Wallet.balance dst) _) as [sum | ] eqn:Ep;
    [ | intros H; discriminate H].
  intros _. exists src, dst, difference, sum.
  destruct (header_set (x_idempotency_key h)); run_api.
  - do 3 eexists. do 4 (split; [reflexivity | ]).
    split; [exact El | ]. split; [exact Em | ]. split; [exact Ep | ].
    split; [reflexivity | ]. split; [reflexivity | ].
    do 2 eexists. reflexivity.
  - do 3 eexists. do 4 (split; [reflexivity | ]).
    split; [exact El | ]. split; [exact Em | ]. split; [exact Ep | ].
    split; [reflexivity | ]. split; reflexivity.
Qed.

Lemma find_assign_first_kept {A : Type} (p q : A -> bool) (f : A -> A)
  (l : list A) :
  (forall a, p (f a) = p a) ->
  find p l <> None -> find p (assign_first q f l) <> None.
Proof.
  intros Hf. induction l as [ | a l IH]; simpl; [congruence | ].
  destruct (q a); simpl.
  - rewrite Hf. destruct (p a); [discriminate | trivial].
  - destruct (p a); [discriminate | exact IH].
Qed.

(** X11: a transfer that is executed under an idempotency key, sent again as
    it is, is answered by the very response of the first execution and
    writes nothing. *)
Theorem executed_transfer_is_replayed (h : headers) (b : TransferBody.t)
  (w : world) (k : string) :
  header_set (x_idempotency_key h) = Some k ->
  cached (x_idempotency_key h) (store w) = None ->
  let first := transfer h b w in
  let again := transfer h b (snd first) in
  code (fst first) = 200 ->
  is_error (fst first) = false
  /\ fst again = fst first
  /\ store (snd again) = store (snd first).
Proof.
  intros Hk Hc first again H200. subst first again.
  destruct (transfer_executes h b w Hc H200)
    as (src & dst & difference & sum & response & us & ud
        & Hf & Hs & Hsrc & Hdst & _ & _ & _ & R & W & I).
  rewrite Hk in I. destruct I as (i & c & I).
  assert (C1 : cached (x_idempotency_key h) (store (snd (transfer h b w)))
               = Some (Idem.mk i k response c)).
  { unfold cached in *. rewrite Hk in *. rewrite I.
    rewrite (find_push_new _ _ _ Hc). unfold has_key. cbn [Idem.key].
    rewrite String.eqb_refl. reflexivity. }
  rewrite (transfer_hit h b (snd (transfer h b w)) _ Hf Hs) by
    (try exact C1; unfold source_of, destination_of in *; rewrite W;
     repeat (apply find_assign_first_kept; [reflexivity | ]);
     congruence).
  rewrite R. repeat split.
Qed.

Lemma executed_transfer_is_replayed_witness :
  let h := gateway (Some "K-2") in
  let first := transfer h (a_to_b (of_Z 2000) "TRF-002") opening in
  let again := transfer h (a_to_b (of_Z 2000) "TRF-002") (snd first) in
  fst again = fst first /\ store (snd again) = store (snd first).
Proof.
  apply (executed_transfer_is_replayed (gateway (Some "K-2"))
           (a_to_b (of_Z 2000) "TRF-002") opening "K-2"
           eq_refl eq_refl eq_refl).
Defined.

(** X12: a transfer of [k_a] hundredths from a wallet of [k_s] hundredths to
    another wallet, of [k_d] hundredths, with [0 < k_a <= k_s <= 2^50] and
    [k_d + k_a <= 2^50], leaves [k_s - k_a] and [k_d + k_a] hundredths: what
    leaves the source reaches the destination, to the hundredth. *)
Theorem transfer_moves_hundredths (h : headers) (b : TransferBody.t)
  (w : world) (ks kd ka : Z) :
  0 < ka -> ka <= ks -> ks <= 2 ^ 50 -> 0 <= kd -> kd + ka <= 2 ^ 50 ->
  TransferBody.amount b = VNum (cents ka) ->
  truthy (TransferBody.sourceWalletId b) = true ->
  truthy (TransferBody.destinationWalletId b) = true ->
  truthy (TransferBody.reference b) = true ->
  self_transfer b = false ->
  source_of b (store w) <> destination_of b (store w) ->
  balance_of (TransferBody.sourceWalletId b) (store w)
  = Some (VNum (cents ks)) ->
  balance_of (TransferBody.destinationWalletId b) (store w)
  = Some (VNum (cents kd)) ->
  cached (x_idempotency_key h) (store w) = None ->
  let out := transfer h b w in
  is_error (fst out) = false
  /\ balance_of (TransferBody.sourceWalletId b) (store (snd out))
     = Some (VNum (cents (ks - ka)))
  /\ balance_of (TransferBody.destinationWalletId b) (store (snd out))
     = Some (VNum (cents (kd + ka))).
Proof.
  intros Ha Has Hks Hkd Hda Eamt Ts Td Tr Hs Hne Bs Bd Hc out. subst out.
  destruct (balance_of_found _ _ _ Bs) as (src & Fs & Ebs).
  destruct (balance_of_found _ _ _ Bd) as (dst & Fd & Ebd).
  assert (Hf : fields_ok b = true).
  { unfold fields_ok. rewrite Ts, Td, Tr, Eamt.
    rewrite cents_positive by lia. reflexivity. }
  destruct (sub_cents (ks - ka) ka ltac:(lia) ltac:(lia) ltac:(lia))
    as [Hsub Hlt].
  replace (ks - ka + ka) with ks in Hsub, Hlt by lia.
  assert (Hd : src <> dst).
  { intros E. apply Hne. unfold source_of, destination_of.
    rewrite Fs, Fd, E. reflexivity. }
  destruct (transfer_balances_at h b w src dst (cents ks) (cents kd)
              Hf Hs Fs Fd Hd Ebs Ebd Hc) as (B1 & B2 & E).
  { rewrite Eamt. exact Hlt. }
  rewrite Eamt in B1, B2. cbn [numeric] in B1, B2.
  rewrite Hsub in B1. rewrite add_cents in B2 by lia.
  repeat split; assumption.
Qed.

Lemma transfer_moves_hundredths_witness :
  let out := transfer (gateway None) (a_to_b (cents 1050) "TRF-003")
               opening_cents in
  balance_of (VStr "WALLET-001") (store (snd out))
  = Some (VNum (cents 348950))
  /\ balance_of (VStr "WALLET-002") (store (snd out))
     = Some (VNum (cents 201050)).
Proof.
  apply (transfer_moves_hundredths (gateway None) (a_to_b (cents 1050) "TRF-003")
           opening_cents 350000 200000 1050);
    try lia; try reflexivity.
  intros H. discriminate H.
Defined.

(** ** Logs that only grow *)

Lemma extends_refl {A : Type} (l : list A) : extends l l.
Proof. exists []. symmetry. apply app_nil_r. Qed.

Lemma extends_trans {A : Type} (a b c : list A) :
  extends a b -> extends b c -> extends a c.
Proof.
  intros [x ->] [y ->]. exists (x ++ y)%list. symmetry. apply app_assoc.
Qed.

Ltac grows :=
  first
    [ apply extends_refl
    | unfold push; rewrite <- ?app_assoc; eexists; reflexivity ].

Lemma handle_logs_grow (h : headers) (r : route) (w : world) :
  extends (Db.events (store w)) (Db.events (store (snd (handle h r w))))
  /\ extends (Db.idempotency (store w))
       (Db.idempotency (store (snd (handle h r w))))
  /\ (match r with DeleteWallet _ => False | _ => True end ->
      extends (Db.transactions (store w))
        (Db.transactions (store (snd (handle h r w))))).
Proof.
  open_world w. destruct r; cbn [handle].
  - unfold post_wallet. run_api. api_cases; repeat split; intros; grows.
  - unfold put_wallet. run_api. api_cases; repeat split; intros; grows.
  - unfold delete_wallet. run_api.
    api_cases; repeat split; intros; try grows; contradiction.
  - unfold credit. run_api. api_cases; repeat split; intros; grows.
  - unfold debit. run_api. api_cases; repeat split; intros; grows.
  - unfold transfer. run_api. api_cases; repeat split; intros; grows.
Qed.

Lemma dispatch_logs_grow (h : headers) (e : endpoint) (w : world) :
  extends (Db.events (store w)) (Db.events (store (snd (dispatch h e w))))
  /\ extends (Db.idempotency (store w))
       (Db.idempotency (store (snd (dispatch h e w))))
  /\ (keeps_transactions e = true ->
      extends (Db.transactions (store w))
        (Db.transactions (store (snd (dispatch h e w))))).
Proof.
  destruct e; cbn [dispatch keeps_transactions].
  1: { rewrite ledger_snd.
       destruct (handle_logs_grow h r w) as (H1 & H2 & H3).
       repeat split; auto. intros K. apply H3. destruct r; try exact I.
       discriminate. }
  all: open_world w.
  all: unfold post_bank, get_banks, get_bank, put_bank, patch_bank,
         delete_bank, get_wallets, get_wallet, patch_wallet,
         get_bank_wallets, get_bank_transactions, get_balance.
  all: run_api; api_cases; repeat split; intros; grows.
Qed.

Lemma api_logs_grow (h : headers) (e : endpoint) (w : world) :
  extends (Db.events (store w)) (Db.events (store (snd (api h e w))))
  /\ extends (Db.idempotency (store w))
       (Db.idempotency (store (snd (api h e w))))
  /\ (keeps_transactions e = true ->
      extends (Db.transactions (store w))
        (Db.transactions (store (snd (api h e w))))).
Proof.
  rewrite api_unfold.
  destruct (is_public e); [apply dispatch_logs_grow | ].
  destruct (valid_key _ _); [apply dispatch_logs_grow | ].
  repeat split; intros; apply extends_refl.
Qed.

(** X13: no route that server.js defines removes or rewrites an event or a
    cached idempotency record: after any sequence of calls of these routes,
    both lists are what they were, with records appended.  The same holds of
    the transaction log over any sequence without a
    DELETE /wallet/:walletId. *)
Theorem logs_only_grow (calls : list (headers * endpoint)) (w : world) :
  extends (Db.events (store w)) (Db.events (store (snd (api_run calls w))))
  /\ extends (Db.idempotency (store w))
       (Db.idempotency (store (snd (api_run calls w))))
  /\ (Forall (fun c => keeps_transactions (snd c) = true) calls ->
      extends (Db.transactions (store w))
        (Db.transactions (store (snd (api_run calls w))))).
Proof.
  split; [ | split].
  - apply (api_run_invariant
             (fun d => extends (Db.events (store w)) (Db.events d))
             (fun _ => true)).
    + intros h e w' _ H. eapply extends_trans; [exact H | ].
      apply api_logs_grow.
    + rewrite Forall_forall. reflexivity.
    + apply extends_refl.
  - apply (api_run_invariant
             (fun d => extends (Db.idempotency (store w)) (Db.idempotency d))
             (fun _ => true)).
    + intros h e w' _ H. eapply extends_trans; [exact H | ].
      apply api_logs_grow.
    + rewrite Forall_forall. reflexivity.
    + apply extends_refl.
  - intros Hc.
    apply (api_run_invariant
             (fun d => extends (Db.transactions (store w)) (Db.transactions d))
             keeps_transactions).
    + intros h e w' K H. eapply extends_trans; [exact H | ].
      apply api_logs_grow. exact K.
    + exact Hc.
    + apply extends_refl.
Qed.

Lemma logs_only_grow_witness :
  extends (Db.transactions (store opening))
    (Db.transactions (store (snd (api_run session_without_delete opening)))).
Proof.
  apply (logs_only_grow session_without_delete opening).
  repeat constructor.
Defined.

(** ** Transactions in the log *)

Lemma dispatch_keeps_transactions (h : headers) (e : endpoint) (w : world) :
  match e with
  | Core _ => True
  | _ => Db.transactions (store (snd (dispatch h e w)))
         = Db.transactions (store w)
  end.
Proof.
  destruct e; cbn [dispatch]; trivial.
  all: open_world w.
  all: unfold post_bank, get_banks, get_bank, put_bank, patch_bank,
         delete_bank, get_wallets, get_wallet, patch_wallet,
         get_bank_wallets, get_bank_transactions, get_balance.
  all: run_api; api_cases; reflexivity.
Qed.

Ltac amount_is_number :=
  match goal with
  | E : negb (isPositiveNumber ?v) = false |- _ =>
      apply negb_false_iff in E;
        let m := fresh "m" in let e := fresh "e" in let Ev := fresh "Ev" in
        destruct (positive_number _ E) as (m & e & Ev); rewrite Ev in *;
          cbn [numeric] in *
  end.

Ltac sound_txn :=
  split;
    [assumption
    | cbn [Txn.type Txn.balanceBefore Txn.amount Txn.balanceAfter];
      repeat match goal with
        | E : plus _ _ = Some _ |- _ => rewrite E; clear E
        | E : minus _ _ = Some _ |- _ => rewrite E; clear E
        | E : less _ _ = Some _ |- _ => rewrite E; clear E
        end;
      repeat split ].

Lemma handle_transactions_sound (h : headers) (r : route) (w : world) :
  Forall txn_sound (Db.transactions (store w)) ->
  Forall txn_sound (Db.transactions (store (snd (handle h r w)))).
Proof.
  intros H. open_world w. destruct r; cbn [handle].
  - unfold post_wallet. run_api. api_cases.
  - unfold put_wallet. run_api. api_cases.
  - unfold delete_wallet. run_api. api_cases. apply Forall_remove. exact H.
  - unfold credit. run_api. api_cases. amount_is_number.
    apply Forall_push; [ | exact H]. sound_txn.
  - unfold debit. run_api. api_cases. amount_is_number.
    apply Forall_push; [ | exact H]. sound_txn.
  - unfold transfer. run_api. api_cases.
    all: repeat match goal with
           | E : _ || _ = false |- _ => apply orb_false_iff in E; destruct E
           end.
    all: amount_is_number.
    all: apply Forall_push; [sound_txn | ].
    all: apply Forall_push; [ | exact H].
    all: sound_txn.
Qed.

(** X14: over any sequence of calls of the routes that server.js defines,
    from a log in which every transaction has a positive finite amount and a
    [balanceAfter] that is [Number((balanceBefore + amount).toFixed(2))] for
    a CREDIT, and [Number((balanceBefore - amount).toFixed(2))] with
    [balanceBefore] not below [amount] for a DEBIT, every transaction of the
    log is so after each call. *)
Theorem transactions_stay_sound (calls : list (headers * endpoint)) (w : world)
  (k : nat) :
  Forall txn_sound (Db.transactions (store w)) ->
  Forall txn_sound (Db.transactions (store (snd (api_run (firstn k calls) w)))).
Proof.
  intros H.
  apply (api_run_invariant (fun d => Forall txn_sound (Db.transactions d))
           (fun _ => true)); auto.
  - intros h e w' _ Hw.
    assert (D : Forall txn_sound
                  (Db.transactions (store (snd (dispatch h e w'))))).
    { pose proof (dispatch_keeps_transactions h e w') as K.
      destruct e; try (rewrite K; exact Hw).
      cbn [dispatch]. rewrite ledger_snd.
      apply handle_transactions_sound, Hw. }
    rewrite api_unfold. destruct (is_public e); [exact D | ].
    destruct (valid_key _ _); [exact D | exact Hw].
  - apply Forall_firstn. rewrite Forall_forall. reflexivity.
Qed.

Lemma transactions_stay_sound_witness :
  Forall txn_sound
    (Db.transactions (store (snd (api_run (firstn 10 session) opening)))).
Proof. apply transactions_stay_sound. constructor. Defined.

(** ** The API-key gate *)

Lemma handle_never_unauthorized (h : headers) (r : route) (w : world) :
  code (fst (handle h r w)) <> 401.
Proof.
  open_world w. destruct r; cbn [handle].
  - unfold post_wallet. run_api. api_cases; discriminate.
  - unfold put_wallet. run_api. api_cases; discriminate.
  - unfold delete_wallet. run_api. api_cases; discriminate.
  - unfold credit. run_api. api_cases; discriminate.
  - unfold debit. run_api. api_cases; discriminate.
  - unfold transfer. run_api. api_cases; discriminate.
Qed.

Lemma dispatch_never_unauthorized (h : headers) (e : endpoint) (w : world) :
  status_of (fst (dispatch h e w)) <> 401.
Proof.
  destruct e; cbn [dispatch].
  1: { pose proof (handle_never_unauthorized h r w) as K.
       unfold ledger, bind, ret. destruct (handle h r w) as [a w'].
       exact K. }
  all: open_world w.
  all: unfold post_bank, get_banks, get_bank, put_bank, patch_bank,
         delete_bank, get_wallets, get_wallet, patch_wallet,
         get_bank_wallets, get_bank_transactions, get_balance.
  all: run_api; api_cases; cbv beta iota delta [status_of code]; discriminate.
Qed.

Lemma api_keeps_keys (h : headers) (e : endpoint) (w : world) :
  Db.apiKeys (store (snd (api h e w))) = Db.apiKeys (store w).
Proof.
  rewrite api_unfold.
  assert (D : Db.apiKeys (store (snd (dispatch h e w)))
              = Db.apiKeys (store w)).
  { destruct e; cbn [dispatch].
    1: { rewrite ledger_snd. apply handle_keeps_banks. }
    all: open_world w.
    all: unfold post_bank, get_banks, get_bank, put_bank, patch_bank,
           delete_bank, get_wallets, get_wallet, patch_wallet,
           get_bank_wallets, get_bank_transactions, get_balance.
    all: run_api; api_cases; reflexivity. }
  destruct (is_public e); [exact D | ].
  destruct (valid_key _ _); [exact D | ].
  open_world w. reflexivity.
Qed.

Lemma api_run_keeps_keys (calls : list (headers * endpoint)) (w : world) :
  Db.apiKeys (store (snd (api_run calls w))) = Db.apiKeys (store w).
Proof.
  apply (api_run_invariant (fun d => Db.apiKeys d = Db.apiKeys (store w))
           (fun _ => true)).
  - intros h e w' _ H. rewrite api_keeps_keys. exact H.
  - rewrite Forall_forall. reflexivity.
  - reflexivity.
Qed.

(** X15: no route that server.js defines changes the API keys.  So, after
    any sequence of calls of these routes, a call of a private route is
    answered 401 exactly when its X-Service-Api-Key header is missing, empty
    or not a key of the initial store, and a call answered 401 writes
    nothing. *)
Theorem unauthorized_iff_unknown_key (calls : list (headers * endpoint))
  (h : headers) (e : endpoint) (w : world) :
  is_public e = false ->
  let w' := snd (api_run calls w) in
  Db.apiKeys (store w') = Db.apiKeys (store w)
  /\ (status_of (fst (api h e w')) = 401
      <-> valid_key (x_service_api_key h) (store w) = false)
  /\ (status_of (fst (api h e w')) = 401 ->
      store (snd (api h e w')) = store w').
Proof.
  intros Hp w'. pose proof (api_run_keeps_keys calls w) as K. fold w' in K.
  assert (V : valid_key (x_service_api_key h) (store w')
              = valid_key (x_service_api_key h) (store w)).
  { unfold valid_key. rewrite K. reflexivity. }
  split; [exact K | ]. rewrite api_unfold, Hp, V.
  destruct (valid_key (x_service_api_key h) (store w)).
  - split.
    + split; [ | discriminate].
      intros H. destruct (dispatch_never_unauthorized h e w' H).
    + intros H. destruct (dispatch_never_unauthorized h e w' H).
  - destruct w' as [d c n]. split; [split | ]; reflexivity.
Qed.

Lemma unauthorized_iff_unknown_key_witness :
  status_of (fst (api (Headers (Some "intruder") None) GetWallets
                    (snd (api_run session opening)))) = 401.
Proof.
  apply (unauthorized_iff_unknown_key session (Headers (Some "intruder") None)
           GetWallets opening eq_refl).
  reflexivity.
Defined.

(** ** Creating, finding and deleting a bank *)

(** A string names the banks whose identifier it is, and an identifier that
    is not this string resolves to none of them. *)
Lemma has_bankId_apart (v : value) (s : string) (b : Bank.t) :
  strict_eq v (VStr s) = false -> has_bankId (VStr s) b = true ->
  has_bankId v b = false.
Proof.
  intros Hv Hs. apply strict_eq_VStr in Hs. unfold has_bankId.
  rewrite Hs. destruct (matches v (VStr s)) eqn:E; [ | reflexivity].
  apply matches_a_string in E. congruence.
Qed.

(** X16: a POST /bank whose three fields are truthy, with an identifier that
    no bank has, is answered 201 with a bank of status ACTIVE, appended to
    the banks.  When the identifier is a string, GET /bank/:bankId with it
    then answers that bank; when it is not, a number say, no
    GET /bank/:bankId reaches the bank: each is answered as before the POST.
    The same POST sent again is refused with BANK_ALREADY_EXISTS when a
    message can print the identifier, and fails with a TypeError, answered
    500, when none can. *)
Theorem created_bank_is_found (b : BankCreate.t) (w : world) :
  truthy (BankCreate.bankId b) = true ->
  truthy (BankCreate.name b) = true ->
  truthy (BankCreate.currency b) = true ->
  well_formed (BankCreate.bankId b) = true ->
  find (has_bankId (BankCreate.bankId b)) (Db.banks (store w)) = None ->
  let out := post_bank b w in
  exists bank,
    fst out = BankJson 201 bank
    /\ Bank.bankId bank = BankCreate.bankId b
    /\ Bank.name bank = BankCreate.name b
    /\ Bank.currency bank = BankCreate.currency b
    /\ Bank.status bank = VStr "ACTIVE"
    /\ Db.banks (store (snd out)) = push bank (Db.banks (store w))
    /\ (forall s, BankCreate.bankId b = VStr s ->
        fst (get_bank s (snd out)) = BankJson 200 bank)
    /\ (forall s, BankCreate.bankId b <> VStr s ->
        fst (get_bank s (snd out))
        = fst (get_bank s (World (store w) (clock w) (ticks (snd out)))))
    /\ (to_string (BankCreate.bankId b) <> None ->
        refusal (fst (post_bank b (snd out)))
        = Some (409, "BANK_ALREADY_EXISTS"))
    /\ (to_string (BankCreate.bankId b) = None ->
        fst (post_bank b (snd out)) = Ledger (Reply 500 BThrown)).
Proof.
  intros T1 T2 T3 Hwf Hb out. subst out. open_world w.
  unfold post_bank. run_api. rewrite T1, T2, T3. cbn [negb orb].
  rewrite Hb. run_api.
  eexists. split; [reflexivity | ]. repeat split.
  - intros s Hs. unfold get_bank. run_api. rewrite <- Hs.
    rewrite (find_push_new _ _ _ Hb). unfold has_bankId at 1.
    cbn [Bank.bankId]. rewrite (matches_refl _ Hwf). reflexivity.
  - intros s Hs. unfold get_bank. run_api.
    rewrite find_push_other;
      [destruct (find (has_bankId (VStr s)) banks); reflexivity | ].
    unfold has_bankId. cbn [Bank.bankId].
    destruct (matches (VStr s) (BankCreate.bankId b)) eqn:E;
      [ | reflexivity].
    apply strict_eq_VStr in E. contradiction.
  - intros Hs. rewrite (find_push_new _ _ _ Hb). unfold has_bankId at 1.
    cbn [Bank.bankId]. rewrite (matches_refl _ Hwf).
    destruct (to_string (BankCreate.bankId b)); [ | congruence].
    run_api. reflexivity.
  - intros Hs. rewrite (find_push_new _ _ _ Hb). unfold has_bankId at 1.
    cbn [Bank.bankId]. rewrite (matches_refl _ Hwf), Hs. reflexivity.
Qed.

(** BANK-002 is created and read back; a bank created under the number 5 is
    read back by no path, GET /bank/5 included. *)
Lemma created_bank_is_found_witness :
  (exists bank,
     fst (post_bank bank_two opening) = BankJson 201 bank
     /\ fst (get_bank "BANK-002" (snd (post_bank bank_two opening)))
        = BankJson 200 bank
     /\ refusal (fst (post_bank bank_two (snd (post_bank bank_two opening))))
        = Some (409, "BANK_ALREADY_EXISTS"))
  /\ status_of (fst (post_bank bank_five opening)) = 201
  /\ refusal (fst (get_bank "5" (snd (post_bank bank_five opening))))
     = Some (404, "BANK_NOT_FOUND").
Proof.
  split.
  - destruct (created_bank_is_found bank_two opening eq_refl eq_refl eq_refl
                eq_refl eq_refl)
      as (bank & H1 & _ & _ & _ & _ & _ & H2 & _ & H3 & _).
    exists bank. split; [exact H1 | ].
    split; [apply H2; reflexivity | apply H3; discriminate].
  - destruct (created_bank_is_found bank_five opening eq_refl eq_refl eq_refl
                eq_refl eq_refl)
      as (bank & H1 & _ & _ & _ & _ & _ & _ & H2 & _).
    split; [rewrite H1; reflexivity | ].
    rewrite (H2 "5"); [reflexivity | discriminate].
Defined.

(** X17: DELETE /bank/:bankId on a bank that exists is refused with
    BANK_HAS_WALLETS, and writes nothing, when a wallet has that [bankId];
    otherwise it is answered 204, the identifier resolves to no bank, the
    other identifiers resolve as before, the wallets are untouched, and a
    POST /wallet under that bank is then refused with BANK_NOT_FOUND. *)
Theorem bank_deleted_only_without_wallets (bankId : string) (w : world)
  (bank : Bank.t) :
  find (has_bankId (VStr bankId)) (Db.banks (store w)) = Some bank ->
  let out := delete_bank bankId w in
  (existsb (in_bank bankId) (Db.wallets (store w)) = true ->
   refusal (fst out) = Some (409, "BANK_HAS_WALLETS")
   /\ store (snd out) = store w)
  /\ (existsb (in_bank bankId) (Db.wallets (store w)) = false ->
      fst out = Ledger (Reply 204 BEmpty)
      /\ find (has_bankId (VStr bankId)) (Db.banks (store (snd out))) = None
      /\ (forall v, strict_eq v (VStr bankId) = false ->
          find (has_bankId v) (Db.banks (store (snd out)))
          = find (has_bankId v) (Db.banks (store w)))
      /\ Db.wallets (store (snd out)) = Db.wallets (store w)
      /\ (forall b, wallet_fields_ok b = true ->
          WalletCreate.bankId b = VStr bankId ->
          error_of (fst (post_wallet b (snd out)))
          = Some (404, "BANK_NOT_FOUND"))).
Proof.
  intros Hb out. subst out. open_world w.
  unfold delete_bank. run_api. rewrite Hb.
  split; intros Hz; rewrite Hz; run_api.
  - split; reflexivity.
  - split; [reflexivity | ]. split; [apply find_remove_same | ].
    split; [ | split; [reflexivity | ]].
    + intros v Hv. apply find_remove_other. intros a Ha.
      destruct (has_bankId (VStr bankId) a) eqn:E; [ | reflexivity].
      rewrite (has_bankId_apart _ _ _ Hv E) in Ha. discriminate.
    + intros b Hf Hbank. unfold wallet_fields_ok in Hf.
      destruct (truthy (WalletCreate.walletId b)) eqn:T1; try discriminate.
      destruct (truthy (WalletCreate.bankId b)) eqn:T2; try discriminate.
      destruct (truthy (WalletCreate.ownerId b)) eqn:T3; try discriminate.
      destruct (truthy (WalletCreate.ownerName b)) eqn:T4; try discriminate.
      destruct (truthy (WalletCreate.phoneNumber b)) eqn:T5;
        try discriminate.
      unfold post_wallet. run_api. rewrite T1, T2, T3, T4, T5.
      cbn [negb orb]. rewrite Hbank, find_remove_same. run_api.
      reflexivity.
Qed.

Lemma bank_deleted_only_without_wallets_witness :
  refusal (fst (delete_bank "BANK-001" opening))
  = Some (409, "BANK_HAS_WALLETS")
  /\ fst (delete_bank "BANK-001" (sample_world [] []))
     = Ledger (Reply 204 BEmpty).
Proof.
  split.
  - apply (bank_deleted_only_without_wallets "BANK-001" opening sample_bank
             eq_refl).
    reflexivity.
  - apply (bank_deleted_only_without_wallets "BANK-001" (sample_world [] [])
             sample_bank eq_refl).
    reflexivity.
Defined.

(** ** Balances over the whole API *)

Lemma handle_nonneg (h : headers) (r : route) (w : world) :
  keeps_sign (Core r) = true ->
  nonneg_balances (store w) -> nonneg_balances (store (snd (handle h r w))).
Proof.
  intros Hs H. destruct r; cbn [handle keeps_sign] in *.
  - apply post_wallet_nonneg, H.
  - apply put_wallet_nonneg; assumption.
  - apply delete_wallet_nonneg, H.
  - apply credit_nonneg, H.
  - apply debit_nonneg, H.
  - apply transfer_nonneg, H.
Qed.

Lemma patch_wallet_nonneg (walletId : string) (p : WalletPatch.t) (w : world) :
  keeps_sign (PatchWallet walletId p) = true ->
  nonneg_balances (store w) ->
  nonneg_balances (store (snd (patch_wallet walletId p w))).
Proof.
  intros Hs H. open_world w. unfold nonneg_balances in *.
  cbv beta iota delta [Db.wallets keeps_sign] in H, Hs.
  unfold patch_wallet. run_api. api_cases.
  apply Forall_assign_first; [ | exact H].
  intros a _ _. cbn [Wallet.balance].
  destruct (WalletPatch.balance p) as [x | ]; cbn [patched]; [exact Hs | ].
  match goal with
  | E : find _ _ = Some ?t |- _ =>
      apply find_some in E; destruct E as [E _];
        rewrite Forall_forall in H; exact (H _ E)
  end.
Qed.

Lemma api_nonneg (h : headers) (e : endpoint) (w : world) :
  keeps_sign e = true ->
  nonneg_balances (store w) -> nonneg_balances (store (snd (api h e w))).
Proof.
  intros Hs H.
  assert (D : nonneg_balances (store (snd (dispatch h e w)))).
  { pose proof (dispatch_keeps_wallets h e w) as K.
    destruct e; try (unfold nonneg_balances; rewrite K; exact H).
    - cbn [dispatch]. rewrite ledger_snd. apply handle_nonneg; assumption.
    - apply patch_wallet_nonneg; assumption. }
  rewrite api_unfold. destruct (is_public e); [exact D | ].
  destruct (valid_key _ _); [exact D | exact H].
Qed.

Lemma nonneg_balance_of (v x : value) (d : Db.t) :
  nonneg_balances d -> balance_of v d = Some x -> nonneg x = true.
Proof.
  unfold nonneg_balances, balance_of. intros H E.
  destruct (find (has_walletId v) (Db.wallets d)) as [wallet | ] eqn:F;
    [ | discriminate].
  injection E as <-. apply find_some in F. rewrite Forall_forall in H.
  apply H, F.
Qed.

(** A PUT that is answered 200 has written the number of its body. *)
Lemma put_wallet_writes_balance (walletId : string) (b : WalletUpdate.t)
  (w : world) :
  as_number (WalletUpdate.balance b) <> None ->
  code (fst (put_wallet walletId b w)) = 200 ->
  balance_of (VStr walletId) (store (snd (put_wallet walletId b w)))
  = Some (WalletUpdate.balance b).
Proof.
  intros Hb. open_world w. unfold put_wallet, balance_of. run_api.
  api_cases; try (intros H; discriminate H); try congruence.
  intros _. rewrite find_assign_first_same.
  - match goal with
    | F : find _ _ = Some _ |- _ => rewrite F
    end. reflexivity.
  - intros a Ha. unfold has_walletId. cbn [Wallet.walletId].
    match goal with
    | F : find _ _ = Some _ |- _ => apply find_some in F; apply F
    end.
Qed.

(** A PATCH that answers a wallet has written the balance of its body. *)
Lemma patch_wallet_writes_balance (walletId : string) (p : WalletPatch.t)
  (v : value) (w : world) :
  WalletPatch.balance p = Some v ->
  wallet_of (fst (patch_wallet walletId p w)) <> None ->
  balance_of (VStr walletId) (store (snd (patch_wallet walletId p w)))
  = Some v.
Proof.
  intros Hb. open_world w. unfold patch_wallet, balance_of. run_api.
  api_cases; cbv beta iota delta [wallet_of content]; try congruence.
  intros _. rewrite find_assign_first_same.
  - match goal with
    | F : find _ _ = Some _ |- _ => rewrite F
    end. cbn [option_map Wallet.balance]. rewrite Hb. reflexivity.
  - intros a Ha. unfold has_walletId. cbn [Wallet.walletId].
    apply String.eqb_refl.
Qed.

(** C2, as the code has it: over any sequence of calls of the routes that
    server.js defines in which every PUT of a wallet whose body carries a
    number as [balance] carries one that is [>= 0], and every PATCH of a
    wallet whose body carries a [balance] carries a number that is [>= 0],
    from a store whose balances are all numbers [>= 0], every balance is a
    number [>= 0] after each call.  The condition on the bodies is needed:
    a PUT that is answered 200 leaves the wallet with the number of its
    body, and a PATCH that answers a wallet leaves it with the balance of
    its body, whatever it is. *)
Theorem balances_stay_nonneg (calls : list (headers * endpoint)) (w : world)
  (k : nat) :
  Forall (fun c => keeps_sign (snd c) = true) calls ->
  nonneg_balances (store w) ->
  nonneg_balances (store (snd (api_run (firstn k calls) w)))
  /\ (forall walletId b w0,
        as_number (WalletUpdate.balance b) <> None ->
        code (fst (put_wallet walletId b w0)) = 200 ->
        balance_of (VStr walletId) (store (snd (put_wallet walletId b w0)))
        = Some (WalletUpdate.balance b))
  /\ (forall walletId p v w0,
        WalletPatch.balance p = Some v ->
        wallet_of (fst (patch_wallet walletId p w0)) <> None ->
        balance_of (VStr walletId) (store (snd (patch_wallet walletId p w0)))
        = Some v).
Proof.
  intros Hc H. split; [ | split].
  - apply (api_run_invariant nonneg_balances keeps_sign); auto.
    + intros h e w'. apply api_nonneg.
    + apply Forall_firstn. exact Hc.
  - apply put_wallet_writes_balance.
  - apply patch_wallet_writes_balance.
Qed.

(** A PUT and a PATCH that write 12.50, a debit of 12.50, a transfer that is
    refused and a DELETE: the wallet that is left holds 12.50. *)
Lemma balances_stay_nonneg_witness :
  nonneg_balances
    (store (snd (api_run (firstn 5 session_with_updates) opening)))
  /\ balance_of (VStr "WALLET-002")
       (store (snd (api_run (firstn 5 session_with_updates) opening)))
     = Some (VNum (cents 1250))
  /\ map status_of (fst (api_run session_with_updates opening))
     = [200; 200; 200; 400; 204]
  /\ balance_of (VStr "WALLET-001")
       (store (snd (patch_wallet "WALLET-001" patch_string opening)))
     = Some (VStr "-5").
Proof.
  destruct (balances_stay_nonneg session_with_updates opening 5)
    as (H1 & _ & H3);
    [repeat constructor | repeat constructor | ].
  split; [exact H1 | ].
  split; [vm_compute; reflexivity | ].
  split; [vm_compute; reflexivity | ].
  apply H3; [reflexivity | vm_compute; discriminate].
Defined.

(** C2 as stated fails on the update endpoints: from balances of 1500 and
    2000, a PUT whose body carries the balance -5 leaves the wallet at -5;
    so does a PATCH; and a PATCH whose body carries the string ["-5"] leaves
    the wallet with that string, which is no number [>= 0]. *)
Lemma update_writes_negative_balance :
  let w := sample_world (two_wallets (of_Z 1500) (of_Z 2000)) [] in
  let after e := store (snd (api (gateway None) e w)) in
  nonneg_balances (store w)
  /\ (balance_of (VStr "WALLET-001") (after (Core put_negative))
      = Some (VNum (opp (of_Z 5)))
      /\ ~ nonneg_balances (after (Core put_negative)))
  /\ (balance_of (VStr "WALLET-001")
        (after (PatchWallet "WALLET-001" patch_negative))
      = Some (VNum (opp (of_Z 5)))
      /\ ~ nonneg_balances (after (PatchWallet "WALLET-001" patch_negative)))
  /\ (balance_of (VStr "WALLET-001")
        (after (PatchWallet "WALLET-001" patch_string))
      = Some (VStr "-5")
      /\ ~ nonneg_balances (after (PatchWallet "WALLET-001" patch_string)))
  /\ ge (opp (of_Z 5)) zero = false.
Proof.
  cbv zeta. split; [repeat constructor | ].
  repeat split; try (vm_compute; reflexivity).
  all: intros H.
  - assert (E := nonneg_balance_of (VStr "WALLET-001") _ _ H eq_refl).
    vm_compute in E. discriminate E.
  - assert (E := nonneg_balance_of (VStr "WALLET-001") _ _ H eq_refl).
    vm_compute in E. discriminate E.
  - assert (E := nonneg_balance_of (VStr "WALLET-001") _ _ H eq_refl).
    vm_compute in E. discriminate E.
Qed.

(** ** A written wallet, read back *)

Lemma not_this_string (s t : string) :
  VStr t <> VStr s -> strict_eq (VStr s) (VStr t) = false.
Proof.
  intros H. simpl. destruct (String.eqb s t) eqn:E; [ | reflexivity].
  apply String.eqb_eq in E. congruence.
Qed.

Lemma dispatch_written_wallet (h : headers) (e : endpoint) (w : world)
  (v : value) (u : Wallet.t) :
  written_wallet e = Some v ->
  wallet_of (fst (dispatch h e w)) = Some u ->
  (forall s, v = VStr s ->
   find (has_walletId (VStr s)) (Db.wallets (store (snd (dispatch h e w))))
   = Some u)
  /\ (forall s, v <> VStr s ->
      find (has_walletId (VStr s))
        (Db.wallets (store (snd (dispatch h e w))))
      = find (has_walletId (VStr s)) (Db.wallets (store w))).
Proof.
  intros He. open_world w.
  destruct e as [r | | | | | | | | | | | | walletId p | | | ];
    try discriminate.
  - destruct r as [b | walletId b | | | | ]; try discriminate;
      cbn [written_wallet] in He; injection He as <-; cbn [dispatch handle].
    + unfold post_wallet. run_api.
      api_cases; cbv beta iota delta [wallet_of content]; try discriminate.
      intros Hu. injection Hu as <-. split; intros s Hs.
      * rewrite Hs in *.
        match goal with
        | E : find (has_walletId _) _ = None |- _ =>
            rewrite (find_push_new _ _ _ E)
        end.
        unfold has_walletId. cbn [Wallet.walletId].
        cbn [matches strict_comparable strict_eq].
        rewrite String.eqb_refl. reflexivity.
      * apply find_push_other. unfold has_walletId. cbn [Wallet.walletId].
        destruct (matches (VStr s) (WalletCreate.walletId b)) eqn:E;
          [ | reflexivity].
        apply strict_eq_VStr in E. contradiction.
    + unfold put_wallet. run_api.
      api_cases; cbv beta iota delta [wallet_of content]; try discriminate.
      all: intros Hu; injection Hu as <-; split; intros s Hs.
      all: match goal with
           | F : find (has_walletId (VStr _)) _ = Some _ |- _ =>
               pose proof (proj2 (find_some _ _ F)) as Hid
           end.
      1, 3: injection Hs as <-; rewrite find_assign_first_same;
              [ match goal with
                | F : find (has_walletId (VStr _)) _ = Some _ |- _ =>
                    rewrite F; reflexivity
                end
              | intros a Ha; exact Hid ].
      all: apply find_assign_first_other; intros a Ha.
      all: split;
             [exact (has_walletId_apart _ _ _ (not_this_string _ _ Hs) Ha)
             | exact (has_walletId_apart _ _ _ (not_this_string _ _ Hs) Hid)].
  - cbn [written_wallet] in He. injection He as <-.
    cbn [dispatch]. unfold patch_wallet. run_api.
    api_cases; cbv beta iota delta [wallet_of content]; try discriminate.
    intros Hu. injection Hu as <-. split; intros s Hs.
    + injection Hs as <-. rewrite find_assign_first_same.
      * match goal with
        | F : find (has_walletId (VStr _)) _ = Some _ |- _ => rewrite F
        end. reflexivity.
      * intros a Ha. unfold has_walletId. cbn [Wallet.walletId].
        apply String.eqb_refl.
    + apply find_assign_first_other. intros a Ha.
      split; [exact (has_walletId_apart _ _ _ (not_this_string _ _ Hs) Ha) | ].
      apply (has_walletId_apart _ walletId); [apply not_this_string, Hs | ].
      unfold has_walletId. cbn [Wallet.walletId]. apply String.eqb_refl.
Qed.

Lemma get_wallet_reads (s : string) (w : world) :
  fst (get_wallet s w)
  = match find (has_walletId (VStr s)) (Db.wallets (store w)) with
    | Some u => Ledger (Reply 200 (BWallet u))
    | None =>
        Ledger (Reply 404
                  (BError (clock w (ticks w)) 404 "WALLET_NOT_FOUND"
                     "Wallet introuvable"))
    end.
Proof.
  open_world w. unfold get_wallet. run_api.
  destruct (find _ _); reflexivity.
Qed.

(** X19: when POST /wallet, PUT /wallet/:walletId or PATCH /wallet/:walletId
    answers a wallet under an identifier that is a string, a
    GET /wallet/:walletId of that identifier with the same headers answers
    the same wallet, field for field; a GET /wallet/:walletId of any other
    string is answered as it would have been before the call.  A wallet
    that POST creates under an identifier that is not a string, a number
    say, is read back by no GET /wallet/:walletId. *)
Theorem written_wallet_is_read_back (h : headers) (e : endpoint) (w : world)
  (v : value) (u : Wallet.t) :
  written_wallet e = Some v ->
  wallet_of (fst (api h e w)) = Some u ->
  let w' := snd (api h e w) in
  (forall s, v = VStr s ->
   fst (api h (GetWallet s) w') = Ledger (Reply 200 (BWallet u)))
  /\ (forall s, v <> VStr s ->
      fst (api h (GetWallet s) w')
      = fst (api h (GetWallet s) (World (store w) (clock w') (ticks w')))).
Proof.
  intros He Hu w'.
  assert (P : is_public e = false) by (destruct e; try discriminate; reflexivity).
  assert (V : valid_key (x_service_api_key h) (store w')
              = valid_key (x_service_api_key h) (store w)).
  { unfold valid_key, w'. rewrite api_keeps_keys. reflexivity. }
  assert (A : api h e w = dispatch h e w
              /\ valid_key (x_service_api_key h) (store w) = true).
  { revert Hu. rewrite api_unfold, P.
    destruct (valid_key (x_service_api_key h) (store w)); [auto | ].
    open_world w. unfold unauthorized. run_api.
    cbv beta iota delta [wallet_of content]. discriminate. }
  destruct A as [A Hv]. rewrite Hv in V.
  destruct (dispatch_written_wallet h e w v u He) as [D1 D2];
    [rewrite <- A; exact Hu | ].
  rewrite <- A in D1, D2. fold w' in D1, D2.
  split; intros s Hs; rewrite !api_unfold; cbn [is_public dispatch store].
  - rewrite V, get_wallet_reads, (D1 s Hs). reflexivity.
  - rewrite V, Hv, !get_wallet_reads, (D2 s Hs). reflexivity.
Qed.

(** A PATCH of WALLET-001 is read back; a wallet created under the number 7
    is read back by no path, GET /wallet/7 included. *)
Lemma written_wallet_is_read_back_witness :
  (exists u,
     wallet_of (fst (api (gateway None) (PatchWallet "WALLET-001" new_phone)
                       opening)) = Some u
     /\ Wallet.phoneNumber u = VStr "+221771234570"
     /\ fst (api (gateway None) (GetWallet "WALLET-001")
               (snd (api (gateway None) (PatchWallet "WALLET-001" new_phone)
                       opening)))
        = Ledger (Reply 200 (BWallet u)))
  /\ (exists u,
        wallet_of (fst (api (gateway None) (Core (PostWallet wallet_seven))
                          opening)) = Some u
        /\ refusal (fst (api (gateway None) (GetWallet "7")
                           (snd (api (gateway None)
                                   (Core (PostWallet wallet_seven))
                                   opening))))
           = Some (404, "WALLET_NOT_FOUND")).
Proof.
  split.
  - eexists. split; [vm_compute; reflexivity | ].
    split; [reflexivity | ].
    apply (written_wallet_is_read_back (gateway None)
             (PatchWallet "WALLET-001" new_phone) opening (VStr "WALLET-001")
             _ eq_refl); [vm_compute; reflexivity | reflexivity].
  - eexists. split; [vm_compute; reflexivity | ].
    destruct (written_wallet_is_read_back (gateway None)
                (Core (PostWallet wallet_seven)) opening (VNum (of_Z 7)) _
                eq_refl ltac:(vm_compute; reflexivity)) as [_ H].
    rewrite (H "7"); [vm_compute; reflexivity | discriminate].
Defined.

(** ** Reads and refusals write nothing *)

(** X20: a GET route, answered or refused, writes nothing to the store. *)
Theorem reads_write_nothing (h : headers) (e : endpoint) (w : world) :
  is_read e = true -> store (snd (api h e w)) = store w.
Proof.
  intros He. rewrite api_unfold.
  assert (D : store (snd (dispatch h e w)) = store w).
  { destruct e; try discriminate; cbn [dispatch]; open_world w.
    all: unfold get_banks, get_bank, get_wallets, get_wallet,
           get_bank_wallets, get_bank_transactions, get_balance.
    all: run_api; api_cases; reflexivity. }
  destruct (is_public e); [exact D | ].
  destruct (valid_key _ _); [exact D | ].
  open_world w. reflexivity.
Qed.

Lemma reads_write_nothing_witness :
  store (snd (api (gateway None) (GetBankTransactions "BANK-001") opening))
  = store opening
  /\ store (snd (api (gateway None) (GetWallet "WALLET-009") opening))
     = store opening.
Proof. split; apply reads_write_nothing; reflexivity. Defined.

Lemma handle_error (h : headers) (r : route) (w : world) :
  is_error (fst (handle h r w)) = true -> store (snd (handle h r w)) = store w.
Proof.
  destruct r; cbn [handle].
  - apply post_wallet_error.
  - apply put_wallet_error.
  - apply delete_wallet_error.
  - apply credit_error.
  - apply debit_error.
  - apply transfer_error.
Qed.

(** X21: a call of any route that server.js defines that is answered by an
    error body, whatever the error, writes nothing to the store. *)
Theorem refused_call_writes_nothing (h : headers) (e : endpoint) (w : world) :
  refusal (fst (api h e w)) <> None -> store (snd (api h e w)) = store w.
Proof.
  rewrite api_unfold.
  assert (D : refusal (fst (dispatch h e w)) <> None ->
              store (snd (dispatch h e w)) = store w).
  { destruct e; cbn [dispatch].
    1: { rewrite ledger_snd. intros H. apply handle_error.
         unfold ledger, bind, ret in H.
         destruct (handle h r w) as [a w']. cbn [fst refusal] in *.
         unfold error_of in H. unfold is_error.
         destruct (content a); try reflexivity; congruence. }
    all: open_world w.
    all: unfold post_bank, get_banks, get_bank, put_bank, patch_bank,
           delete_bank, get_wallets, get_wallet, patch_wallet,
           get_bank_wallets, get_bank_transactions, get_balance.
    all: run_api; api_cases;
           cbv beta iota delta [refusal error_of content];
           try reflexivity; congruence. }
  destruct (is_public e); [exact D | ].
  destruct (valid_key _ _); [exact D | ].
  intros _. open_world w. reflexivity.
Qed.

Lemma refused_call_writes_nothing_witness :
  refusal (fst (api (gateway None) (DeleteBank "BANK-001") opening))
  = Some (409, "BANK_HAS_WALLETS")
  /\ store (snd (api (gateway None) (DeleteBank "BANK-001") opening))
     = store opening.
Proof.
  split; [reflexivity | ].
  apply refused_call_writes_nothing. vm_compute. discriminate.
Defined.

(** ** A handler that throws *)

Lemma handle_thrown (h : headers) (r : route) (w : world) :
  code (fst (handle h r w)) = 500 -> store (snd (handle h r w)) = store w.
Proof.
  open_world w. destruct r; cbn [handle].
  - unfold post_wallet. run_api.
    api_cases; intros H; first [reflexivity | discriminate H].
  - unfold put_wallet. run_api.
    api_cases; intros H; first [reflexivity | discriminate H].
  - unfold delete_wallet. run_api.
    api_cases; intros H; first [reflexivity | discriminate H].
  - unfold credit. run_api.
    api_cases; intros H; first [reflexivity | discriminate H].
  - unfold debit. run_api.
    api_cases; intros H; first [reflexivity | discriminate H].
  - unfold transfer. run_api.
    api_cases; intros H; first [reflexivity | discriminate H].
Qed.

(** X18: a call of any route that server.js defines that is answered 500,
    which is how Express answers a handler that throws, here a TypeError on
    a value that a message cannot print or on a balance that is no number,
    writes nothing to the store: every such value is used before the first
    write of its handler. *)
Theorem thrown_call_writes_nothing (h : headers) (e : endpoint) (w : world) :
  status_of (fst (api h e w)) = 500 -> store (snd (api h e w)) = store w.
Proof.
  rewrite api_unfold.
  assert (D : status_of (fst (dispatch h e w)) = 500 ->
              store (snd (dispatch h e w)) = store w).
  { destruct e; cbn [dispatch].
    1: { rewrite ledger_snd. intros H. apply handle_thrown.
         unfold ledger, bind, ret in H.
         destruct (handle h r w) as [a w']. exact H. }
    all: open_world w.
    all: unfold post_bank, get_banks, get_bank, put_bank, patch_bank,
           delete_bank, get_wallets, get_wallet, patch_wallet,
           get_bank_wallets, get_bank_transactions, get_balance.
    all: run_api; api_cases; cbv beta iota delta [status_of code];
           intros H; first [reflexivity | discriminate H]. }
  destruct (is_public e); [exact D | ].
  destruct (valid_key _ _); [exact D | ].
  intros _. open_world w. reflexivity.
Qed.

(** A debit of 2000 on a wallet whose balance is the string ["5"]. *)
Lemma thrown_call_writes_nothing_witness :
  let call := api (gateway None)
                (Core (PostDebit "WALLET-001" (op (of_Z 2000) "DEBIT-001")))
                world_with_string_balance in
  fst call = Ledger (Reply 500 BThrown)
  /\ store (snd call) = store world_with_string_balance.
Proof.
  cbv zeta. split; [vm_compute; reflexivity | ].
  apply thrown_call_writes_nothing. vm_compute. reflexivity.
Defined.

(** ** A written bank, read back *)

Lemma dispatch_written_bank (h : headers) (e : endpoint) (w : world)
  (v : value) (u : Bank.t) :
  written_bank e = Some v ->
  bank_of (fst (dispatch h e w)) = Some u ->
  (forall s, v = VStr s ->
   find (has_bankId (VStr s)) (Db.banks (store (snd (dispatch h e w))))
   = Some u)
  /\ (forall s, v <> VStr s ->
      find (has_bankId (VStr s)) (Db.banks (store (snd (dispatch h e w))))
      = find (has_bankId (VStr s)) (Db.banks (store w))).
Proof.
  intros He. open_world w.
  destruct e as [ | | | | b | | | bankId b | bankId p | | | | | | | ];
    try discriminate; cbn [written_bank] in He; injection He as <-;
    cbn [dispatch].
  - unfold post_bank. run_api.
    api_cases; cbv beta iota delta [bank_of]; try discriminate.
    intros Hu. injection Hu as <-. split; intros s Hs.
    + rewrite Hs in *.
      match goal with
      | E : find (has_bankId _) _ = None |- _ =>
          rewrite (find_push_new _ _ _ E)
      end.
      unfold has_bankId. cbn [Bank.bankId].
      cbn [matches strict_comparable strict_eq].
      rewrite String.eqb_refl. reflexivity.
    + apply find_push_other. unfold has_bankId. cbn [Bank.bankId].
      destruct (matches (VStr s) (BankCreate.bankId b)) eqn:E;
        [ | reflexivity].
      apply strict_eq_VStr in E. contradiction.
  - unfold put_bank. run_api.
    api_cases; cbv beta iota delta [bank_of]; try discriminate.
    intros Hu. injection Hu as <-. split; intros s Hs.
    all: match goal with
         | F : find (has_bankId (VStr _)) _ = Some _ |- _ =>
             pose proof (proj2 (find_some _ _ F)) as Hid
         end.
    + injection Hs as <-. rewrite find_assign_first_same;
        [ match goal with
          | F : find (has_bankId (VStr _)) _ = Some _ |- _ =>
              rewrite F; reflexivity
          end
        | intros a Ha; exact Hid ].
    + apply find_assign_first_other. intros a Ha.
      split;
        [exact (has_bankId_apart _ _ _ (not_this_string _ _ Hs) Ha)
        | exact (has_bankId_apart _ _ _ (not_this_string _ _ Hs) Hid)].
  - unfold patch_bank. run_api.
    api_cases; cbv beta iota delta [bank_of]; try discriminate.
    intros Hu. injection Hu as <-. split; intros s Hs.
    + injection Hs as <-. rewrite find_assign_first_same.
      * match goal with
        | F : find (has_bankId (VStr _)) _ = Some _ |- _ => rewrite F
        end. reflexivity.
      * intros a Ha. unfold has_bankId. cbn [Bank.bankId].
        apply String.eqb_refl.
    + apply find_assign_first_other. intros a Ha.
      split; [exact (has_bankId_apart _ _ _ (not_this_string _ _ Hs) Ha) | ].
      apply (has_bankId_apart _ bankId); [apply not_this_string, Hs | ].
      unfold has_bankId. cbn [Bank.bankId]. apply String.eqb_refl.
Qed.

Lemma get_bank_reads (s : string) (w : world) :
  fst (get_bank s w)
  = match find (has_bankId (VStr s)) (Db.banks (store w)) with
    | Some u => BankJson 200 u
    | None =>
        Ledger (Reply 404
                  (BError (clock w (ticks w)) 404 "BANK_NOT_FOUND"
                     "Banque introuvable"))
    end.
Proof.
  open_world w. unfold get_bank. run_api.
  destruct (find _ _); reflexivity.
Qed.

(** X22: when POST /bank, PUT /bank/:bankId or PATCH /bank/:bankId answers a
    bank under an identifier that is a string, a GET /bank/:bankId of that
    identifier with the same headers answers the same bank, field for
    field; a GET /bank/:bankId of any other string is answered as it would
    have been before the call.  A bank that POST creates under an
    identifier that is not a string, a number say, is read back by no
    GET /bank/:bankId. *)
Theorem written_bank_is_read_back (h : headers) (e : endpoint) (w : world)
  (v : value) (u : Bank.t) :
  written_bank e = Some v ->
  bank_of (fst (api h e w)) = Some u ->
  let w' := snd (api h e w) in
  (forall s, v = VStr s -> fst (api h (GetBank s) w') = BankJson 200 u)
  /\ (forall s, v <> VStr s ->
      fst (api h (GetBank s) w')
      = fst (api h (GetBank s) (World (store w) (clock w') (ticks w')))).
Proof.
  intros He Hu w'.
  assert (P : is_public e = false) by (destruct e; try discriminate; reflexivity).
  assert (V : valid_key (x_service_api_key h) (store w')
              = valid_key (x_service_api_key h) (store w)).
  { unfold valid_key, w'. rewrite api_keeps_keys. reflexivity. }
  assert (A : api h e w = dispatch h e w
              /\ valid_key (x_service_api_key h) (store w) = true).
  { revert Hu. rewrite api_unfold, P.
    destruct (valid_key (x_service_api_key h) (store w)); [auto | ].
    open_world w. unfold unauthorized. run_api.
    cbv beta iota delta [bank_of]. discriminate. }
  destruct A as [A Hv]. rewrite Hv in V.
  destruct (dispatch_written_bank h e w v u He) as [D1 D2];
    [rewrite <- A; exact Hu | ].
  rewrite <- A in D1, D2. fold w' in D1, D2.
  split; intros s Hs; rewrite !api_unfold; cbn [is_public dispatch store].
  - rewrite V, get_bank_reads, (D1 s Hs). reflexivity.
  - rewrite V, Hv, !get_bank_reads, (D2 s Hs). reflexivity.
Qed.

(** A PUT of BANK-001 is read back; a bank created under the number 5 is
    read back by no path, GET /bank/5 included. *)
Lemma written_bank_is_read_back_witness :
  (exists u,
     bank_of (fst (api (gateway None) (PutBank "BANK-001" renamed_bank)
                     opening)) = Some u
     /\ Bank.name u = VStr "OND Banque"
     /\ Bank.status u = VStr "ACTIVE"
     /\ fst (api (gateway None) (GetBank "BANK-001")
               (snd (api (gateway None) (PutBank "BANK-001" renamed_bank)
                       opening)))
        = BankJson 200 u)
  /\ (exists u,
        bank_of (fst (api (gateway None) (PostBank bank_five) opening))
        = Some u
        /\ refusal (fst (api (gateway None) (GetBank "5")
                           (snd (api (gateway None) (PostBank bank_five)
                                   opening))))
           = Some (404, "BANK_NOT_FOUND")).
Proof.
  split.
  - eexists. split; [vm_compute; reflexivity | ].
    split; [reflexivity | ]. split; [reflexivity | ].
    apply (written_bank_is_read_back (gateway None)
             (PutBank "BANK-001" renamed_bank) opening (VStr "BANK-001") _
             eq_refl); [vm_compute; reflexivity | reflexivity].
  - eexists. split; [vm_compute; reflexivity | ].
    destruct (written_bank_is_read_back (gateway None) (PostBank bank_five)
                opening (VNum (of_Z 5)) _ eq_refl
                ltac:(vm_compute; reflexivity)) as [_ H].
    rewrite (H "5"); [vm_compute; reflexivity | discriminate].
Defined.

(** ** The ledger of a bank *)

Lemma filter_push {A : Type} (q : A -> bool) (x : A) (l : list A) :
  filter q (push x l) = (filter q l ++ if q x then [x] else [])%list.
Proof.
  unfold push. induction l as [ | a l IH]; simpl; [reflexivity | ].
  rewrite IH. destruct (q a); reflexivity.
Qed.

Lemma map_filter_assign_first {A B : Type} (key : A -> B) (p q : A -> bool)
  (f : A -> A) (l : list A) :
  (forall a, key (f a) = key a /\ q (f a) = q a) ->
  map key (filter q (assign_first p f l)) = map key (filter q l).
Proof.
  intros H. induction l as [ | a l IH]; simpl; [reflexivity | ].
  destruct (p a); simpl.
  - destruct (H a) as [Hk ->]. destruct (q a); simpl; congruence.
  - destruct (q a); simpl; congruence.
Qed.

Lemma wallet_in_bank_ledger (walletId bankId : string) (l : list Wallet.t)
  (wallet : Wallet.t) :
  find (has_walletId (VStr walletId)) l = Some wallet ->
  Wallet.bankId wallet = VStr bankId ->
  existsb (fun v => same_value_zero v (VStr walletId))
    (map Wallet.walletId (filter (in_bank bankId) l)) = true.
Proof.
  intros Hw Hb. apply existsb_exists. exists (VStr walletId). split.
  - rewrite <- (found_walletId _ _ _ Hw). apply in_map. apply filter_In.
    split; [apply (find_some _ _ Hw) | ].
    unfold in_bank. rewrite Hb. simpl. apply String.eqb_refl.
  - simpl. apply String.eqb_refl.
Qed.

(** X23: GET /bank/:bankId/transactions, after a credit or a debit that went
    through, answered 200, on a wallet of that bank, answers the
    transactions it answered before the operation, followed by the
    transaction that the operation answered. *)
Theorem operation_shows_in_bank_ledger (walletId bankId : string)
  (b : Operation.t) (w : world) (wallet : Wallet.t) (l : list Txn.t) :
  find (has_walletId (VStr walletId)) (Db.wallets (store w)) = Some wallet ->
  Wallet.bankId wallet = VStr bankId ->
  fst (get_bank_transactions bankId w) = TxnsJson l ->
  let c := credit walletId b w in
  let d := debit walletId b w in
  (code (fst c) = 200 ->
   exists t, fst c = json (txn_body t)
             /\ fst (get_bank_transactions bankId (snd c))
                = TxnsJson (l ++ [t]))
  /\ (code (fst d) = 200 ->
      exists t, fst d = json (txn_body t)
                /\ fst (get_bank_transactions bankId (snd d))
                   = TxnsJson (l ++ [t])).
Proof.
  intros Hw Hb Hl c d. subst c d. open_world w.
  revert Hl. unfold get_bank_transactions. run_api.
  destruct (find (has_bankId (VStr bankId)) banks) as [bank | ] eqn:Eb;
    run_api; [ | discriminate].
  intros Hl. injection Hl as Hl.
  assert (K : forall after u,
    map Wallet.walletId
      (filter (in_bank bankId)
         (assign_first (has_walletId (VStr walletId)) (set_balance after u)
            wallets))
    = map Wallet.walletId (filter (in_bank bankId) wallets)).
  { intros after u. apply map_filter_assign_first. intros a.
    split; reflexivity. }
  pose proof (wallet_in_bank_ledger _ _ _ _ Hw Hb) as E.
  split.
  - unfold credit. run_api. rewrite Hw.
    api_cases; try (intros H; discriminate H); try congruence.
    all: intros _; rewrite ?Eb.
    all: eexists; split; [reflexivity | ].
    all: rewrite K, filter_push; cbn [Txn.walletId]; rewrite E, Hl; reflexivity.
  - unfold debit. run_api. rewrite Hw.
    api_cases; try (intros H; discriminate H); try congruence.
    all: intros _; rewrite ?Eb.
    all: eexists; split; [reflexivity | ].
    all: rewrite K, filter_push; cbn [Txn.walletId]; rewrite E, Hl; reflexivity.
Qed.

Lemma operation_shows_in_bank_ledger_witness :
  let c := credit "WALLET-001" (op (of_Z 3000) "CREDIT-001") opening in
  exists t,
    fst c = json (txn_body t)
    /\ fst (get_bank_transactions "BANK-001" (snd c)) = TxnsJson [t].
Proof.
  apply (operation_shows_in_bank_ledger "WALLET-001" "BANK-001"
           (op (of_Z 3000) "CREDIT-001") opening
           (sample_wallet 1 "WALLET-001" "+221771234567" (of_Z 3500)) []
           eq_refl eq_refl eq_refl).
  reflexivity.
Defined.

